(** * NexusConnect: connection registry, broadcaster and call lifecycle

    A shallow embedding of the server of the messaging application:
    - [Schema]  : the tables of [shared/schema.ts];
    - [Storage] : the [DatabaseStorage] class of [server/storage.ts];
    - [Routes]  : the WebSocket handlers, the broadcaster and the two HTTP
                  handlers of [server/routes.ts] that the properties need.

    Conventions.
    - A table with a primary key that the code reads is a [gmap] from the
      key to the remaining columns; a table whose generated key is never
      read (the two participant tables) is the list of its rows, in
      insertion order.
    - A nullable column is an [option]; a timestamp is the number of
      milliseconds since the epoch, as [Date.getTime] gives it.
    - [new Date()], [defaultNow()] and [gen_random_uuid()] are read from an
      environment [Env] that the caller supplies for each handler run: the
      clock does not move during one run.
    - A JavaScript value of type [string | null | undefined] is an
      [option string]; it is truthy when it is [Some] non-empty string.
    - Inserts check the primary and foreign keys of the schema and throw
      when one fails; a handler that throws keeps the writes made so far.
    - A handler runs from its first statement to its last without another
      handler in between: the interleaving of two handlers at an [await]
      is not modelled. *)

From stdpp Require Import gmap strings list fin_maps sorting.
From Stdlib Require Import ZArith.

Open Scope Z_scope.
Open Scope string_scope.
Open Scope list_scope.

(* ===================================================================== *)
(** ** Effects: state and exceptions *)
(* ===================================================================== *)

(** What a database statement can raise. *)
Inductive Error :=
| ForeignKeyViolation
| UniqueViolation
| NoValuesToSet
| IntegerOutOfRange
| InvalidRowCount.

Inductive Outcome (A : Type) :=
| Returned (a : A)
| Thrown (e : Error).
Arguments Returned {A} a.
Arguments Thrown {A} e.

(** An [async] function over a state [S]: it returns or throws, and the
    writes made before a throw stay (no statement runs in a transaction). *)
Definition Eff (S A : Type) : Type := S → Outcome A * S.

Definition ret {S A} (a : A) : Eff S A := λ s, (Returned a, s).
Definition throw {S A} (e : Error) : Eff S A := λ s, (Thrown e, s).
Definition bind {S A B} (m : Eff S A) (k : A → Eff S B) : Eff S B :=
  λ s, match m s with
       | (Returned a, s') => k a s'
       | (Thrown e, s') => (Thrown e, s')
       end.
Definition gets {S A} (f : S → A) : Eff S A := λ s, (Returned (f s), s).
Definition modify {S} (f : S → S) : Eff S unit := λ s, (Returned tt, f s).

Notation "'await' x ← m ; k" := (bind m (λ x, k))
  (at level 10, x name, m at level 100, k at level 200,
   format "'[v' 'await'  x  ←  m ; '/' k ']'").

(** [for (const x of xs) { await body(x) }] *)
Fixpoint forEach {S A} (xs : list A) (body : A → Eff S unit) : Eff S unit :=
  match xs with
  | [] => ret tt
  | x :: xs' => await _ ← body x; forEach xs' body
  end.

(** JavaScript truthiness of a [string | null | undefined]. *)
Definition truthy (v : option string) : option string :=
  match v with
  | Some EmptyString => None
  | Some s => Some s
  | None => None
  end.

(** A payload field that is written to a boolean column: the key may be
    absent ([undefined]), or hold [null] or a boolean. *)
Inductive JsFlag :=
| FUndefined
| FNull
| FBool (b : bool).

(* ===================================================================== *)
(** ** shared/schema.ts *)
(* ===================================================================== *)

Module Schema.

Inductive UserStatus := Online | Away | Busy | Offline.
Inductive ConversationType := Direct | Group.
Inductive ParticipantRole := Owner | Admin | Member.
Inductive CallType := Voice | Video.
Inductive CallStatus := Initiated | Ringing | Active | Ended | Missed | Declined.

#[global] Instance UserStatus_eq_dec : EqDecision UserStatus.
Proof. solve_decision. Defined.
#[global] Instance ConversationType_eq_dec : EqDecision ConversationType.
Proof. solve_decision. Defined.
#[global] Instance ParticipantRole_eq_dec : EqDecision ParticipantRole.
Proof. solve_decision. Defined.
#[global] Instance CallType_eq_dec : EqDecision CallType.
Proof. solve_decision. Defined.
#[global] Instance CallStatus_eq_dec : EqDecision CallStatus.
Proof. solve_decision. Defined.

(** [users]; key [id]. The columns that the modelled code neither reads
    nor writes (password, email, names, image, bio, preferences,
    createdAt) are left out. *)
Module User.
Record t := mk {
    username : string;
    status : option UserStatus;
    lastSeenAt : option Z;
    updatedAt : option Z;
  }.
End User.

(** [conversations]; key [id]. Left out: iconImageUrl, lastMessageId,
    isArchived, createdAt, updatedAt. *)
Module Conversation.
Record t := mk {
    type : ConversationType;
    name : option string;
    description : option string;
    createdById : option string;
    lastActivityAt : option Z;
  }.
End Conversation.

(** [conversation_participants]; no unique constraint on
    (conversationId, userId). Left out: the generated id, mutedUntil,
    lastReadMessageId, lastReadAt. *)
Module ConversationParticipant.
Record t := mk {
    conversationId : string;
    userId : string;
    role : option ParticipantRole;
    joinedAt : option Z;
    isTyping : option bool;
    typingUpdatedAt : option Z;
  }.
End ConversationParticipant.

(** [calls]; key [id]. Left out: metadata. *)
Module Call.
Record t := mk {
    conversationId : option string;
    initiatorId : string;
    type : CallType;
    status : CallStatus;
    startedAt : option Z;
    endedAt : option Z;
    duration : option Z;
    createdAt : option Z;
  }.
End Call.

(** [call_participants]; no unique constraint on (callId, userId). Left
    out: the generated id. *)
Module CallParticipant.
Record t := mk {
    callId : string;
    userId : string;
    joinedAt : option Z;
    leftAt : option Z;
    isMuted : option bool;
    isVideoOff : option bool;
    isScreenSharing : option bool;
  }.
End CallParticipant.

(** The database. *)
Record DB := mkDB {
  users : gmap string User.t;
  conversations : gmap string Conversation.t;
  conversationParticipants : list ConversationParticipant.t;
  calls : gmap string Call.t;
  callParticipants : list CallParticipant.t;
}.

Definition with_users f (d : DB) : DB :=
  mkDB (f (users d)) (conversations d) (conversationParticipants d)
       (calls d) (callParticipants d).
Definition with_conversations f (d : DB) : DB :=
  mkDB (users d) (f (conversations d)) (conversationParticipants d)
       (calls d) (callParticipants d).
Definition with_conversationParticipants f (d : DB) : DB :=
  mkDB (users d) (conversations d) (f (conversationParticipants d))
       (calls d) (callParticipants d).
Definition with_calls f (d : DB) : DB :=
  mkDB (users d) (conversations d) (conversationParticipants d)
       (f (calls d)) (callParticipants d).
Definition with_callParticipants f (d : DB) : DB :=
  mkDB (users d) (conversations d) (conversationParticipants d)
       (calls d) (f (callParticipants d)).

(** [integer] columns hold 32-bit signed values. *)
Definition int4 (n : Z) : bool :=
  ((-2147483648 <=? n) && (n <=? 2147483647))%Z.

End Schema.

(* ===================================================================== *)
(** ** server/storage.ts *)
(* ===================================================================== *)

Module Storage.
Import Schema.

(** The clock and the next generated key, as one handler run sees them. *)
Record Env := mkEnv {
  now : Z;
  uuid : string;
}.

(** A row together with its primary key. *)
Definition Row (A : Type) : Type := string * A.
Definition id {A} (r : Row A) : string := r.1.

(** The value a column takes from a payload field that is not [undefined]. *)
Definition flagValue (f : JsFlag) (old : option bool) : option bool :=
  match f with
  | FUndefined => old
  | FNull => None
  | FBool b => Some b
  end.

Definition isUndefined (f : JsFlag) : bool :=
  match f with FUndefined => true | _ => false end.

(** *** User operations *)

Definition getUser (id : string) : Eff DB (option (Row User.t)) :=
  gets (λ d, (λ u, (id, u)) <$> users d !! id).

Definition updateUserStatus (env : Env) (id : string) (status : UserStatus)
  : Eff DB unit :=
  modify (with_users (alter (λ u,
    User.mk (User.username u) (Some status) (Some (now env)) (Some (now env))) id)).

(** *** Participant operations *)

Definition participantsOf (conversationId : string) (d : DB)
  : list ConversationParticipant.t :=
  filter (λ p, ConversationParticipant.conversationId p = conversationId)
         (conversationParticipants d).

(** Each row of the conversation joined with its user; a row whose user is
    not found is skipped. *)
Definition joinUsers (d : DB) (rows : list ConversationParticipant.t)
  : list (ConversationParticipant.t * Row User.t) :=
  omap (λ p, match users d !! ConversationParticipant.userId p with
             | Some user => Some (p, (ConversationParticipant.userId p, user))
             | None => None
             end)
       rows.

Definition getParticipants (conversationId : string)
  : Eff DB (list (ConversationParticipant.t * Row User.t)) :=
  gets (λ d, joinUsers d (participantsOf conversationId d)).

Definition addParticipant (env : Env) (conversationId userId : string)
    (role : ParticipantRole) : Eff DB ConversationParticipant.t :=
  λ d,
    match conversations d !! conversationId, users d !! userId with
    | Some _, Some _ =>
        let participant :=
          ConversationParticipant.mk conversationId userId (Some role)
            (Some (now env)) (Some false) None in
        (Returned participant,
         with_conversationParticipants (λ rows, rows ++ [participant]) d)
    | _, _ => (Thrown ForeignKeyViolation, d)
    end.

Definition removeParticipant (conversationId userId : string) : Eff DB unit :=
  modify (with_conversationParticipants
    (filter (λ p, ¬ (ConversationParticipant.conversationId p = conversationId
                     ∧ ConversationParticipant.userId p = userId)))).

Definition updateTypingStatus (env : Env) (conversationId userId : string)
    (isTyping : JsFlag) : Eff DB unit :=
  modify (with_conversationParticipants (map (λ p,
    if decide (ConversationParticipant.conversationId p = conversationId
               ∧ ConversationParticipant.userId p = userId)
    then ConversationParticipant.mk
           (ConversationParticipant.conversationId p)
           (ConversationParticipant.userId p)
           (ConversationParticipant.role p)
           (ConversationParticipant.joinedAt p)
           (flagValue isTyping (ConversationParticipant.isTyping p))
           (Some (now env))
    else p))).

(** *** Conversation operations *)

(** Without [lastMessage] and [unreadCount]: the messages table is not
    part of this development. *)
Record ConversationWithDetails := mkDetails {
  conversation : Row Conversation.t;
  participants : list (ConversationParticipant.t * Row User.t);
}.

Definition getConversation (id : string) : Eff DB (option (Row Conversation.t)) :=
  gets (λ d, (λ c, (id, c)) <$> conversations d !! id).

Definition getConversationWithDetails (id userId : string)
  : Eff DB (option ConversationWithDetails) :=
  await conversation ← getConversation id;
  match conversation with
  | None => ret None
  | Some conversation =>
      await participants ← getParticipants id;
      ret (Some (mkDetails conversation participants))
  end.

(** [ORDER BY last_activity_at DESC]: nulls come first. *)
Definition lastActivityDesc (a b : Row Conversation.t) : Prop :=
  match Conversation.lastActivityAt a.2, Conversation.lastActivityAt b.2 with
  | None, _ => True
  | Some _, None => False
  | Some x, Some y => (y ≤ x)%Z
  end.

#[global] Instance lastActivityDesc_dec a b : Decision (lastActivityDesc a b).
Proof.
  unfold lastActivityDesc.
  destruct (Conversation.lastActivityAt a.2), (Conversation.lastActivityAt b.2);
    apply _.
Defined.

Fixpoint collectDetails (userId : string) (convs : list (Row Conversation.t))
  : Eff DB (list ConversationWithDetails) :=
  match convs with
  | [] => ret []
  | conv :: rest =>
      await details ← getConversationWithDetails (id conv) userId;
      await result ← collectDetails userId rest;
      ret (match details with Some d => d :: result | None => result end)
  end.

Definition getUserConversations (userId : string)
  : Eff DB (list ConversationWithDetails) :=
  await conversationIds ← gets (λ d,
    map ConversationParticipant.conversationId
        (filter (λ p, ConversationParticipant.userId p = userId)
                (conversationParticipants d)));
  match conversationIds with
  | [] => ret []
  | _ =>
      await conversationList ← gets (λ d,
        merge_sort lastActivityDesc
          (filter (λ r : Row Conversation.t, id r ∈ conversationIds)
                  (map_to_list (conversations d))));
      collectDetails userId conversationList
  end.

(** The body of a creation request: [type] may be absent, and the column
    then takes its default, [direct]. *)
Record InsertConversation := mkInsertConversation {
  ic_type : option ConversationType;
  ic_name : option string;
  ic_description : option string;
}.

Definition createConversation (env : Env) (data : InsertConversation)
    (participantIds : list string) (creatorId : string)
  : Eff DB (Row Conversation.t) :=
  await conversation ← (λ d,
    match conversations d !! uuid env, users d !! creatorId with
    | Some _, _ => (Thrown UniqueViolation, d)
    | None, None => (Thrown ForeignKeyViolation, d)
    | None, Some _ =>
        let row := Conversation.mk (default Direct (ic_type data))
                     (ic_name data) (ic_description data)
                     (Some creatorId) (Some (now env)) in
        (Returned (uuid env, row), with_conversations <[uuid env := row]> d)
    end);
  (* Add creator as owner *)
  await _ ← addParticipant env (id conversation) creatorId
              (if decide (ic_type data = Some Group) then Owner else Member);
  (* Add other participants *)
  await _ ← forEach participantIds (λ participantId,
              if decide (participantId ≠ creatorId)
              then await _ ← addParticipant env (id conversation) participantId Member;
                   ret tt
              else ret tt);
  ret conversation.

(** The loop over [commonIds] of [findDirectConversation]. *)
Fixpoint firstDirectPair (d : DB) (commonIds : list string)
  : option (Row Conversation.t) :=
  match commonIds with
  | [] => None
  | convId :: rest =>
      match conversations d !! convId with
      | Some conv =>
          if decide (Conversation.type conv = Direct) then
            (* Verify it only has these 2 participants *)
            if decide (length (participantsOf convId d) = 2%nat)
            then Some (convId, conv)
            else firstDirectPair d rest
          else firstDirectPair d rest
      | None => firstDirectPair d rest
      end
  end.

Definition conversationsOf (userId : string) (d : DB) : list string :=
  map ConversationParticipant.conversationId
      (filter (λ p, ConversationParticipant.userId p = userId)
              (conversationParticipants d)).

Definition commonIds (userId1 userId2 : string) (d : DB) : list string :=
  filter (λ id, id ∈ conversationsOf userId2 d) (conversationsOf userId1 d).

Definition findDirectConversation (userId1 userId2 : string)
  : Eff DB (option (Row Conversation.t)) :=
  gets (λ d, firstDirectPair d (commonIds userId1 userId2 d)).

(** *** Call operations *)

Definition getCall (id : string) : Eff DB (option (Row Call.t)) :=
  gets (λ d, (λ c, (id, c)) <$> calls d !! id).

Record InsertCall := mkInsertCall {
  in_conversationId : option string;
  in_initiatorId : string;
  in_type : option CallType;
  in_status : CallStatus;
}.

(** The foreign key of [calls.conversation_id]: null, or an existing
    conversation. *)
Definition conversationExists (d : DB) (conversationId : option string) : bool :=
  match conversationId with
  | Some c => bool_decide (is_Some (conversations d !! c))
  | None => true
  end.

Definition createCall (env : Env) (data : InsertCall) : Eff DB (Row Call.t) :=
  λ d,
    match calls d !! uuid env, users d !! in_initiatorId data with
    | Some _, _ => (Thrown UniqueViolation, d)
    | None, None => (Thrown ForeignKeyViolation, d)
    | None, Some _ =>
        if conversationExists d (in_conversationId data) then
          let row := Call.mk (in_conversationId data) (in_initiatorId data)
                       (default Voice (in_type data)) (in_status data)
                       None None None (Some (now env)) in
          (Returned (uuid env, row), with_calls <[uuid env := row]> d)
        else (Thrown ForeignKeyViolation, d)
    end.

(** The keys of a [Partial<Call>] that the handlers pass; [None] is an
    absent key, which the query builder leaves out of the SET clause. *)
Record CallPatch := mkCallPatch {
  p_status : option CallStatus;
  p_startedAt : option Z;
  p_endedAt : option Z;
  p_duration : option Z;
}.

Definition applyCallPatch (data : CallPatch) (c : Call.t) : Call.t :=
  Call.mk (Call.conversationId c) (Call.initiatorId c) (Call.type c)
    (default (Call.status c) (p_status data))
    (match p_startedAt data with Some t => Some t | None => Call.startedAt c end)
    (match p_endedAt data with Some t => Some t | None => Call.endedAt c end)
    (match p_duration data with Some n => Some n | None => Call.duration c end)
    (Call.createdAt c).

Definition updateCall (id : string) (data : CallPatch)
  : Eff DB (option (Row Call.t)) :=
  λ d,
    match data with
    | mkCallPatch None None None None => (Thrown NoValuesToSet, d)
    | _ =>
        if match p_duration data with Some n => int4 n | None => true end then
          match calls d !! id with
          | Some c =>
              let c' := applyCallPatch data c in
              (Returned (Some (id, c')), with_calls <[id := c']> d)
          | None => (Returned None, d)
          end
        else (Thrown IntegerOutOfRange, d)
    end.

Definition addCallParticipant (env : Env) (callId userId : string)
  : Eff DB CallParticipant.t :=
  λ d,
    match calls d !! callId, users d !! userId with
    | Some _, Some _ =>
        let participant :=
          CallParticipant.mk callId userId (Some (now env)) None
            (Some false) (Some false) (Some false) in
        (Returned participant,
         with_callParticipants (λ rows, rows ++ [participant]) d)
    | _, _ => (Thrown ForeignKeyViolation, d)
    end.

(** The three media keys of a [Partial<CallParticipant>]. *)
Record MediaPatch := mkMediaPatch {
  m_isMuted : JsFlag;
  m_isVideoOff : JsFlag;
  m_isScreenSharing : JsFlag;
}.

Definition applyMediaPatch (data : MediaPatch) (p : CallParticipant.t)
  : CallParticipant.t :=
  CallParticipant.mk (CallParticipant.callId p) (CallParticipant.userId p)
    (CallParticipant.joinedAt p) (CallParticipant.leftAt p)
    (flagValue (m_isMuted data) (CallParticipant.isMuted p))
    (flagValue (m_isVideoOff data) (CallParticipant.isVideoOff p))
    (flagValue (m_isScreenSharing data) (CallParticipant.isScreenSharing p)).

(** The query builder drops the keys whose value is [undefined] and
    refuses to build an UPDATE with nothing left to set. *)
Definition updateCallParticipant (callId userId : string) (data : MediaPatch)
  : Eff DB unit :=
  if isUndefined (m_isMuted data) && isUndefined (m_isVideoOff data)
     && isUndefined (m_isScreenSharing data)
  then throw NoValuesToSet
  else modify (with_callParticipants (map (λ p,
         if decide (CallParticipant.callId p = callId
                    ∧ CallParticipant.userId p = userId)
         then applyMediaPatch data p
         else p))).

Definition removeCallParticipant (env : Env) (callId userId : string)
  : Eff DB unit :=
  modify (with_callParticipants (map (λ p,
    if decide (CallParticipant.callId p = callId
               ∧ CallParticipant.userId p = userId)
    then CallParticipant.mk (CallParticipant.callId p) (CallParticipant.userId p)
           (CallParticipant.joinedAt p) (Some (now env))
           (CallParticipant.isMuted p) (CallParticipant.isVideoOff p)
           (CallParticipant.isScreenSharing p)
    else p))).

End Storage.

(* ===================================================================== *)
(** ** server/routes.ts *)
(* ===================================================================== *)

Module Routes.
Import Schema Storage.

(** [WebSocket.readyState] *)
Inductive ReadyState := CONNECTING | OPEN | CLOSING | CLOSED.

#[global] Instance ReadyState_eq_dec : EqDecision ReadyState.
Proof. solve_decision. Defined.

(** The payload of the three media messages, as the handler reads it. *)
Record TogglePayload := mkTogglePayload {
  t_callId : option string;
  t_isMuted : JsFlag;
  t_isVideoOff : JsFlag;
  t_isScreenSharing : JsFlag;
}.

(** What [JSON.stringify({ type, payload })] is given, one constructor for
    each outbound type. *)
Inductive Event :=
| NewConversation (conversation : option ConversationWithDetails)
| IncomingCall (call : Row Call.t) (initiator : option (Row User.t))
| CallAccepted (callId userId : string)
| CallDeclined (callId userId : string)
| CallEnded (callId endedBy : string) (duration : Z)
| ParticipantMediaChanged (callId : option string) (userId : string)
                          (payload : TogglePayload)
| UserStatusChanged (userId : string) (status : UserStatus)
| TypingStatus (conversationId userId : string) (isTyping : JsFlag)
| IceCandidate (fromUserId candidate : string)
| WebrtcOffer (fromUserId offer : string)
| WebrtcAnswer (fromUserId answer : string).

(** The process: the [clients] map, the socket objects it refers to (a
    socket is named by a number, and [sockets] holds its [readyState]),
    the database behind [storage], and the frames written to sockets so
    far, oldest first. *)
Record Server := mkServer {
  clients : gmap string nat;
  sockets : gmap nat ReadyState;
  db : DB;
  outbox : list (nat * Event);
}.

Definition with_clients f (st : Server) : Server :=
  mkServer (f (clients st)) (sockets st) (db st) (outbox st).
Definition with_sockets f (st : Server) : Server :=
  mkServer (clients st) (f (sockets st)) (db st) (outbox st).
Definition with_db f (st : Server) : Server :=
  mkServer (clients st) (sockets st) (f (db st)) (outbox st).
Definition with_outbox f (st : Server) : Server :=
  mkServer (clients st) (sockets st) (db st) (f (outbox st)).

(** [await storage.f(...)] *)
Definition storage {A} (m : Eff DB A) : Eff Server A :=
  λ st, let '(r, d) := m (db st) in (r, with_db (λ _, d) st).

(** [client.send(...)] *)
Definition send (client : nat) (ev : Event) (st : Server) : Server :=
  with_outbox (λ frames, frames ++ [(client, ev)]) st.

(** Broadcast to specific users *)
Definition broadcastToUsers (userIds : list string) (ev : Event) (st : Server)
  : Server :=
  foldl (λ st userId,
           match clients st !! userId with
           | Some client =>
               if decide (sockets st !! client = Some OPEN)
               then send client ev st
               else st
           | None => st
           end)
        st userIds.

(** Broadcast to conversation participants *)
Definition broadcastToConversation (conversationId : string) (ev : Event)
    (excludeUserId : option string) : Eff Server unit :=
  await participants ← storage (getParticipants conversationId);
  let userIds :=
    filter (λ id, Some id ≠ excludeUserId)
           (map (λ p, ConversationParticipant.userId p.1) participants) in
  modify (broadcastToUsers userIds ev).

(** [Set.add], keeping insertion order. *)
Definition setAdd (x : string) (s : list string) : list string :=
  if decide (x ∈ s) then s else s ++ [x].

(** The contact set of the two presence handlers. *)
Definition contactIds (userId : string)
    (conversations : list ConversationWithDetails) : list string :=
  foldl (λ acc conv,
           foldl (λ acc p,
                    let other := ConversationParticipant.userId p.1 in
                    if decide (other ≠ userId) then setAdd other acc else acc)
                 acc (participants conv))
        [] conversations.

(** *** The messages of a connection *)

Inductive ToggleKind := ToggleMute | ToggleVideo | ToggleScreenShare.

(** A frame after [JSON.parse], by the case of the [switch] it reaches.
    [Unhandled] stands for every frame that reaches no case or throws
    before one (not JSON, no payload, unknown type). *)
Inductive Message :=
| UserOnline (userId : option string)
| Typing (conversationId : option string) (isTyping : JsFlag)
| StartCall (conversationId : option string) (type : option CallType)
| AcceptCall (callId : option string)
| DeclineCall (callId : option string)
| EndCall (callId : option string)
| Toggle (kind : ToggleKind) (payload : TogglePayload)
| IceCandidateMsg (targetUserId candidate : option string)
| WebrtcOfferMsg (targetUserId offer : option string)
| WebrtcAnswerMsg (targetUserId answer : option string)
| Unhandled.

(** [try { ... } catch (error) { console.error(...) }] *)
Definition catch (m : Eff Server unit) (st : Server) : Server := (m st).2.

Definition userOnline (env : Env) (ws : nat) (userId : option string)
  : Eff Server unit :=
  match truthy userId with
  | Some userId =>
      await _ ← modify (with_clients <[userId := ws]>);
      await _ ← storage (updateUserStatus env userId Online);
      (* Notify contacts about online status *)
      await conversations ← storage (getUserConversations userId);
      modify (broadcastToUsers (contactIds userId conversations)
                (UserStatusChanged userId Online))
  | None => ret tt
  end.

Definition typing (env : Env) (userId conversationId : option string)
    (isTyping : JsFlag) : Eff Server unit :=
  match truthy userId, truthy conversationId with
  | Some userId, Some conversationId =>
      await _ ← storage (updateTypingStatus env conversationId userId isTyping);
      broadcastToConversation conversationId
        (TypingStatus conversationId userId isTyping) (Some userId)
  | _, _ => ret tt
  end.

Definition startCall (env : Env) (userId conversationId : option string)
    (type : option CallType) : Eff Server unit :=
  match truthy userId, truthy conversationId with
  | Some userId, Some conversationId =>
      await call ← storage (createCall env
                     (mkInsertCall (Some conversationId) userId type Initiated));
      await _ ← storage (addCallParticipant env (id call) userId);
      await initiator ← storage (getUser userId);
      broadcastToConversation conversationId
        (IncomingCall call initiator) (Some userId)
  | _, _ => ret tt
  end.

Definition acceptCall (env : Env) (userId callId : option string)
  : Eff Server unit :=
  match truthy userId, truthy callId with
  | Some userId, Some callId =>
      await call ← storage (getCall callId);
      match call with
      | Some call =>
          await _ ← storage (addCallParticipant env (id call) userId);
          await _ ← storage (updateCall (id call)
                      (mkCallPatch (Some Active) (Some (now env)) None None));
          (* Notify call participants *)
          match truthy (Call.conversationId call.2) with
          | Some conversationId =>
              broadcastToConversation conversationId
                (CallAccepted (id call) userId) None
          | None => ret tt
          end
      | None => ret tt
      end
  | _, _ => ret tt
  end.

Definition declineCall (userId callId : option string) : Eff Server unit :=
  match truthy userId, truthy callId with
  | Some userId, Some callId =>
      await call ← storage (getCall callId);
      match call with
      | Some call =>
          await _ ← storage (updateCall (id call)
                      (mkCallPatch (Some Declined) None None None));
          match truthy (Call.conversationId call.2) with
          | Some conversationId =>
              broadcastToConversation conversationId
                (CallDeclined (id call) userId) None
          | None => ret tt
          end
      | None => ret tt
      end
  | _, _ => ret tt
  end.

(** [call.startedAt ? Math.floor((endedAt - startedAt) / 1000) : 0] *)
Definition callDuration (endedAt : Z) (startedAt : option Z) : Z :=
  match startedAt with
  | Some startedAt => (endedAt - startedAt) `div` 1000
  | None => 0
  end.

Definition endCall (env : Env) (userId callId : option string)
  : Eff Server unit :=
  match truthy userId, truthy callId with
  | Some userId, Some callId =>
      await call ← storage (getCall callId);
      match call with
      | Some call =>
          let endedAt := now env in
          let duration := callDuration endedAt (Call.startedAt call.2) in
          await _ ← storage (updateCall (id call)
                      (mkCallPatch (Some Ended) None (Some endedAt) (Some duration)));
          match truthy (Call.conversationId call.2) with
          | Some conversationId =>
              broadcastToConversation conversationId
                (CallEnded (id call) userId duration) None
          | None => ret tt
          end
      | None => ret tt
      end
  | _, _ => ret tt
  end.

(** [type === "toggle-..." ? payload.flag : undefined] *)
Definition mediaPatch (kind : ToggleKind) (payload : TogglePayload) : MediaPatch :=
  mkMediaPatch
    (match kind with ToggleMute => t_isMuted payload | _ => FUndefined end)
    (match kind with ToggleVideo => t_isVideoOff payload | _ => FUndefined end)
    (match kind with
     | ToggleScreenShare => t_isScreenSharing payload
     | _ => FUndefined
     end).

Definition toggle (userId : option string) (kind : ToggleKind)
    (payload : TogglePayload) : Eff Server unit :=
  match truthy userId, truthy (t_callId payload) with
  | Some userId, Some callId =>
      await _ ← storage (updateCallParticipant callId userId
                           (mediaPatch kind payload));
      await call ← storage (getCall callId);
      match call with
      | Some call =>
          match truthy (Call.conversationId call.2) with
          | Some conversationId =>
              broadcastToConversation conversationId
                (ParticipantMediaChanged (t_callId payload) userId payload)
                (Some userId)
          | None => ret tt
          end
      | None => ret tt
      end
  | _, _ => ret tt
  end.

(** The three relays: [mk] is the outbound event of the message type, and
    the relayed body (candidate, offer or answer) is kept as a string. *)
Definition relay (userId targetUserId body : option string)
    (mk : string → string → Event) : Eff Server unit :=
  match truthy userId, truthy targetUserId, truthy body with
  | Some userId, Some targetUserId, Some body =>
      modify (broadcastToUsers [targetUserId] (mk userId body))
  | _, _, _ => ret tt
  end.

(** [ws.on("message")]: the closure variable [userId] before the frame, and
    the variable and the process after it. *)
Definition onMessage (env : Env) (ws : nat) (userId : option string)
    (m : Message) (st : Server) : option string * Server :=
  match m with
  | UserOnline payloadUserId =>
      (payloadUserId, catch (userOnline env ws payloadUserId) st)
  | Typing conversationId isTyping =>
      (userId, catch (typing env userId conversationId isTyping) st)
  | StartCall conversationId type =>
      (userId, catch (startCall env userId conversationId type) st)
  | AcceptCall callId => (userId, catch (acceptCall env userId callId) st)
  | DeclineCall callId => (userId, catch (declineCall userId callId) st)
  | EndCall callId => (userId, catch (endCall env userId callId) st)
  | Toggle kind payload => (userId, catch (toggle userId kind payload) st)
  | IceCandidateMsg target candidate =>
      (userId, catch (relay userId target candidate IceCandidate) st)
  | WebrtcOfferMsg target offer =>
      (userId, catch (relay userId target offer WebrtcOffer) st)
  | WebrtcAnswerMsg target answer =>
      (userId, catch (relay userId target answer WebrtcAnswer) st)
  | Unhandled => (userId, st)
  end.

(** [ws.on("close")] *)
Definition onClose (env : Env) (userId : option string) : Eff Server unit :=
  match truthy userId with
  | Some userId =>
      await _ ← modify (with_clients (delete userId));
      await _ ← storage (updateUserStatus env userId Offline);
      (* Notify contacts about offline status *)
      await conversations ← storage (getUserConversations userId);
      modify (broadcastToUsers (contactIds userId conversations)
                (UserStatusChanged userId Offline))
  | None => ret tt
  end.

(** [wss.on("connection")]: a new socket is open and [userId] is null. *)
Definition onConnection (ws : nat) (st : Server) : option string * Server :=
  (None, with_sockets <[ws := OPEN]> st).

(** The transport of [ws] closes: the socket is [CLOSED] when its close
    listener runs. *)
Definition transportClose (env : Env) (ws : nat) (userId : option string)
    (st : Server) : Server :=
  catch (onClose env userId) (with_sockets <[ws := CLOSED]> st).

(** A connection receiving frames one after the other. *)
Fixpoint receive (ws : nat) (userId : option string)
    (frames : list (Env * Message)) (st : Server) : option string * Server :=
  match frames with
  | [] => (userId, st)
  | (env, m) :: rest =>
      let '(userId', st') := onMessage env ws userId m st in
      receive ws userId' rest st'
  end.

(** *** HTTP handlers *)

Inductive Response (A : Type) :=
| Json (status : nat) (body : A)
| Failed (status : nat).
Arguments Json {A} status body.
Arguments Failed {A} status.

(** [try { ... } catch (error) { res.status(500)... }] *)
Definition respond {A} (m : Eff Server (Response A)) (st : Server)
  : Response A * Server :=
  match m st with
  | (Returned r, st') => (r, st')
  | (Thrown _, st') => (Failed 500, st')
  end.

(** [POST /api/calls]; [userId] is the authenticated user. A request
    without [conversationId] stores a call without conversation, and the
    participant query then compares the column with null, which selects
    no row. *)
Definition postCalls (env : Env) (userId : string)
    (conversationId : option string) (type : option CallType)
  : Server → Response (Row Call.t) * Server :=
  respond (
    await call ← storage (createCall env
                   (mkInsertCall conversationId userId type Initiated));
    (* Add initiator as participant *)
    await _ ← storage (addCallParticipant env (id call) userId);
    (* Notify conversation participants *)
    await initiator ← storage (getUser userId);
    await _ ← match conversationId with
              | Some conversationId =>
                  broadcastToConversation conversationId
                    (IncomingCall call initiator) (Some userId)
              | None => ret tt
              end;
    ret (Json 201 call)).

(** [POST /api/conversations] *)
Definition postConversations (env : Env) (userId : string)
    (data : InsertConversation) (participantIds : list string)
  : Server → Response (option ConversationWithDetails) * Server :=
  respond (
    (* For direct conversations, check if one already exists *)
    await existingConv ←
      match ic_type data, participantIds with
      | Some Direct, [participantId] =>
          storage (findDirectConversation userId participantId)
      | _, _ => ret None
      end;
    match existingConv with
    | Some existingConv =>
        await details ← storage (getConversationWithDetails (id existingConv) userId);
        ret (Json 200 details)
    | None =>
        await conversation ← storage (createConversation env data participantIds userId);
        await details ← storage (getConversationWithDetails (id conversation) userId);
        (* Notify participants *)
        await _ ← modify (broadcastToUsers participantIds (NewConversation details));
        ret (Json 201 details)
    end).

End Routes.

(* ===================================================================== *)
(** ** The message operations and routes *)
(* ===================================================================== *)

(** The message functions of [server/storage.ts] and the three message
    routes of [server/routes.ts]. They need the messages table, the
    [last_message_id] column of conversations and three more outbound
    events; the process is modelled once more with these, next to the
    one of the live handlers. *)
Module Messages.
Import Schema Storage Routes.

Inductive MessageType := Text | Image | System.
Inductive MessageStatus := Sent | Delivered | Read.

Record Attachment := mkAttachment {
  a_url : string;
  a_type : string;
  a_name : string;
  a_size : option Z;
}.

(** A text field of a JSON body: absent, [null] or a string. *)
Inductive JsText :=
| TUndefined
| TNull
| TString (s : string).

(** [messages]; key [id]. *)
Module Message.
Record t := mk {
  conversationId : string;
  senderId : string;
  content : option string;
  messageType : option MessageType;
  attachments : option (list Attachment);
  replyToId : option string;
  status : option MessageStatus;
  editedAt : option Z;
  deletedAt : option Z;
  createdAt : option Z;
}.
End Message.

(** The database with the messages table. [lastMessageId] is the column
    [last_message_id] of conversations, by conversation id; a
    conversation without entry has null there. *)
Record Store := mkStore {
  base : DB;
  messages : gmap string Message.t;
  lastMessageId : gmap string string;
}.

Definition with_base f (s : Store) : Store :=
  mkStore (f (base s)) (messages s) (lastMessageId s).
Definition with_messages f (s : Store) : Store :=
  mkStore (base s) (f (messages s)) (lastMessageId s).
Definition with_lastMessageId f (s : Store) : Store :=
  mkStore (base s) (messages s) (f (lastMessageId s)).

(** A storage function of the other tables, run on this database. *)
Definition onBase {A} (m : Eff DB A) : Eff Store A :=
  λ s, let '(r, d) := m (base s) in (r, with_base (λ _, d) s).

(** *** Message operations *)

Definition getMessage (id : string) : Eff Store (option (Row Message.t)) :=
  gets (λ s, (λ m, (id, m)) <$> messages s !! id).

Record MessageWithSender := mkWithSender {
  message : Row Message.t;
  sender : Row User.t;
  replyTo : option (Row Message.t * Row User.t);
}.

Definition getMessageWithSender (id : string)
  : Eff Store (option MessageWithSender) :=
  await message ← getMessage id;
  match message with
  | None => ret None
  | Some message =>
      await sender ← onBase (getUser (Message.senderId message.2));
      match sender with
      | None => ret None
      | Some sender =>
          await replyTo ←
            match truthy (Message.replyToId message.2) with
            | Some replyToId =>
                await replyMessage ← getMessage replyToId;
                match replyMessage with
                | Some replyMessage =>
                    await replySender ←
                      onBase (getUser (Message.senderId replyMessage.2));
                    match replySender with
                    | Some replySender => ret (Some (replyMessage, replySender))
                    | None => ret None
                    end
                | None => ret None
                end
            | None => ret None
            end;
          ret (Some (mkWithSender message sender replyTo))
      end
  end.

(** [ORDER BY created_at DESC]: nulls come first. *)
Definition createdDesc (a b : Row Message.t) : Prop :=
  match Message.createdAt a.2, Message.createdAt b.2 with
  | None, _ => True
  | Some _, None => False
  | Some x, Some y => (y ≤ x)%Z
  end.

#[global] Instance createdDesc_dec a b : Decision (createdDesc a b).
Proof.
  unfold createdDesc.
  destruct (Message.createdAt a.2), (Message.createdAt b.2); apply _.
Defined.

Fixpoint collectWithSender (msgs : list (Row Message.t))
  : Eff Store (list MessageWithSender) :=
  match msgs with
  | [] => ret []
  | msg :: rest =>
      await withSender ← getMessageWithSender (id msg);
      await result ← collectWithSender rest;
      ret (match withSender with Some m => m :: result | None => result end)
  end.

(** [.limit(limit)]: the query builder writes the LIMIT clause only for a
    number that is not negative, and leaves it out otherwise. *)
Definition limitRows {A} (limit : Z) (rows : list A) : list A :=
  if decide (0 ≤ limit)%Z then take (Z.to_nat limit) rows else rows.

(** [limit] and [offset] are the integers that the route passes on from
    the query string ([parseInt(...) || 50] and [parseInt(...) || 0]),
    which may be negative. Both are sent as parameters of type bigint.
    The OFFSET clause is written for every [offset] but 0, and the
    database refuses a negative one. *)
Definition getConversationMessages (conversationId : string)
    (limit offset : Z) : Eff Store (list MessageWithSender) :=
  await messageList ← (λ s,
    if decide (2 ^ 63 ≤ limit ∨ 2 ^ 63 ≤ offset)%Z
    then (Thrown IntegerOutOfRange, s)
    else if decide (offset < 0)%Z then (Thrown InvalidRowCount, s)
    else
      (Returned
         (limitRows limit (drop (Z.to_nat offset)
            (merge_sort createdDesc
               (filter (λ r : Row Message.t,
                          Message.conversationId r.2 = conversationId)
                       (map_to_list (messages s)))))),
       s));
  collectWithSender (reverse messageList).

Record InsertMessage := mkInsertMessage {
  im_conversationId : string;
  im_senderId : string;
  im_content : option string;
  im_replyToId : option string;
  im_attachments : option (list Attachment);
  im_messageType : option MessageType;
}.

Definition createMessage (env : Env) (data : InsertMessage)
  : Eff Store (Row Message.t) :=
  await message ← (λ s,
    match messages s !! uuid env,
          conversations (base s) !! im_conversationId data,
          users (base s) !! im_senderId data with
    | Some _, _, _ => (Thrown UniqueViolation, s)
    | None, Some _, Some _ =>
        let row := Message.mk (im_conversationId data) (im_senderId data)
                     (im_content data)
                     (Some (default Text (im_messageType data)))
                     (im_attachments data) (im_replyToId data)
                     (Some Sent) None None (Some (now env)) in
        (Returned (uuid env, row), with_messages <[uuid env := row]> s)
    | None, _, _ => (Thrown ForeignKeyViolation, s)
    end);
  (* Update conversation last activity *)
  await _ ← modify (λ s,
    match conversations (base s) !! im_conversationId data with
    | Some c =>
        with_lastMessageId <[im_conversationId data := id message]>
          (with_base (with_conversations
             <[im_conversationId data :=
                 Conversation.mk (Conversation.type c) (Conversation.name c)
                   (Conversation.description c) (Conversation.createdById c)
                   (Some (now env))]>) s)
    | None => s
    end);
  ret message.

Definition textValue (f : JsText) (old : option string) : option string :=
  match f with
  | TUndefined => old
  | TNull => None
  | TString s => Some s
  end.

(** [updateMessage(id, { content })]: [editedAt] is always set. *)
Definition updateMessage (env : Env) (id : string) (content : JsText)
  : Eff Store (option (Row Message.t)) :=
  λ s,
    match messages s !! id with
    | Some m =>
        let m' := Message.mk (Message.conversationId m) (Message.senderId m)
                    (textValue content (Message.content m))
                    (Message.messageType m) (Message.attachments m)
                    (Message.replyToId m) (Message.status m)
                    (Some (now env)) (Message.deletedAt m)
                    (Message.createdAt m) in
        (Returned (Some (id, m')), with_messages <[id := m']> s)
    | None => (Returned None, s)
    end.

Definition deleteMessage (env : Env) (id : string) : Eff Store unit :=
  modify (with_messages (alter (λ m,
    Message.mk (Message.conversationId m) (Message.senderId m) None
      (Message.messageType m) (Message.attachments m) (Message.replyToId m)
      (Message.status m) (Message.editedAt m) (Some (now env))
      (Message.createdAt m)) id)).

(** *** The process and its broadcasts *)

Inductive MessageEvent :=
| NewMessage (conversationId : string) (message : option MessageWithSender)
| MessageUpdated (conversationId : string) (message : option (Row Message.t))
| MessageDeleted (conversationId messageId : string).

Record App := mkApp {
  clients : gmap string nat;
  sockets : gmap nat ReadyState;
  store : Store;
  outbox : list (nat * MessageEvent);
}.

Definition with_store f (st : App) : App :=
  mkApp (clients st) (sockets st) (f (store st)) (outbox st).
Definition with_outbox f (st : App) : App :=
  mkApp (clients st) (sockets st) (store st) (f (outbox st)).

(** [await storage.f(...)] *)
Definition storage {A} (m : Eff Store A) : Eff App A :=
  λ st, let '(r, s) := m (store st) in (r, with_store (λ _, s) st).

Definition send (client : nat) (ev : MessageEvent) (st : App) : App :=
  with_outbox (λ frames, frames ++ [(client, ev)]) st.

(** Broadcast to specific users *)
Definition broadcastToUsers (userIds : list string) (ev : MessageEvent)
    (st : App) : App :=
  foldl (λ st userId,
           match clients st !! userId with
           | Some client =>
               if decide (sockets st !! client = Some OPEN)
               then send client ev st
               else st
           | None => st
           end)
        st userIds.

(** Broadcast to conversation participants *)
Definition broadcastToConversation (conversationId : string)
    (ev : MessageEvent) (excludeUserId : option string) : Eff App unit :=
  await participants ← storage (onBase (getParticipants conversationId));
  let userIds :=
    filter (λ id, Some id ≠ excludeUserId)
           (map (λ p, ConversationParticipant.userId p.1) participants) in
  modify (broadcastToUsers userIds ev).

(** *** Message routes *)

Definition respond {A} (m : Eff App (Response A)) (st : App)
  : Response A * App :=
  match m st with
  | (Returned r, st') => (r, st')
  | (Thrown _, st') => (Failed 500, st')
  end.

(** [POST /api/conversations/:id/messages]; [files] are the uploaded
    attachments, if any. The response is sent before the broadcast; a
    failure of the broadcast is logged and does not change it. *)
Definition postMessage (env : Env) (userId conversationId : string)
    (content replyToId : option string) (files : option (list Attachment))
    (st : App) : Response (option MessageWithSender) * App :=
  let attachments :=
    match files with
    | Some (_ :: _) => files
    | _ => None
    end in
  match (await message ← storage (createMessage env
                  (mkInsertMessage conversationId userId content replyToId
                     attachments
                     (Some (match attachments with
                            | Some _ => Image
                            | None => Text
                            end))));
         storage (getMessageWithSender (id message))) st with
  | (Returned messageWithSender, st') =>
      (Json 201 messageWithSender,
       (broadcastToConversation conversationId
          (NewMessage conversationId messageWithSender) None st').2)
  | (Thrown _, st') => (Failed 500, st')
  end.

(** [PATCH /api/messages/:id] *)
Definition patchMessage (env : Env) (userId id : string) (content : JsText)
  : App → Response (option (Row Message.t)) * App :=
  respond (
    await message ← storage (getMessage id);
    match message with
    | None => ret (Failed 404)
    | Some message =>
        if decide (Message.senderId message.2 ≠ userId) then ret (Failed 403)
        else
          await updated ← storage (updateMessage env id content);
          (* Broadcast update *)
          await _ ← broadcastToConversation (Message.conversationId message.2)
                      (MessageUpdated (Message.conversationId message.2) updated)
                      None;
          ret (Json 200 updated)
    end).

(** [DELETE /api/messages/:id] *)
Definition deleteMessageRoute (env : Env) (userId id : string)
  : App → Response unit * App :=
  respond (
    await message ← storage (getMessage id);
    match message with
    | None => ret (Failed 404)
    | Some message =>
        if decide (Message.senderId message.2 ≠ userId) then ret (Failed 403)
        else
          await _ ← storage (deleteMessage env id);
          (* Broadcast deletion *)
          await _ ← broadcastToConversation (Message.conversationId message.2)
                      (MessageDeleted (Message.conversationId message.2) id)
                      None;
          ret (Json 204 tt)
    end).

(** The sockets that a broadcast to [userIds] writes to. *)
Definition recipients (st : App) (userIds : list string) : list nat :=
  omap (λ userId,
          match clients st !! userId with
          | Some client =>
              if decide (sockets st !! client = Some OPEN)
              then Some client else None
          | None => None
          end)
       userIds.

Definition frames (st : App) (userIds : list string) (ev : MessageEvent)
  : list (nat * MessageEvent) :=
  map (λ client, (client, ev)) (recipients st userIds).

(** The row that [updateMessage] leaves of row [m], and the row that
    [deleteMessage] leaves of it. *)
Definition edited (env : Env) (content : JsText) (m : Message.t) : Message.t :=
  Message.mk (Message.conversationId m) (Message.senderId m)
    (textValue content (Message.content m))
    (Message.messageType m) (Message.attachments m) (Message.replyToId m)
    (Message.status m) (Some (now env)) (Message.deletedAt m)
    (Message.createdAt m).

Definition tombstone (env : Env) (m : Message.t) : Message.t :=
  Message.mk (Message.conversationId m) (Message.senderId m) None
    (Message.messageType m) (Message.attachments m) (Message.replyToId m)
    (Message.status m) (Message.editedAt m) (Some (now env))
    (Message.createdAt m).

(** What [postMessage] passes on of the uploaded files, and the row that
    [createMessage] inserts for the request. *)
Definition attached (files : option (list Attachment))
  : option (list Attachment) :=
  match files with
  | Some (_ :: _) => files
  | _ => None
  end.

Definition posted (env : Env) (userId conversationId : string)
    (content replyToId : option string) (files : option (list Attachment))
  : Message.t :=
  Message.mk conversationId userId content
    (Some (match attached files with Some _ => Image | None => Text end))
    (attached files) replyToId (Some Sent) None None (Some (now env)).

(** The conversation row after a message at the time of [env]. *)
Definition touched (env : Env) (c : Conversation.t) : Conversation.t :=
  Conversation.mk (Conversation.type c) (Conversation.name c)
    (Conversation.description c) (Conversation.createdById c)
    (Some (now env)).


End Messages.

(* ===================================================================== *)
(** ** Vocabulary of the properties *)
(* ===================================================================== *)

Import Schema Storage Routes.

(** The sockets that a broadcast to [userIds] writes to, in order: the
    registered socket of each id that has one in state [OPEN]. *)
Definition recipients (st : Server) (userIds : list string) : list nat :=
  omap (λ userId,
          match clients st !! userId with
          | Some client =>
              if decide (sockets st !! client = Some OPEN)
              then Some client else None
          | None => None
          end)
       userIds.

(** The frames that a broadcast of [ev] to [userIds] adds to the outbox. *)
Definition frames (st : Server) (userIds : list string) (ev : Event)
  : list (nat * Event) :=
  map (λ client, (client, ev)) (recipients st userIds).

(** The user ids that [getParticipants] gives for a conversation. *)
Definition memberIds (conversationId : string) (d : DB) : list string :=
  map (λ p, ConversationParticipant.userId p.1)
      (joinUsers d (participantsOf conversationId d)).

(** The media flag of a participant row that a toggle kind names. *)
Definition flagOf (kind : ToggleKind) (p : CallParticipant.t) : option bool :=
  match kind with
  | ToggleMute => CallParticipant.isMuted p
  | ToggleVideo => CallParticipant.isVideoOff p
  | ToggleScreenShare => CallParticipant.isScreenSharing p
  end.

(** The payload field that a toggle kind reads. *)
Definition payloadFlag (kind : ToggleKind) (payload : TogglePayload) : JsFlag :=
  match kind with
  | ToggleMute => t_isMuted payload
  | ToggleVideo => t_isVideoOff payload
  | ToggleScreenShare => t_isScreenSharing payload
  end.

#[global] Instance ToggleKind_eq_dec : EqDecision ToggleKind.
Proof. solve_decision. Defined.

#[global] Instance JsFlag_eq_dec : EqDecision JsFlag.
Proof. solve_decision. Defined.

(** What the loop of [findDirectConversation] tests on an id: the
    conversation exists, is direct and has exactly two participant rows. *)
Definition isDirectPair (d : DB) (convId : string) : bool :=
  match conversations d !! convId with
  | Some conv =>
      bool_decide (Conversation.type conv = Direct)
      && bool_decide (length (participantsOf convId d) = 2%nat)
  | None => false
  end.

(** The direct conversations of exactly two rows in which both users have
    a row, in the order of the rows of the first user. *)
Definition directPairs (userId1 userId2 : string) (d : DB) : list string :=
  filter (λ convId, isDirectPair d convId = true) (commonIds userId1 userId2 d).

(** The id of the conversation that a response carries. *)
Definition responseId (r : Response (option ConversationWithDetails))
  : option string :=
  match r with
  | Json _ (Some details) => Some (id (conversation details))
  | _ => None
  end.

(** The database after the creation of a direct conversation by
    [creatorId] with [otherId]: one conversation and two member rows
    more, under the generated id. *)
Definition newDirect (env : Env) (data : InsertConversation) (creatorId : string)
  : Conversation.t :=
  Conversation.mk Direct (ic_name data) (ic_description data)
    (Some creatorId) (Some (now env)).

Definition newMember (env : Env) (userId : string) : ConversationParticipant.t :=
  ConversationParticipant.mk (uuid env) userId (Some Member) (Some (now env))
    (Some false) None.

Definition withNewDirect (env : Env) (data : InsertConversation)
    (creatorId otherId : string) (d : DB) : DB :=
  mkDB (users d)
       (<[uuid env := newDirect env data creatorId]> (conversations d))
       (conversationParticipants d
        ++ [newMember env creatorId; newMember env otherId])
       (calls d) (callParticipants d).

(** A frame that binds its connection to a user id. *)
Definition binds (m : Message) : bool :=
  match m with
  | UserOnline userId => bool_decide (is_Some (truthy userId))
  | _ => false
  end.

(** *** A small deployment, for the concrete runs

    Three users; a direct conversation ["c1"] between ["A"] and ["B"];
    one call ["k1"] in it, started by ["A"]; ["A"] is connected on socket 1
    and ["B"] on socket 2. *)
Module Sample.

Definition user (name : string) : User.t :=
  User.mk name (Some Offline) None None.

Definition member (conversationId userId : string) : ConversationParticipant.t :=
  ConversationParticipant.mk conversationId userId (Some Member) (Some 10)
    (Some false) None.

Definition joined (callId userId : string) : CallParticipant.t :=
  CallParticipant.mk callId userId (Some 500) None
    (Some false) (Some false) (Some false).

Definition ringingCall : Call.t :=
  Call.mk (Some "c1") "A" Voice Initiated None None None (Some 500).
Definition activeCall : Call.t :=
  Call.mk (Some "c1") "A" Voice Active (Some 1000) None None (Some 500).
Definition endedCall : Call.t :=
  Call.mk (Some "c1") "A" Voice Ended (Some 1000) (Some 31000) (Some 30)
    (Some 500).

Definition people : gmap string User.t :=
  <["A" := user "alice"]> (<["B" := user "bob"]> (<["C" := user "carol"]> ∅)).

Definition database (call : Call.t) : DB :=
  mkDB people
       {["c1" := Conversation.mk Direct None None (Some "A") (Some 10)]}
       [member "c1" "A"; member "c1" "B"]
       {["k1" := call]}
       [joined "k1" "A"].

Definition server (call : Call.t) : Server :=
  mkServer (<["A" := 1%nat]> {["B" := 2%nat]})
           (<[1%nat := OPEN]> {[2%nat := OPEN]})
           (database call) [].

Definition at_ms (t : Z) : Env := mkEnv t "fresh".

End Sample.

(** The users and sockets of [Sample] with two conversations of ["A"]:
    ["c1"] with ["B"], holding one message ["m1"] of ["A"], and the more
    recently active ["c2"] with ["C"]. *)
Module MessageSample.

Definition hello : Messages.Message.t :=
  Messages.Message.mk "c1" "A" (Some "hello") (Some Messages.Text) None None
    (Some Messages.Sent) None None (Some 600).

Definition database : DB :=
  mkDB Sample.people
       (<["c1" := Conversation.mk Direct None None (Some "A") (Some 600)]>
          {["c2" := Conversation.mk Direct None None (Some "A") (Some 800)]})
       [Sample.member "c1" "A"; Sample.member "c1" "B";
        Sample.member "c2" "A"; Sample.member "c2" "C"]
       ∅ [].

(** All three users are connected. *)
Definition server : Server :=
  mkServer (<["A" := 1%nat]> (<["B" := 2%nat]> {["C" := 3%nat]}))
           (<[1%nat := OPEN]> (<[2%nat := OPEN]> {[3%nat := OPEN]}))
           database [].

Definition store : Messages.Store :=
  Messages.mkStore database {["m1" := hello]} {["c1" := "m1"]}.

Definition said (conversationId senderId : string) (at_ms : Z)
  : Messages.Message.t :=
  Messages.Message.mk conversationId senderId (Some "text")
    (Some Messages.Text) None None (Some Messages.Sent) None None (Some at_ms).

(** Three messages in ["c1"] and one in ["c2"]. *)
Definition history : Messages.Store :=
  Messages.mkStore database
    (<["m1" := hello]> (<["m2" := said "c1" "B" 700]>
       (<["m3" := said "c1" "A" 800]> {["m4" := said "c2" "C" 900]})))
    (<["c1" := "m3"]> {["c2" := "m4"]}).

Definition app : Messages.App :=
  Messages.mkApp (<["A" := 1%nat]> {["B" := 2%nat]})
                 (<[1%nat := OPEN]> {[2%nat := OPEN]})
                 store [].

End MessageSample.

(** Two direct conversations between ["A"] and ["B"] whose participant
    rows lie crosswise in the table, as they do after two creation
    requests that list both users were served at the same time, each
    inserting its rows between those of the other. *)
Module Crossed.

Definition database : DB :=
  mkDB Sample.people
       (<["d1" := Conversation.mk Direct None None (Some "A") (Some 10)]>
          {["d2" := Conversation.mk Direct None None (Some "B") (Some 10)]})
       [Sample.member "d1" "A"; Sample.member "d2" "B";
        Sample.member "d1" "B"; Sample.member "d2" "A"]
       ∅ [].

Definition server : Server :=
  mkServer (<["A" := 1%nat]> {["B" := 2%nat]})
           (<[1%nat := OPEN]> {[2%nat := OPEN]})
           database [].

End Crossed.

(** The open socket that the registry holds for a user id, if any: what
    [broadcastToUsers] writes to for that id. *)
Definition openSocket (st : Server) (userId : string) : option nat :=
  match clients st !! userId with
  | Some client =>
      if decide (sockets st !! client = Some OPEN) then Some client else None
  | None => None
  end.

(** *** Vocabulary of the further properties *)

(** The contact set of a user, as the two presence handlers compute it:
    from the conversations that [getUserConversations] gives. *)
Definition contactsOf (userId : string) (d : DB) : list string :=
  match (getUserConversations userId d).1 with
  | Returned conversations => contactIds userId conversations
  | Thrown _ => []
  end.

(** A user row after [updateUserStatus]. *)
Definition withStatus (env : Env) (status : UserStatus) (u : User.t) : User.t :=
  User.mk (User.username u) (Some status) (Some (now env)) (Some (now env)).

(** The foreign keys of the schema, on the tables of this development. *)
Definition foreignKeysHold (d : DB) : Prop :=
  Forall (λ p, is_Some (conversations d !! ConversationParticipant.conversationId p)
               ∧ is_Some (users d !! ConversationParticipant.userId p))
         (conversationParticipants d)
  ∧ Forall (λ p, is_Some (calls d !! CallParticipant.callId p)
                 ∧ is_Some (users d !! CallParticipant.userId p))
           (callParticipants d)
  ∧ map_Forall (λ _ c, is_Some (users d !! Call.initiatorId c)
                       ∧ ∀ conversationId,
                           Call.conversationId c = Some conversationId →
                           is_Some (conversations d !! conversationId))
               (calls d)
  ∧ map_Forall (λ _ c, ∀ creator, Conversation.createdById c = Some creator →
                                  is_Some (users d !! creator))
               (conversations d).

(** What a handler run may do to the sockets and the outbox: the sockets
    stay as they are, frames are only added, and each added frame is
    written to a socket that is [OPEN]. *)
Definition writesToOpenSockets (st st' : Server) : Prop :=
  sockets st' = sockets st
  ∧ ∃ sent, outbox st' = outbox st ++ sent
            ∧ Forall (λ frame, sockets st !! frame.1 = Some OPEN) sent.

(** Nothing is taken away from the stored calls: every call keeps its id,
    its conversation and its initiator, and the participant rows of
    before are still there, in place, for the same call and user. *)
Definition callsOnlyGrow (d d' : DB) : Prop :=
  (∀ callId c, calls d !! callId = Some c →
     ∃ c', calls d' !! callId = Some c'
           ∧ Call.conversationId c' = Call.conversationId c
           ∧ Call.initiatorId c' = Call.initiatorId c)
  ∧ ∀ i p, callParticipants d !! i = Some p →
      ∃ p', callParticipants d' !! i = Some p'
            ∧ CallParticipant.callId p' = CallParticipant.callId p
            ∧ CallParticipant.userId p' = CallParticipant.userId p.

(** The rows that a successful creation adds for a conversation: the
    creator's, then one for each listed id other than the creator's. *)
Definition creatorRow (env : Env) (data : InsertConversation) (creatorId : string)
  : ConversationParticipant.t :=
  ConversationParticipant.mk (uuid env) creatorId
    (Some (if decide (ic_type data = Some Group) then Owner else Member))
    (Some (now env)) (Some false) None.

Definition createdRows (env : Env) (data : InsertConversation)
    (participantIds : list string) (creatorId : string)
  : list ConversationParticipant.t :=
  creatorRow env data creatorId
  :: map (newMember env) (filter (λ p, p ≠ creatorId) participantIds).

Definition createdConversation (env : Env) (data : InsertConversation)
    (creatorId : string) : Conversation.t :=
  Conversation.mk (default Direct (ic_type data)) (ic_name data)
    (ic_description data) (Some creatorId) (Some (now env)).

(** The creation request does not find a direct conversation: it is not
    for type [direct] with exactly one listed id, or the lookup for the
    two users gives none. *)
Definition findsNoDirect (userId : string) (data : InsertConversation)
    (participantIds : list string) (d : DB) : Prop :=
  match ic_type data, participantIds with
  | Some Direct, [participantId] =>
      firstDirectPair d (commonIds userId participantId d) = None
  | _, _ => True
  end.

(** The database after a creation that got as far as the rows of [ids]. *)
Definition withNewConversation (env : Env) (data : InsertConversation)
    (ids : list string) (creatorId : string) (d : DB) : DB :=
  mkDB (users d)
       (<[uuid env := createdConversation env data creatorId]> (conversations d))
       (conversationParticipants d ++ createdRows env data ids creatorId)
       (calls d) (callParticipants d).

(* ===================================================================== *)
(** ** Facts *)
(* ===================================================================== *)

Lemma truthy_Some v s : truthy v = Some s ↔ v = Some s ∧ s ≠ "".
Proof.
  destruct v as [[|a t]|]; simpl; split; try (intros [??]); try intros ?;
    try congruence; simplify_eq; done.
Qed.

Lemma truthy_nonempty s : s ≠ "" → truthy (Some s) = Some s.
Proof. intros H. by apply truthy_Some. Qed.

Lemma filter_none {A} (P : A → Prop) `{∀ x, Decision (P x)} (l : list A) :
  Forall (λ x, ¬ P x) l → filter P l = [].
Proof.
  induction 1 as [|x l Hx _ IH]; [done|].
  by rewrite filter_cons_False.
Qed.

Section Broadcaster.

Lemma with_outbox_nil st : with_outbox (λ o, o ++ []) st = st.
Proof. destruct st; unfold with_outbox; simpl. by rewrite app_nil_r. Qed.

Lemma with_outbox_app st l1 l2 :
  with_outbox (λ o, o ++ l2) (with_outbox (λ o, o ++ l1) st)
  = with_outbox (λ o, o ++ (l1 ++ l2)) st.
Proof. destruct st; unfold with_outbox; simpl. by rewrite app_assoc. Qed.

(** A broadcast only appends frames: one for each recipient, in order. *)
Lemma broadcastToUsers_frames userIds ev st :
  broadcastToUsers userIds ev st
  = with_outbox (λ o, o ++ frames st userIds ev) st.
Proof.
  unfold broadcastToUsers, frames.
  revert st. induction userIds as [|u us IH]; intros st; simpl.
  - by rewrite with_outbox_nil.
  - rewrite IH. unfold recipients at 2. simpl.
    destruct (clients st !! u) as [c|] eqn:Hc; [|done].
    destruct (decide (sockets st !! c = Some OPEN)); [|done].
    unfold send. simpl. by rewrite with_outbox_app.
Qed.

Lemma broadcastToUsers_clients userIds ev st :
  clients (broadcastToUsers userIds ev st) = clients st.
Proof. by rewrite broadcastToUsers_frames. Qed.

Lemma broadcastToUsers_db userIds ev st :
  db (broadcastToUsers userIds ev st) = db st.
Proof. by rewrite broadcastToUsers_frames. Qed.

Lemma broadcastToUsers_sockets userIds ev st :
  sockets (broadcastToUsers userIds ev st) = sockets st.
Proof. by rewrite broadcastToUsers_frames. Qed.

Lemma broadcastToUsers_outbox userIds ev st :
  outbox (broadcastToUsers userIds ev st)
  = outbox st ++ frames st userIds ev.
Proof. by rewrite broadcastToUsers_frames. Qed.

(** [recipients] reads the registry and the sockets only. *)
Lemma recipients_ext st st' userIds :
  clients st' = clients st → sockets st' = sockets st →
  recipients st' userIds = recipients st userIds.
Proof. intros Hc Hs. unfold recipients. by rewrite Hc, Hs. Qed.

Lemma elem_of_recipients st userIds client :
  client ∈ recipients st userIds ↔
  ∃ userId, userId ∈ userIds ∧ clients st !! userId = Some client
            ∧ sockets st !! client = Some OPEN.
Proof.
  unfold recipients. rewrite list_elem_of_omap. split.
  - intros (u & Hu & H). exists u. split; [done|].
    destruct (clients st !! u) as [c|]; [|done].
    destruct (decide (sockets st !! c = Some OPEN)); [|done].
    by simplify_eq.
  - intros (u & Hu & Hc & Ho). exists u. split; [done|].
    rewrite Hc. by rewrite decide_True.
Qed.

(** A storage call touches the database only. *)
Lemma storage_run {A} (m : Eff DB A) st :
  storage m st = ((m (db st)).1, with_db (λ _, (m (db st)).2) st).
Proof. unfold storage. by destruct (m (db st)). Qed.

Lemma broadcastToConversation_run conversationId ev exclude st :
  broadcastToConversation conversationId ev exclude st
  = (Returned tt,
     with_outbox (λ o, o ++ frames st
       (filter (λ id, Some id ≠ exclude) (memberIds conversationId (db st))) ev)
       st).
Proof.
  unfold broadcastToConversation, bind, modify, getParticipants, gets.
  rewrite storage_run. simpl.
  rewrite broadcastToUsers_frames. unfold memberIds.
  destruct st; reflexivity.
Qed.

End Broadcaster.

Section Registry.

Lemma userOnline_clients env ws u st :
  u ≠ "" →
  clients (catch (userOnline env ws (Some u)) st) = <[u := ws]> (clients st).
Proof.
  intros Hu. unfold catch, userOnline. rewrite (truthy_nonempty _ Hu).
  unfold bind, modify. simpl. rewrite !storage_run. simpl.
  destruct (getUserConversations u _) as [[convs|e] d']; simpl; [|done].
  by rewrite broadcastToUsers_clients.
Qed.

Lemma onClose_clients env u st :
  u ≠ "" →
  clients (catch (onClose env (Some u)) st) = delete u (clients st).
Proof.
  intros Hu. unfold catch, onClose. rewrite (truthy_nonempty _ Hu).
  unfold bind, modify. simpl. rewrite !storage_run. simpl.
  destruct (getUserConversations u _) as [[convs|e] d']; simpl; [|done].
  by rewrite broadcastToUsers_clients.
Qed.

(** A frame on a connection without a user id, other than a binding
    [user-online], leaves the process as it is. *)
Lemma onMessage_unbound env ws userId m st :
  truthy userId = None → binds m = false →
  ∃ userId', onMessage env ws userId m st = (userId', st)
             ∧ truthy userId' = None.
Proof.
  intros Hu Hb. destruct m as [payloadUserId| | | | | | | | | |]; simpl in *.
  - exists payloadUserId. apply bool_decide_eq_false in Hb.
    assert (truthy payloadUserId = None) as Hn.
    { destruct (truthy payloadUserId); [|done]. exfalso. apply Hb. by eexists. }
    split; [|done]. unfold catch, userOnline. by rewrite Hn.
  - exists userId. unfold catch, typing. by rewrite Hu.
  - exists userId. unfold catch, startCall. by rewrite Hu.
  - exists userId. unfold catch, acceptCall. by rewrite Hu.
  - exists userId. unfold catch, declineCall. by rewrite Hu.
  - exists userId. unfold catch, endCall. by rewrite Hu.
  - exists userId. unfold catch, toggle. by rewrite Hu.
  - exists userId. unfold catch, relay. by rewrite Hu.
  - exists userId. unfold catch, relay. by rewrite Hu.
  - exists userId. unfold catch, relay. by rewrite Hu.
  - by exists userId.
Qed.

Lemma receive_unbound ws frames userId st :
  truthy userId = None → Forall (λ f, binds f.2 = false) frames →
  ∃ userId', receive ws userId frames st = (userId', st)
             ∧ truthy userId' = None.
Proof.
  revert userId. induction frames as [|[env m] rest IH]; intros userId Hu Hf.
  - by exists userId.
  - inversion Hf as [|? ? Hm Hrest]; subst. simpl in Hm.
    destruct (onMessage_unbound env ws userId m st Hu Hm) as (u' & Ho & Hu').
    simpl. rewrite Ho. by apply IH.
Qed.

End Registry.

(** C1. Registering a connection for a user id replaces the entry of that
    id: after [user-online] for [u] on socket [ws1] and then on socket
    [ws2], the registry maps [u] to [ws2] and to nothing else, it is the
    registry that a single registration of [ws2] gives (the entry for
    [ws1] is gone, the other entries are as they were), and a broadcast
    to [u] can only write to [ws2]. *)
Theorem register_twice_lookup_second env1 env2 ws1 ws2 uid1 uid2 u st :
  u ≠ "" →
  let st1 := (onMessage env1 ws1 uid1 (UserOnline (Some u)) st).2 in
  let st2 := (onMessage env2 ws2 uid2 (UserOnline (Some u)) st1).2 in
  clients st1 !! u = Some ws1
  ∧ clients st2 !! u = Some ws2
  ∧ (∀ ws, clients st2 !! u = Some ws → ws = ws2)
  ∧ clients st2 = <[u := ws2]> (clients st)
  ∧ (∀ ws, ws ∈ recipients st2 [u] → ws = ws2).
Proof.
  intros Hu st1 st2.
  assert (clients st1 = <[u := ws1]> (clients st)) as H1.
  { subst st1. simpl. by rewrite userOnline_clients. }
  assert (clients st2 = <[u := ws2]> (clients st)) as H2.
  { subst st2. simpl. by rewrite userOnline_clients, H1, insert_insert_eq. }
  rewrite H1, H2, !lookup_insert_eq.
  do 2 (split; [done|]). split; [congruence|]. split; [done|].
  intros ws (u' & Hu' & Hws & _)%elem_of_recipients.
  apply list_elem_of_singleton in Hu' as ->.
  rewrite H2, lookup_insert_eq in Hws. congruence.
Qed.

(** C2, as amended. Closing a connection bound to [u] removes the entry of
    [u] whatever socket it holds; the entries of the other ids stay. *)
Theorem close_removes_entry_unconditionally env ws u st :
  u ≠ "" →
  clients (transportClose env ws (Some u) st) = delete u (clients st)
  ∧ clients (transportClose env ws (Some u) st) !! u = None.
Proof.
  intros Hu. unfold transportClose. rewrite onClose_clients by done.
  simpl. split; [done|]. apply lookup_delete_eq.
Qed.

(** C10. A connection that closes without having been bound to a user id
    (no [user-online] frame with a non-empty id reached it) changed
    nothing while it was open, and its close listener changes nothing:
    the registry, the database and the outbox are those before the
    connection, and only the socket's own [readyState] moved. *)
Theorem close_before_binding_changes_nothing env ws frames st :
  Forall (λ f, binds f.2 = false) frames →
  let opened := (onConnection ws st).2 in
  let '(userId, st') := receive ws (onConnection ws st).1 frames opened in
  st' = opened
  ∧ catch (onClose env userId) st' = st'
  ∧ clients (transportClose env ws userId st') = clients st
  ∧ db (transportClose env ws userId st') = db st
  ∧ outbox (transportClose env ws userId st') = outbox st.
Proof.
  intros Hf. simpl.
  destruct (receive_unbound ws frames None (with_sockets <[ws:=OPEN]> st)
              eq_refl Hf) as (u' & Hr & Hu').
  rewrite Hr. unfold transportClose, catch, onClose. rewrite Hu'. by simpl.
Qed.

Section CallLifecycle.

Lemma filter_exclude_nobody (l : list string) (exclude : option string) :
  exclude = None → filter (λ id, Some id ≠ exclude) l = l.
Proof.
  intros ->. induction l as [|x l IH]; [done|].
  rewrite filter_cons_True by done. by rewrite IH.
Qed.

(** The accept handler on an existing call, for an existing user. *)
Lemma acceptCall_run env u cid c usr st :
  u ≠ "" → cid ≠ "" →
  calls (db st) !! cid = Some c →
  users (db st) !! u = Some usr →
  catch (acceptCall env (Some u) (Some cid)) st
  = mkServer (clients st) (sockets st)
      (mkDB (users (db st)) (conversations (db st))
         (conversationParticipants (db st))
         (<[cid := Call.mk (Call.conversationId c) (Call.initiatorId c)
                     (Call.type c) Active (Some (now env)) (Call.endedAt c)
                     (Call.duration c) (Call.createdAt c)]> (calls (db st)))
         (callParticipants (db st)
          ++ [CallParticipant.mk cid u (Some (now env)) None
                (Some false) (Some false) (Some false)]))
      (outbox st
       ++ match truthy (Call.conversationId c) with
          | Some conversationId =>
              frames st (memberIds conversationId (db st)) (CallAccepted cid u)
          | None => []
          end).
Proof.
  intros Hu Hcid Hc Husr. unfold catch, acceptCall.
  rewrite (truthy_nonempty _ Hu), (truthy_nonempty _ Hcid).
  unfold bind. rewrite storage_run. unfold getCall, gets. simpl.
  rewrite Hc. simpl. rewrite storage_run. unfold addCallParticipant. simpl.
  rewrite Hc, Husr. simpl. rewrite storage_run. unfold updateCall. simpl.
  rewrite Hc.
  destruct (truthy (Call.conversationId c)) as [conv|].
  - rewrite broadcastToConversation_run, filter_exclude_nobody by done.
    reflexivity.
  - simpl. by rewrite app_nil_r.
Qed.

(** Whole seconds: [callDuration] is the floor of the difference. *)
Lemma callDuration_floor endedAt startedAt :
  1000 * callDuration endedAt (Some startedAt) ≤ endedAt - startedAt
  < 1000 * callDuration endedAt (Some startedAt) + 1000.
Proof.
  unfold callDuration.
  pose proof (Z.div_mod (endedAt - startedAt) 1000 ltac:(lia)) as Hdm.
  pose proof (Z.mod_pos_bound (endedAt - startedAt) 1000 ltac:(lia)) as Hb.
  lia.
Qed.

(** The end handler on an existing call. *)
Lemma endCall_run env u cid c st :
  u ≠ "" → cid ≠ "" →
  calls (db st) !! cid = Some c →
  int4 (callDuration (now env) (Call.startedAt c)) = true →
  catch (endCall env (Some u) (Some cid)) st
  = mkServer (clients st) (sockets st)
      (mkDB (users (db st)) (conversations (db st))
         (conversationParticipants (db st))
         (<[cid := Call.mk (Call.conversationId c) (Call.initiatorId c)
                     (Call.type c) Ended (Call.startedAt c) (Some (now env))
                     (Some (callDuration (now env) (Call.startedAt c)))
                     (Call.createdAt c)]> (calls (db st)))
         (callParticipants (db st)))
      (outbox st
       ++ match truthy (Call.conversationId c) with
          | Some conversationId =>
              frames st (memberIds conversationId (db st))
                (CallEnded cid u (callDuration (now env) (Call.startedAt c)))
          | None => []
          end).
Proof.
  intros Hu Hcid Hc Hrange. unfold catch, endCall.
  rewrite (truthy_nonempty _ Hu), (truthy_nonempty _ Hcid).
  unfold bind. rewrite storage_run. unfold getCall, gets. simpl.
  rewrite Hc. simpl. rewrite storage_run. unfold updateCall. simpl.
  rewrite Hrange, Hc.
  destruct (truthy (Call.conversationId c)) as [conv|].
  - rewrite broadcastToConversation_run, filter_exclude_nobody by done.
    destruct st as [? ? []]; reflexivity.
  - simpl. rewrite app_nil_r. destruct st as [? ? []]; reflexivity.
Qed.

End CallLifecycle.

(** C3, as amended. The accept handler does not look at the status of the
    call. On a call whose status is [ended], an [accept-call] from an
    identified, existing user makes the call [active] again, overwrites
    [startedAt] with the current time, appends a participant row for the
    user and broadcasts [call-accepted] to the conversation of the call;
    [endedAt] and [duration] keep their values. *)
Theorem accept_after_ended_reactivates_call env ws u cid c usr st :
  u ≠ "" → cid ≠ "" →
  calls (db st) !! cid = Some c →
  users (db st) !! u = Some usr →
  Call.status c = Ended →
  let st' := (onMessage env ws (Some u) (AcceptCall (Some cid)) st).2 in
  ∃ c', calls (db st') !! cid = Some c'
    ∧ Call.status c' = Active
    ∧ Call.startedAt c' = Some (now env)
    ∧ Call.endedAt c' = Call.endedAt c
    ∧ Call.duration c' = Call.duration c
    ∧ length (callParticipants (db st'))
      = S (length (callParticipants (db st)))
    ∧ last (callParticipants (db st'))
      = Some (CallParticipant.mk cid u (Some (now env)) None
                (Some false) (Some false) (Some false))
    ∧ (∀ conversationId,
         Call.conversationId c = Some conversationId → conversationId ≠ "" →
         outbox st' = outbox st
           ++ frames st (memberIds conversationId (db st)) (CallAccepted cid u)).
Proof.
  intros Hu Hcid Hc Husr Hended st'. subst st'. simpl.
  rewrite (acceptCall_run env u cid c usr st Hu Hcid Hc Husr). simpl.
  eexists. rewrite lookup_insert_eq. split; [reflexivity|]. simpl.
  do 4 (split; [reflexivity|]).
  split; [rewrite length_app; simpl; lia|].
  split; [by rewrite last_snoc|].
  intros conv Hconv Hne. by rewrite Hconv, (truthy_nonempty _ Hne).
Qed.

(** C4, as amended. Accepting an existing call, by an identified, existing
    user, appends a participant row for that user, sets the status to
    [active] and sets [startedAt] to the current time whether or not it
    was set before; the other columns of the call and the other calls are
    unchanged. [call-accepted] is then sent to every connected participant
    of the conversation of the call, the accepting user included. *)
Theorem accept_call_effect env ws u cid c usr st :
  u ≠ "" → cid ≠ "" →
  calls (db st) !! cid = Some c →
  users (db st) !! u = Some usr →
  let st' := (onMessage env ws (Some u) (AcceptCall (Some cid)) st).2 in
  callParticipants (db st')
  = callParticipants (db st)
    ++ [CallParticipant.mk cid u (Some (now env)) None
          (Some false) (Some false) (Some false)]
  ∧ calls (db st')
    = <[cid := Call.mk (Call.conversationId c) (Call.initiatorId c)
                 (Call.type c) Active (Some (now env)) (Call.endedAt c)
                 (Call.duration c) (Call.createdAt c)]> (calls (db st))
  ∧ (∀ conversationId,
       Call.conversationId c = Some conversationId → conversationId ≠ "" →
       outbox st' = outbox st
         ++ frames st (memberIds conversationId (db st)) (CallAccepted cid u)).
Proof.
  intros Hu Hcid Hc Husr st'. subst st'. simpl.
  rewrite (acceptCall_run env u cid c usr st Hu Hcid Hc Husr). simpl.
  split; [reflexivity|]. split; [reflexivity|].
  intros conv Hconv Hne. by rewrite Hconv, (truthy_nonempty _ Hne).
Qed.

(** C5. Ending an existing call sets its status to [ended], its [endedAt]
    to the current time and its [duration] to the whole seconds between
    [startedAt] and [endedAt] (rounded down), or to 0 when [startedAt] is
    unset; [call-ended], with that duration and the id of the user who
    ended the call, is sent to the connected participants of the
    conversation of the call. The duration has to fit the [integer]
    column. *)
Theorem end_call_effect env ws u cid c st :
  u ≠ "" → cid ≠ "" →
  calls (db st) !! cid = Some c →
  int4 (callDuration (now env) (Call.startedAt c)) = true →
  let duration := callDuration (now env) (Call.startedAt c) in
  let st' := (onMessage env ws (Some u) (EndCall (Some cid)) st).2 in
  calls (db st')
  = <[cid := Call.mk (Call.conversationId c) (Call.initiatorId c)
               (Call.type c) Ended (Call.startedAt c) (Some (now env))
               (Some duration) (Call.createdAt c)]> (calls (db st))
  ∧ (Call.startedAt c = None → duration = 0)
  ∧ (∀ startedAt, Call.startedAt c = Some startedAt →
       1000 * duration ≤ now env - startedAt < 1000 * duration + 1000)
  ∧ callParticipants (db st') = callParticipants (db st)
  ∧ (∀ conversationId,
       Call.conversationId c = Some conversationId → conversationId ≠ "" →
       outbox st' = outbox st
         ++ frames st (memberIds conversationId (db st))
              (CallEnded cid u duration)).
Proof.
  intros Hu Hcid Hc Hrange duration st'. subst st' duration. simpl.
  rewrite (endCall_run env u cid c st Hu Hcid Hc Hrange). simpl.
  split; [reflexivity|]. split; [by intros ->|].
  split; [intros t ->; apply callDuration_floor|]. split; [reflexivity|].
  intros conv Hconv Hne. by rewrite Hconv, (truthy_nonempty _ Hne).
Qed.

Section MediaToggles.

Lemma mediaPatch_defined kind payload :
  payloadFlag kind payload ≠ FUndefined →
  isUndefined (m_isMuted (mediaPatch kind payload))
  && isUndefined (m_isVideoOff (mediaPatch kind payload))
  && isUndefined (m_isScreenSharing (mediaPatch kind payload)) = false.
Proof.
  destruct kind; simpl; destruct payload as [? [] [] []]; simpl; done.
Qed.

(** The patch of a toggle moves the flag of its kind and no other. *)
Lemma applyMediaPatch_flag kind payload p k :
  flagOf k (applyMediaPatch (mediaPatch kind payload) p)
  = if decide (k = kind)
    then flagValue (payloadFlag kind payload) (flagOf kind p)
    else flagOf k p.
Proof. destruct kind, k; simpl; done. Qed.

(** The toggle handler writes the participant table only, row by row. *)
Lemma toggle_db u kind payload cid st :
  u ≠ "" → t_callId payload = Some cid → cid ≠ "" →
  payloadFlag kind payload ≠ FUndefined →
  db (catch (toggle (Some u) kind payload) st)
  = with_callParticipants (map (λ p,
      if decide (CallParticipant.callId p = cid ∧ CallParticipant.userId p = u)
      then applyMediaPatch (mediaPatch kind payload) p
      else p)) (db st).
Proof.
  intros Hu Hp Hcid Hdef. unfold catch, toggle.
  rewrite Hp, (truthy_nonempty _ Hu), (truthy_nonempty _ Hcid).
  unfold bind. rewrite storage_run. unfold updateCallParticipant.
  rewrite (mediaPatch_defined _ _ Hdef). unfold modify at 1. simpl.
  destruct (calls (db st) !! cid) as [c|]; simpl; [|done].
  destruct (truthy (Call.conversationId c)) as [conv|]; [|done].
  by rewrite broadcastToConversation_run.
Qed.

End MediaToggles.

(** C7. A media toggle from an identified user that names a call and
    carries the flag of its type rewrites the participant table row by
    row and nothing else: on the rows of that user in that call the flag
    of the toggle type becomes the value of the payload ([true], [false],
    or null for a null) and the two other flags keep theirs, whatever
    the payload says about them; every other row, every other column and
    every other table is as before. *)
Theorem toggle_updates_exactly_one_flag env ws u kind payload cid st :
  u ≠ "" → t_callId payload = Some cid → cid ≠ "" →
  payloadFlag kind payload ≠ FUndefined →
  let st' := (onMessage env ws (Some u) (Toggle kind payload) st).2 in
  let sent := match payloadFlag kind payload with
              | FBool b => Some b
              | FNull | FUndefined => None
              end in
  length (callParticipants (db st')) = length (callParticipants (db st))
  ∧ users (db st') = users (db st)
  ∧ conversations (db st') = conversations (db st)
  ∧ conversationParticipants (db st') = conversationParticipants (db st)
  ∧ calls (db st') = calls (db st)
  ∧ ∀ i p, callParticipants (db st) !! i = Some p →
      ∃ p', callParticipants (db st') !! i = Some p'
        ∧ CallParticipant.callId p' = CallParticipant.callId p
        ∧ CallParticipant.userId p' = CallParticipant.userId p
        ∧ CallParticipant.joinedAt p' = CallParticipant.joinedAt p
        ∧ CallParticipant.leftAt p' = CallParticipant.leftAt p
        ∧ (∀ k, k ≠ kind → flagOf k p' = flagOf k p)
        ∧ (CallParticipant.callId p = cid ∧ CallParticipant.userId p = u →
           flagOf kind p' = sent)
        ∧ (¬ (CallParticipant.callId p = cid ∧ CallParticipant.userId p = u) →
           p' = p).
Proof.
  intros Hu Hp Hcid Hdef st' sent. subst st' sent. simpl.
  rewrite (toggle_db u kind payload cid st Hu Hp Hcid Hdef). simpl.
  split; [by rewrite length_map|]. do 4 (split; [done|]).
  intros i p Hi. rewrite list_lookup_fmap, Hi. simpl.
  eexists. split; [reflexivity|].
  destruct (decide (CallParticipant.callId p = cid
                    ∧ CallParticipant.userId p = u)) as [Hown|Hother].
  - do 4 (split; [reflexivity|]).
    split.
    + intros k Hk. rewrite applyMediaPatch_flag. by rewrite decide_False.
    + split; [|done]. intros _. rewrite applyMediaPatch_flag.
      rewrite decide_True by done.
      by destruct (payloadFlag kind payload).
  - do 5 (split; [done|]). split; [|done]. intros H. by destruct Hother.
Qed.

Section Typing.

(** Rewriting rows without touching their conversation and user columns
    does not change the members of any conversation. *)
Lemma memberIds_map_rows conversationId d
    (f : ConversationParticipant.t → ConversationParticipant.t) :
  (∀ p, ConversationParticipant.conversationId (f p)
        = ConversationParticipant.conversationId p) →
  (∀ p, ConversationParticipant.userId (f p)
        = ConversationParticipant.userId p) →
  memberIds conversationId (with_conversationParticipants (map f) d)
  = memberIds conversationId d.
Proof.
  intros Hconv Huser. unfold memberIds, participantsOf, joinUsers. simpl.
  induction (conversationParticipants d) as [|p rows IH]; [done|].
  simpl. rewrite !filter_cons, Hconv.
  destruct (decide (ConversationParticipant.conversationId p = conversationId));
    [|done].
  simpl. rewrite Huser.
  destruct (users d !! ConversationParticipant.userId p); simpl;
    [f_equal; [apply Huser|]|]; exact IH.
Qed.

Lemma typing_run env u conv isTyping st :
  u ≠ "" → conv ≠ "" →
  outbox (catch (typing env (Some u) (Some conv) isTyping) st)
  = outbox st
    ++ frames st (filter (λ id, Some id ≠ Some u) (memberIds conv (db st)))
         (TypingStatus conv u isTyping).
Proof.
  intros Hu Hconv. unfold catch, typing.
  rewrite (truthy_nonempty _ Hu), (truthy_nonempty _ Hconv).
  unfold bind. rewrite storage_run. unfold updateTypingStatus, modify at 1.
  cbv beta iota. rewrite broadcastToConversation_run. simpl.
  rewrite memberIds_map_rows; [done| |]; intros p; by case_decide.
Qed.

End Typing.

Lemma recipients_openSocket st userIds :
  recipients st userIds = omap (openSocket st) userIds.
Proof. done. Qed.

Lemma joinUsers_cons d p rows :
  joinUsers d (p :: rows)
  = match users d !! ConversationParticipant.userId p with
    | Some user =>
        (p, (ConversationParticipant.userId p, user)) :: joinUsers d rows
    | None => joinUsers d rows
    end.
Proof. unfold joinUsers. simpl. by destruct (users d !! _). Qed.

Lemma omap_cons_match {A B} (f : A → option B) (x : A) (l : list A) :
  omap f (x :: l)
  = match f x with Some y => y :: omap f l | None => omap f l end.
Proof. done. Qed.

(** The sockets of a broadcast to a conversation that leaves out [u], read
    off the participant table: one for each row of the conversation whose
    user is stored, is not [u] and has an open registered socket. *)
Lemma sockets_of_others st d conv u ev rows :
  (frames st
     (filter (λ id, Some id ≠ Some u)
        (map (λ p : ConversationParticipant.t * Row User.t,
                ConversationParticipant.userId p.1)
           (joinUsers d
              (filter (λ p, ConversationParticipant.conversationId p = conv)
                      rows))))
     ev).*1
  = omap (λ p,
            if decide (ConversationParticipant.conversationId p = conv
                       ∧ ConversationParticipant.userId p ≠ u
                       ∧ is_Some (users d !! ConversationParticipant.userId p))
            then openSocket st (ConversationParticipant.userId p)
            else None)
         rows.
Proof.
  unfold frames. rewrite <- list_fmap_compose.
  rewrite (list_fmap_ext _ Datatypes.id) by done. rewrite list_fmap_id.
  rewrite recipients_openSocket.
  induction rows as [|p rows IH]; [done|].
  rewrite (omap_cons_match _ p rows).
  destruct (decide (ConversationParticipant.conversationId p = conv)) as [Hc|Hc].
  - rewrite filter_cons_True by done. rewrite joinUsers_cons.
    destruct (users d !! ConversationParticipant.userId p) as [usr|] eqn:Husr.
    + cbn [map fst].
      destruct (decide (ConversationParticipant.userId p = u)) as [Hu|Hu].
      * rewrite filter_cons_False by (intros H; apply H; by rewrite Hu).
        rewrite decide_False by (intros (_ & H & _); done). apply IH.
      * rewrite filter_cons_True by congruence.
        rewrite decide_True by (split; [done|split; [done|by eexists]]).
        rewrite omap_cons_match.
        destruct (openSocket st (ConversationParticipant.userId p));
          by rewrite IH.
    + rewrite decide_False by (intros (_ & _ & [? ?]); done). apply IH.
  - rewrite filter_cons_False by done.
    rewrite decide_False by (intros (H & _); done). apply IH.
Qed.

Lemma elem_of_sockets_of_others st d conv u
    (rows : list ConversationParticipant.t) sock :
  sock ∈ omap (λ p,
                 if decide (ConversationParticipant.conversationId p = conv
                            ∧ ConversationParticipant.userId p ≠ u
                            ∧ is_Some (users d
                                         !! ConversationParticipant.userId p))
                 then openSocket st (ConversationParticipant.userId p)
                 else None)
              rows
  ↔ ∃ p, p ∈ rows
         ∧ ConversationParticipant.conversationId p = conv
         ∧ ConversationParticipant.userId p ≠ u
         ∧ is_Some (users d !! ConversationParticipant.userId p)
         ∧ clients st !! ConversationParticipant.userId p = Some sock
         ∧ sockets st !! sock = Some OPEN.
Proof.
  rewrite list_elem_of_omap. unfold openSocket. split.
  - intros (p & Hp & Hsock). exists p. split; [done|].
    case_decide as Hrow; [|done]. destruct Hrow as (Hc & Hu & Husr).
    destruct (clients st !! ConversationParticipant.userId p) as [c|]; [|done].
    case_decide; [|done]. by injection Hsock as ->.
  - intros (p & Hp & Hc & Hu & Husr & Hclient & Hopen). exists p.
    split; [done|]. rewrite decide_True by done. rewrite Hclient.
    by rewrite decide_True.
Qed.

(** A broadcast to a conversation that leaves out [u], in terms of the
    participant table. *)
Lemma frames_to_others st conv u ev :
  let sent := frames st (filter (λ id, Some id ≠ Some u)
                           (memberIds conv (db st))) ev in
  (∀ frame, frame ∈ sent → frame.2 = ev)
  ∧ sent.*1
    = omap (λ p,
              if decide (ConversationParticipant.conversationId p = conv
                         ∧ ConversationParticipant.userId p ≠ u
                         ∧ is_Some (users (db st)
                                      !! ConversationParticipant.userId p))
              then openSocket st (ConversationParticipant.userId p)
              else None)
           (conversationParticipants (db st))
  ∧ ∀ sock, sock ∈ sent.*1 ↔
      ∃ p, p ∈ conversationParticipants (db st)
           ∧ ConversationParticipant.conversationId p = conv
           ∧ ConversationParticipant.userId p ≠ u
           ∧ is_Some (users (db st) !! ConversationParticipant.userId p)
           ∧ clients st !! ConversationParticipant.userId p = Some sock
           ∧ sockets st !! sock = Some OPEN.
Proof.
  intros sent. subst sent. split.
  { intros frame Hin. unfold frames in Hin.
    apply list_elem_of_fmap in Hin as (c & -> & _). done. }
  unfold memberIds, participantsOf. rewrite sockets_of_others.
  split; [reflexivity|]. intros sock. apply elem_of_sockets_of_others.
Qed.

(** C8. A [typing] frame from an identified user [u] for conversation
    [conv] adds to the outbox [typing-status] frames with the
    conversation, [u] and the flag, and nothing else: one frame for each
    participant row of [conv] in the table whose user is stored, is not
    [u] and has an open registered socket, written to that socket, in the
    order of the rows. So a socket gets the event exactly when it is the
    open registered socket of a participant of [conv] other than [u]; no
    frame is written for the rows of [u] or of other conversations, and
    the socket of the sender gets one only if it is also registered for
    another participant. *)
Theorem typing_reaches_exactly_the_other_members env ws u conv isTyping st :
  u ≠ "" → conv ≠ "" →
  let st' := (onMessage env ws (Some u) (Typing (Some conv) isTyping) st).2 in
  let ev := TypingStatus conv u isTyping in
  let rows := conversationParticipants (db st) in
  ∃ sent,
    outbox st' = outbox st ++ sent
    ∧ (∀ frame, frame ∈ sent → frame.2 = ev)
    ∧ sent.*1
      = omap (λ p,
                if decide (ConversationParticipant.conversationId p = conv
                           ∧ ConversationParticipant.userId p ≠ u
                           ∧ is_Some (users (db st)
                                        !! ConversationParticipant.userId p))
                then openSocket st (ConversationParticipant.userId p)
                else None)
             rows
    ∧ (∀ sock, sock ∈ sent.*1 ↔
         ∃ p, p ∈ rows
              ∧ ConversationParticipant.conversationId p = conv
              ∧ ConversationParticipant.userId p ≠ u
              ∧ is_Some (users (db st) !! ConversationParticipant.userId p)
              ∧ clients st !! ConversationParticipant.userId p = Some sock
              ∧ sockets st !! sock = Some OPEN)
    ∧ ((∀ other, other ≠ u → clients st !! other ≠ Some ws) →
       ws ∉ sent.*1).
Proof.
  intros Hu Hconv st' ev rows. subst st' rows. simpl.
  rewrite (typing_run env u conv isTyping st Hu Hconv). fold ev.
  eexists. split; [reflexivity|].
  assert (∀ ids (frame : nat * Event), frame ∈ frames st ids ev → frame.2 = ev)
    as Hev.
  { intros ids frame Hin. unfold frames in Hin.
    apply list_elem_of_fmap in Hin as (c & -> & _). done. }
  split; [apply Hev|].
  unfold memberIds at 1 2 3, participantsOf. rewrite sockets_of_others.
  split; [reflexivity|]. split.
  - intros sock. apply elem_of_sockets_of_others.
  - intros Honly Hin.
    apply elem_of_sockets_of_others in Hin as (p & _ & _ & Hne & _ & Hc & _).
    by apply (Honly _ Hne).
Qed.

Section StartCall.

#[local] Opaque broadcastToConversation.

(** [POST /api/calls] on an existing user and conversation, with a new id. *)
Lemma postCalls_run env u conv type usr cv st :
  users (db st) !! u = Some usr →
  conversations (db st) !! conv = Some cv →
  calls (db st) !! uuid env = None →
  let call := (uuid env,
               Call.mk (Some conv) u (default Voice type) Initiated
                 None None None (Some (now env))) in
  postCalls env u (Some conv) type st
  = (Json 201 call,
     mkServer (clients st) (sockets st)
       (mkDB (users (db st)) (conversations (db st))
          (conversationParticipants (db st))
          (<[uuid env := call.2]> (calls (db st)))
          (callParticipants (db st)
           ++ [CallParticipant.mk (uuid env) u (Some (now env)) None
                 (Some false) (Some false) (Some false)]))
       (outbox st
        ++ frames st (filter (λ id, Some id ≠ Some u) (memberIds conv (db st)))
             (IncomingCall call (Some (u, usr))))).
Proof.
  intros Husr Hcv Hfresh call. subst call.
  unfold postCalls, respond.
  unfold bind, storage, createCall, addCallParticipant, getUser, gets. simpl.
  rewrite Hfresh, Husr, Hcv.
  rewrite bool_decide_eq_true_2 by (by eexists). simpl.
  rewrite lookup_insert_eq, Husr. simpl.
  rewrite broadcastToConversation_run. simpl. rewrite Husr. reflexivity.
Qed.

(** The two handlers run the same statements on the same inputs. *)
Lemma startCall_same_state env u conv type st :
  u ≠ "" → conv ≠ "" →
  (postCalls env u (Some conv) type st).2
  = catch (startCall env (Some u) (Some conv) type) st.
Proof.
  intros Hu Hconv. unfold postCalls, respond, catch, startCall.
  rewrite (truthy_nonempty _ Hu), (truthy_nonempty _ Hconv).
  unfold bind.
  destruct (storage (createCall env _) st) as [[call|e] s1]; [|done].
  destruct (storage (addCallParticipant env _ u) s1) as [[p|e] s2]; [|done].
  destruct (storage (getUser u) s2) as [[initiator|e] s3]; [|done].
  by rewrite broadcastToConversation_run.
Qed.

End StartCall.

(** C6. For a request that names a conversation, made by (HTTP) or in the
    name of (live connection) the same user, [POST /api/calls] and the
    [start-call] frame leave the process in the same state: the same
    database, the same registry and the same outbox. When the user and
    the conversation exist and the generated id is new, that state has
    one more call, with status [initiated], whose only participant row is
    the initiator's, and the outbox has one more [incoming-call] frame for
    each participant row of the conversation whose user is stored, is not
    the initiator and has an open registered socket, written to that
    socket; the HTTP caller is answered 201 with the call. *)
Theorem start_call_http_and_live_agree env ws u conv type st :
  u ≠ "" → conv ≠ "" →
  let http := postCalls env u (Some conv) type st in
  let live := onMessage env ws (Some u) (StartCall (Some conv) type) st in
  http.2 = live.2
  ∧ ∀ usr cv,
      users (db st) !! u = Some usr →
      conversations (db st) !! conv = Some cv →
      calls (db st) !! uuid env = None →
      Forall (λ p, CallParticipant.callId p ≠ uuid env)
             (callParticipants (db st)) →
      let call := (uuid env,
                   Call.mk (Some conv) u (default Voice type) Initiated
                     None None None (Some (now env))) in
      let initiator := CallParticipant.mk (uuid env) u (Some (now env)) None
                         (Some false) (Some false) (Some false) in
      http.1 = Json 201 call
      ∧ users (db live.2) = users (db st)
      ∧ conversations (db live.2) = conversations (db st)
      ∧ conversationParticipants (db live.2) = conversationParticipants (db st)
      ∧ calls (db live.2) = <[uuid env := call.2]> (calls (db st))
      ∧ callParticipants (db live.2) = callParticipants (db st) ++ [initiator]
      ∧ filter (λ p, CallParticipant.callId p = uuid env)
               (callParticipants (db live.2)) = [initiator]
      ∧ ∃ sent,
          outbox live.2 = outbox st ++ sent
          ∧ (∀ frame, frame ∈ sent →
               frame.2 = IncomingCall call (Some (u, usr)))
          ∧ sent.*1
            = omap (λ p,
                      if decide
                           (ConversationParticipant.conversationId p = conv
                            ∧ ConversationParticipant.userId p ≠ u
                            ∧ is_Some (users (db st)
                                         !! ConversationParticipant.userId p))
                      then openSocket st (ConversationParticipant.userId p)
                      else None)
                   (conversationParticipants (db st))
          ∧ ∀ sock, sock ∈ sent.*1 ↔
              ∃ p, p ∈ conversationParticipants (db st)
                   ∧ ConversationParticipant.conversationId p = conv
                   ∧ ConversationParticipant.userId p ≠ u
                   ∧ is_Some (users (db st)
                                !! ConversationParticipant.userId p)
                   ∧ clients st !! ConversationParticipant.userId p = Some sock
                   ∧ sockets st !! sock = Some OPEN.
Proof.
  intros Hu Hconv http live.
  assert (http.2 = live.2) as Hsame.
  { subst http live. simpl. by apply startCall_same_state. }
  split; [done|].
  intros usr cv Husr Hcv Hfresh Hrows call initiator.
  rewrite <- Hsame. subst http.
  rewrite (postCalls_run env u conv type usr cv st Husr Hcv Hfresh). simpl.
  do 6 (split; [reflexivity|]). split.
  - rewrite filter_app, filter_cons_True, filter_nil by done.
    by rewrite filter_none.
  - eexists. split; [reflexivity|].
    apply (frames_to_others st conv u (IncomingCall call (Some (u, usr)))).
Qed.

Section DirectConversations.

Lemma elem_of_conversationsOf c u d :
  c ∈ conversationsOf u d ↔
  ∃ p, p ∈ conversationParticipants d
       ∧ ConversationParticipant.userId p = u
       ∧ ConversationParticipant.conversationId p = c.
Proof.
  unfold conversationsOf. rewrite list_elem_of_fmap. split.
  - intros (p & -> & Hp). apply list_elem_of_filter in Hp as [Hu Hp].
    by exists p.
  - intros (p & Hp & Hu & Hc). exists p. split; [done|].
    by apply list_elem_of_filter.
Qed.

Lemma elem_of_directPairs c u1 u2 d :
  c ∈ directPairs u1 u2 d ↔
  c ∈ conversationsOf u1 d ∧ c ∈ conversationsOf u2 d
  ∧ isDirectPair d c = true.
Proof.
  unfold directPairs, commonIds. rewrite !list_elem_of_filter. tauto.
Qed.

(** Which conversations are direct pairs of two users does not depend on
    the order of the two users. *)
Lemma directPairs_symmetric c u1 u2 d :
  c ∈ directPairs u1 u2 d ↔ c ∈ directPairs u2 u1 d.
Proof. rewrite !elem_of_directPairs. tauto. Qed.

(** The loop returns the first id that passes the test. *)
Lemma firstDirectPair_head d ids :
  firstDirectPair d ids
  = match filter (λ c, isDirectPair d c = true) ids with
    | [] => None
    | c :: _ => (λ conv, (c, conv)) <$> conversations d !! c
    end.
Proof.
  induction ids as [|c ids IH]; [done|].
  rewrite filter_cons. simpl.
  destruct (decide (isDirectPair d c = true)) as [Hp|Hp];
    unfold isDirectPair in Hp;
    destruct (conversations d !! c) as [conv|] eqn:Hc; try done.
  - apply andb_true_iff in Hp as [Ht%bool_decide_eq_true Hl%bool_decide_eq_true].
    by rewrite !decide_True by done.
  - destruct (decide (Conversation.type conv = Direct)) as [Ht|Ht]; [|done].
    destruct (decide (length (participantsOf c d) = 2%nat)) as [Hl|Hl]; [|done].
    exfalso. apply Hp.
    by rewrite (bool_decide_eq_true_2 _ Ht), (bool_decide_eq_true_2 _ Hl).
Qed.

Lemma isDirectPair_exists d c :
  isDirectPair d c = true → is_Some (conversations d !! c).
Proof.
  unfold isDirectPair. destruct (conversations d !! c); [by eexists|done].
Qed.

(** [findDirectConversation] answers with a direct pair of the two users,
    and it answers whenever there is one. *)
Lemma findDirect_Some u1 u2 d r :
  firstDirectPair d (commonIds u1 u2 d) = Some r →
  id r ∈ directPairs u1 u2 d ∧ conversations d !! id r = Some r.2.
Proof.
  rewrite firstDirectPair_head. fold (directPairs u1 u2 d).
  destruct (directPairs u1 u2 d) as [|c rest] eqn:Hd; [done|].
  destruct (conversations d !! c) as [conv|] eqn:Hc; [|done].
  simpl. intros [= <-]. simpl. split; [|done]. unfold id. simpl.
  apply list_elem_of_here.
Qed.

Lemma findDirect_None u1 u2 d :
  firstDirectPair d (commonIds u1 u2 d) = None → directPairs u1 u2 d = [].
Proof.
  rewrite firstDirectPair_head. fold (directPairs u1 u2 d).
  destruct (directPairs u1 u2 d) as [|c rest] eqn:Hd; [done|].
  assert (c ∈ directPairs u1 u2 d) as Hin by (rewrite Hd; apply list_elem_of_here).
  apply elem_of_directPairs in Hin as (_ & _ & Hp).
  destruct (isDirectPair_exists d c Hp) as [conv ->]. done.
Qed.

(** When one conversation is the only direct pair of two users, the
    lookup finds it, whichever user is named first. *)
Lemma findDirect_only u1 u2 d c :
  c ∈ directPairs u1 u2 d →
  (∀ c', c' ∈ directPairs u1 u2 d → c' = c) →
  ∃ conv, conversations d !! c = Some conv
          ∧ firstDirectPair d (commonIds u1 u2 d) = Some (c, conv)
          ∧ firstDirectPair d (commonIds u2 u1 d) = Some (c, conv).
Proof.
  intros Hin Honly.
  assert (∀ v1 v2, (∀ c', c' ∈ directPairs v1 v2 d ↔ c' ∈ directPairs u1 u2 d) →
            ∀ conv, conversations d !! c = Some conv →
            firstDirectPair d (commonIds v1 v2 d) = Some (c, conv)) as Hfind.
  { intros v1 v2 Hsame conv Hconv.
    destruct (firstDirectPair d (commonIds v1 v2 d)) as [[c' conv']|] eqn:Hf.
    - apply findDirect_Some in Hf as [Hc' Hl]. unfold id in *. simpl in *.
      apply Hsame, Honly in Hc'. subst c'. rewrite Hconv in Hl.
      by injection Hl as ->.
    - apply findDirect_None in Hf. apply Hsame in Hin. rewrite Hf in Hin.
      by apply elem_of_nil in Hin. }
  pose proof (proj1 (elem_of_directPairs _ _ _ _) Hin) as (_ & _ & Hp).
  destruct (isDirectPair_exists d c Hp) as [conv Hconv].
  exists conv. split; [done|]. split.
  - by apply Hfind.
  - apply Hfind; [|done]. intros c'. apply directPairs_symmetric.
Qed.

End DirectConversations.

Section CreateDirect.

Context (env : Env) (data : InsertConversation) (A B : string) (d : DB).
Context (Hdirect : ic_type data = Some Direct).
Context (HAB : A ≠ B).
Context (Hfresh : conversations d !! uuid env = None).
Context (Hunused : Forall (λ p, ConversationParticipant.conversationId p ≠ uuid env)
                          (conversationParticipants d)).

#[local] Abbreviation row := (newDirect env data A).
#[local] Abbreviation rowA := (newMember env A).
#[local] Abbreviation rowB := (newMember env B).
#[local] Abbreviation created := (withNewDirect env data A B d).

Lemma createConversation_run :
  is_Some (users d !! A) → is_Some (users d !! B) →
  createConversation env data [B] A d = (Returned (uuid env, row), created).
Proof.
  intros [usrA HA] [usrB HB].
  unfold createConversation, bind, addParticipant, forEach. simpl.
  rewrite Hfresh, HA, Hdirect. simpl.
  rewrite lookup_insert_eq, HA. simpl.
  rewrite decide_True by (by intros ->). unfold bind. simpl.
  rewrite lookup_insert_eq, HB. simpl.
  unfold withNewDirect, with_conversationParticipants, with_conversations.
  simpl. by rewrite <- app_assoc.
Qed.

Lemma participantsOf_created_new :
  participantsOf (uuid env) created = [rowA; rowB].
Proof.
  unfold participantsOf, withNewDirect. simpl.
  rewrite filter_app, filter_none.
  - simpl. by rewrite !filter_cons_True, filter_nil by done.
  - eapply Forall_impl; [exact Hunused|]. by intros p Hp.
Qed.

Lemma participantsOf_created_old c :
  c ≠ uuid env → participantsOf c created = participantsOf c d.
Proof.
  intros Hc. unfold participantsOf, withNewDirect. simpl.
  rewrite filter_app, (filter_none _ [rowA; rowB]), app_nil_r; [done|].
  repeat constructor; simpl; congruence.
Qed.

Lemma isDirectPair_created_old c :
  c ≠ uuid env → isDirectPair created c = isDirectPair d c.
Proof.
  intros Hc. unfold isDirectPair.
  rewrite (participantsOf_created_old c Hc). unfold withNewDirect at 1. simpl.
  by rewrite lookup_insert_ne.
Qed.

Lemma conversationsOf_created c u :
  c ∈ conversationsOf u created ↔
  c ∈ conversationsOf u d ∨ (c = uuid env ∧ (u = A ∨ u = B)).
Proof.
  rewrite !elem_of_conversationsOf. unfold withNewDirect. simpl. split.
  - intros (p & Hp & Hu & Hc). apply elem_of_app in Hp as [Hp|Hp].
    + left. by exists p.
    + right. apply elem_of_cons in Hp as [->|Hp]; [simpl in *; auto|].
      apply elem_of_cons in Hp as [->|Hp]; [simpl in *; auto|].
      by apply elem_of_nil in Hp.
  - intros [(p & Hp & Hu & Hc)|[-> [->| ->]]].
    + exists p. split; [|done]. apply elem_of_app. by left.
    + exists rowA. split; [|done]. apply elem_of_app. right.
      apply list_elem_of_here.
    + exists rowB. split; [|done]. apply elem_of_app. right.
      apply list_elem_of_further, list_elem_of_here.
Qed.

(** After the creation the new conversation is the only direct pair of
    the two users, in either order, if they had none before. *)
Lemma directPairs_created X Y c :
  (X = A ∧ Y = B) ∨ (X = B ∧ Y = A) →
  directPairs A B d = [] →
  c ∈ directPairs X Y created ↔ c = uuid env.
Proof.
  intros HXY Hnone. rewrite elem_of_directPairs, !conversationsOf_created.
  split.
  - intros (HX & HY & Hp).
    destruct (decide (c = uuid env)) as [|Hc]; [done|]. exfalso.
    rewrite (isDirectPair_created_old c Hc) in Hp.
    destruct HX as [HX|[? _]]; [|done]. destruct HY as [HY|[? _]]; [|done].
    assert (c ∈ directPairs A B d) as Hin.
    { destruct HXY as [[-> ->]|[-> ->]]; by apply elem_of_directPairs. }
    rewrite Hnone in Hin. by apply elem_of_nil in Hin.
  - intros ->. split; [|split].
    + right. split; [done|]. destruct HXY as [[-> _]|[-> _]]; auto.
    + right. split; [done|]. destruct HXY as [[_ ->]|[_ ->]]; auto.
    + unfold isDirectPair. rewrite participantsOf_created_new.
      unfold withNewDirect. simpl. by rewrite lookup_insert_eq.
Qed.

End CreateDirect.

Section PostConversations.

#[local] Opaque broadcastToUsers.

(** The request finds a direct conversation: it answers with it and
    writes nothing. *)
Lemma postConversations_existing env X Y data st c conv :
  ic_type data = Some Direct →
  firstDirectPair (db st) (commonIds X Y (db st)) = Some (c, conv) →
  conversations (db st) !! c = Some conv →
  postConversations env X data [Y] st
  = (Json 200 (Some (mkDetails (c, conv)
                       (joinUsers (db st) (participantsOf c (db st))))),
     st).
Proof.
  intros Hdirect Hfind Hconv. unfold postConversations, respond.
  rewrite Hdirect. unfold bind, storage, findDirectConversation, gets. simpl.
  rewrite Hfind. simpl.
  unfold getConversationWithDetails, getConversation, getParticipants, bind, gets.
  simpl. rewrite Hconv. simpl. by destruct st as [? ? []].
Qed.

(** The request finds none: it creates one under the generated id. *)
Lemma postConversations_new env A B data st :
  ic_type data = Some Direct → A ≠ B →
  is_Some (users (db st) !! A) → is_Some (users (db st) !! B) →
  conversations (db st) !! uuid env = None →
  firstDirectPair (db st) (commonIds A B (db st)) = None →
  responseId (postConversations env A data [B] st).1 = Some (uuid env)
  ∧ db (postConversations env A data [B] st).2
    = withNewDirect env data A B (db st).
Proof.
  intros Hdirect HAB HA HB Hfresh Hfind. unfold postConversations, respond.
  rewrite Hdirect. unfold bind, storage, findDirectConversation, gets. simpl.
  rewrite Hfind. simpl.
  rewrite (createConversation_run env data A B (db st) Hdirect HAB Hfresh HA HB).
  simpl.
  unfold getConversationWithDetails, getConversation, getParticipants, bind, gets.
  simpl. rewrite lookup_insert_eq. simpl.
  unfold modify. simpl. by rewrite broadcastToUsers_db.
Qed.

End PostConversations.

Lemma at_most_one_elem {A} (l : list A) x y :
  (length l ≤ 1)%nat → x ∈ l → y ∈ l → x = y.
Proof.
  destruct l as [|a [|b l]]; simpl; intros Hl Hx Hy; [| |lia].
  - by apply elem_of_nil in Hx.
  - apply list_elem_of_singleton in Hx, Hy. congruence.
Qed.

(** C9. Two existing, different users [A] and [B] with at most one direct
    conversation between them: [A] asks for a direct conversation with
    [B], and then either user asks for one with the other. Both requests
    are answered with the same conversation id, the second request
    changes nothing (no conversation or row is inserted, nothing is
    sent), and after the first request [findDirectConversation] gives
    that conversation for the two users in either order. *)
Theorem direct_conversation_created_once env1 env2 A B data1 data2 st :
  A ≠ B →
  ic_type data1 = Some Direct → ic_type data2 = Some Direct →
  is_Some (users (db st) !! A) → is_Some (users (db st) !! B) →
  conversations (db st) !! uuid env1 = None →
  Forall (λ p, ConversationParticipant.conversationId p ≠ uuid env1)
         (conversationParticipants (db st)) →
  (length (directPairs A B (db st)) ≤ 1)%nat →
  let first := postConversations env1 A data1 [B] st in
  ∃ c conv,
    responseId first.1 = Some c
    ∧ findDirectConversation A B (db first.2)
      = (Returned (Some (c, conv)), db first.2)
    ∧ findDirectConversation B A (db first.2)
      = (Returned (Some (c, conv)), db first.2)
    ∧ ∀ X Y, (X = A ∧ Y = B) ∨ (X = B ∧ Y = A) →
        let second := postConversations env2 X data2 [Y] first.2 in
        responseId second.1 = Some c ∧ second.2 = first.2.
Proof.
  intros HAB Hd1 Hd2 HA HB Hfresh Hunused Hone first.
  assert (∃ c, responseId first.1 = Some c
               ∧ c ∈ directPairs A B (db first.2)
               ∧ ∀ c', c' ∈ directPairs A B (db first.2) → c' = c)
    as (c & Hresp & Hin & Honly).
  { destruct (firstDirectPair (db st) (commonIds A B (db st)))
      as [[c conv]|] eqn:Hfind.
    - pose proof (findDirect_Some _ _ _ _ Hfind) as [Hin Hconv].
      unfold id in Hin, Hconv. simpl in Hin, Hconv.
      subst first.
      rewrite (postConversations_existing env1 A B data1 st c conv Hd1 Hfind Hconv).
      simpl. exists c. split; [done|]. split; [done|].
      intros c' Hc'. by apply (at_most_one_elem _ _ _ Hone).
    - destruct (postConversations_new env1 A B data1 st Hd1 HAB HA HB Hfresh Hfind)
        as [Hresp Hdb].
      subst first. rewrite Hdb. exists (uuid env1). split; [done|].
      pose proof (directPairs_created env1 data1 A B (db st) Hunused A B)
        as Hcreated.
      apply findDirect_None in Hfind.
      split.
      + apply Hcreated; auto.
      + intros c' Hc'. apply Hcreated in Hc'; auto. }
  destruct (findDirect_only A B (db first.2) c Hin Honly)
    as (conv & Hconv & HfAB & HfBA).
  exists c, conv. split; [done|].
  unfold findDirectConversation, gets. rewrite HfAB, HfBA.
  do 2 (split; [done|]).
  intros X Y [[-> ->]|[-> ->]]; cbv zeta.
  - by rewrite (postConversations_existing env2 A B data2 first.2 c conv Hd2 HfAB Hconv).
  - by rewrite (postConversations_existing env2 B A data2 first.2 c conv Hd2 HfBA Hconv).
Qed.

(* ===================================================================== *)
(** ** Concrete runs on the sample deployment *)
(* ===================================================================== *)

(** C1 on the sample: socket 3 and then socket 4 register ["C"]. *)
Lemma register_twice_lookup_second_run :
  let st := Sample.server Sample.ringingCall in
  let st1 := (onMessage (Sample.at_ms 100) 3 None (UserOnline (Some "C")) st).2 in
  let st2 := (onMessage (Sample.at_ms 200) 4 None (UserOnline (Some "C")) st1).2 in
  clients st1 !! "C" = Some 3%nat
  ∧ clients st2 !! "C" = Some 4%nat
  ∧ (∀ ws, clients st2 !! "C" = Some ws → ws = 4%nat)
  ∧ clients st2 = <["C" := 4%nat]> (clients st)
  ∧ (∀ ws, ws ∈ recipients st2 ["C"] → ws = 4%nat).
Proof.
  apply (register_twice_lookup_second (Sample.at_ms 100) (Sample.at_ms 200)
           3 4 None None "C" (Sample.server Sample.ringingCall)).
  discriminate.
Defined.

(** C2 as stated fails: socket 1 registers ["A"]; socket 3 connects and
    registers ["A"] as well (a reconnect); then socket 1 closes. Its close
    listener removes the entry of ["A"], which holds socket 3. *)
Lemma stale_close_evicts_newer_connection :
  let st := Sample.server Sample.ringingCall in
  let old := onMessage (Sample.at_ms 50) 1 None (UserOnline (Some "A")) st in
  let new := onMessage (Sample.at_ms 100) 3 None (UserOnline (Some "A"))
               (onConnection 3 old.2).2 in
  let closed := transportClose (Sample.at_ms 200) 1 old.1 new.2 in
  clients old.2 !! "A" = Some 1%nat
  ∧ clients new.2 !! "A" = Some 3%nat
  ∧ sockets new.2 !! 3%nat = Some OPEN
  ∧ clients closed !! "A" = None
  ∧ ¬ (clients closed !! "A" = clients new.2 !! "A").
Proof. vm_compute. repeat split. discriminate. Qed.

Lemma close_removes_entry_unconditionally_run :
  let st := Sample.server Sample.ringingCall in
  clients (transportClose (Sample.at_ms 200) 7 (Some "A") st)
  = delete "A" (clients st)
  ∧ clients (transportClose (Sample.at_ms 200) 7 (Some "A") st) !! "A" = None.
Proof.
  apply (close_removes_entry_unconditionally (Sample.at_ms 200) 7 "A"
           (Sample.server Sample.ringingCall)).
  discriminate.
Defined.

(** C3 as stated fails: ["k1"] is ended; ["B"] accepts it at 50000 ms; the
    call is active again with a new [startedAt], ["B"] is a participant
    and both members are told. *)
Lemma accept_after_ended_is_not_a_noop :
  let st := Sample.server Sample.endedCall in
  let st' := (onMessage (Sample.at_ms 50000) 2 (Some "B")
                (AcceptCall (Some "k1")) st).2 in
  Call.status <$> calls (db st) !! "k1" = Some Ended
  ∧ calls (db st') !! "k1"
    = Some (Call.mk (Some "c1") "A" Voice Active (Some 50000) (Some 31000)
              (Some 30) (Some 500))
  ∧ callParticipants (db st')
    = [Sample.joined "k1" "A";
       CallParticipant.mk "k1" "B" (Some 50000) None
         (Some false) (Some false) (Some false)]
  ∧ outbox st' = [(1%nat, CallAccepted "k1" "B"); (2%nat, CallAccepted "k1" "B")]
  ∧ ¬ (Call.status <$> calls (db st') !! "k1"
       = Call.status <$> calls (db st) !! "k1")
  ∧ ¬ (Call.startedAt <$> calls (db st') !! "k1"
       = Call.startedAt <$> calls (db st) !! "k1")
  ∧ ¬ (callParticipants (db st') = callParticipants (db st))
  ∧ ¬ (outbox st' = outbox st).
Proof. vm_compute. repeat split; discriminate. Qed.

Lemma accept_after_ended_reactivates_call_run :
  let st := Sample.server Sample.endedCall in
  let st' := (onMessage (Sample.at_ms 50000) 2 (Some "B")
                (AcceptCall (Some "k1")) st).2 in
  ∃ c', calls (db st') !! "k1" = Some c'
    ∧ Call.status c' = Active
    ∧ Call.startedAt c' = Some 50000
    ∧ Call.endedAt c' = Some 31000
    ∧ Call.duration c' = Some 30
    ∧ length (callParticipants (db st'))
      = S (length (callParticipants (db st)))
    ∧ last (callParticipants (db st'))
      = Some (CallParticipant.mk "k1" "B" (Some 50000) None
                (Some false) (Some false) (Some false))
    ∧ (∀ conversationId,
         Some "c1" = Some conversationId → conversationId ≠ "" →
         outbox st' = outbox st
           ++ frames st (memberIds conversationId (db st))
                (CallAccepted "k1" "B")).
Proof.
  apply (accept_after_ended_reactivates_call (Sample.at_ms 50000) 2 "B" "k1"
           Sample.endedCall (Sample.user "bob")
           (Sample.server Sample.endedCall)).
  - discriminate.
  - discriminate.
  - vm_compute. reflexivity.
  - vm_compute. reflexivity.
  - reflexivity.
Defined.

(** C4 as stated fails: ["k1"] is active since 1000 ms; ["B"] accepts it
    at 50000 ms; [startedAt] is 50000 afterwards. *)
Lemma accept_overwrites_startedAt :
  let st := Sample.server Sample.activeCall in
  let st' := (onMessage (Sample.at_ms 50000) 2 (Some "B")
                (AcceptCall (Some "k1")) st).2 in
  Call.startedAt <$> calls (db st) !! "k1" = Some (Some 1000)
  ∧ Call.startedAt <$> calls (db st') !! "k1" = Some (Some 50000)
  ∧ ¬ (Call.startedAt <$> calls (db st') !! "k1"
       = Call.startedAt <$> calls (db st) !! "k1").
Proof. vm_compute. repeat split. discriminate. Qed.

Lemma accept_call_effect_run :
  let st := Sample.server Sample.ringingCall in
  let st' := (onMessage (Sample.at_ms 1000) 2 (Some "B")
                (AcceptCall (Some "k1")) st).2 in
  callParticipants (db st')
  = callParticipants (db st)
    ++ [CallParticipant.mk "k1" "B" (Some 1000) None
          (Some false) (Some false) (Some false)]
  ∧ calls (db st')
    = <["k1" := Call.mk (Some "c1") "A" Voice Active (Some 1000) None None
                  (Some 500)]> (calls (db st))
  ∧ (∀ conversationId,
       Some "c1" = Some conversationId → conversationId ≠ "" →
       outbox st' = outbox st
         ++ frames st (memberIds conversationId (db st))
              (CallAccepted "k1" "B")).
Proof.
  apply (accept_call_effect (Sample.at_ms 1000) 2 "B" "k1"
           Sample.ringingCall (Sample.user "bob")
           (Sample.server Sample.ringingCall)).
  - discriminate.
  - discriminate.
  - vm_compute. reflexivity.
  - vm_compute. reflexivity.
Defined.

(** C5 on the sample: ["A"] ends, at 31999 ms, the call active since
    1000 ms: 30 whole seconds. *)
Lemma end_call_effect_run :
  let st := Sample.server Sample.activeCall in
  let st' := (onMessage (Sample.at_ms 31999) 1 (Some "A")
                (EndCall (Some "k1")) st).2 in
  calls (db st') !! "k1"
  = Some (Call.mk (Some "c1") "A" Voice Ended (Some 1000) (Some 31999)
            (Some 30) (Some 500))
  ∧ outbox st' = [(1%nat, CallEnded "k1" "A" 30); (2%nat, CallEnded "k1" "A" 30)].
Proof.
  destruct (end_call_effect (Sample.at_ms 31999) 1 "A" "k1" Sample.activeCall
              (Sample.server Sample.activeCall))
    as (Hcalls & _ & _ & _ & Hout).
  - discriminate.
  - discriminate.
  - vm_compute. reflexivity.
  - vm_compute. reflexivity.
  - cbv zeta. split.
    + rewrite Hcalls. vm_compute. reflexivity.
    + rewrite (Hout "c1"); [vm_compute; reflexivity|reflexivity|discriminate].
Defined.

(** C6 on the sample with two conversations and three connected users:
    ["A"] starts a video call in ["c1"]; only the socket of ["B"] gets
    the frame. *)
Lemma start_call_http_and_live_agree_run :
  let st := MessageSample.server in
  let http := postCalls (Sample.at_ms 900) "A" (Some "c1") (Some Video) st in
  let live := onMessage (Sample.at_ms 900) 1 (Some "A")
                (StartCall (Some "c1") (Some Video)) st in
  let call := ("fresh", Call.mk (Some "c1") "A" Video Initiated
                          None None None (Some 900)) in
  http.2 = live.2
  ∧ http.1 = Json 201 call
  ∧ calls (db live.2) !! "fresh" = Some call.2
  ∧ filter (λ p, CallParticipant.callId p = "fresh")
           (callParticipants (db live.2))
    = [CallParticipant.mk "fresh" "A" (Some 900) None
         (Some false) (Some false) (Some false)]
  ∧ outbox live.2
    = [(2%nat, IncomingCall call (Some ("A", Sample.user "alice")))].
Proof.
  destruct (start_call_http_and_live_agree (Sample.at_ms 900) 1 "A" "c1"
              (Some Video) MessageSample.server)
    as [Hsame Hnew]; [discriminate|discriminate|].
  destruct (Hnew (Sample.user "alice")
              (Conversation.mk Direct None None (Some "A") (Some 600)))
    as (Hresp & _ & _ & _ & Hcalls & _ & Honly & sent & Hout & Hev & Hsockets & _).
  - vm_compute. reflexivity.
  - vm_compute. reflexivity.
  - vm_compute. reflexivity.
  - constructor.
  - cbv zeta. split; [exact Hsame|]. split; [exact Hresp|].
    split; [rewrite Hcalls; apply lookup_insert_eq|].
    split; [exact Honly|]. rewrite Hout.
    assert (sent.*1 = [2%nat]) as Hone
      by (rewrite Hsockets; vm_compute; reflexivity).
    destruct sent as [|[sock ev] [|? ?]]; try discriminate Hone.
    injection Hone as ->.
    pose proof (Hev (2%nat, ev) (list_elem_of_here _ _)) as Hframe.
    simpl in Hframe. by rewrite Hframe.
Defined.

(** The original C6 fails for a request that names no conversation: the
    HTTP handler stores a call without conversation and the row of its
    initiator and answers 201, the live handler ignores the frame. *)
Lemma start_call_without_conversation :
  let st := Sample.server Sample.endedCall in
  let http := postCalls (Sample.at_ms 900) "A" None (Some Video) st in
  let live := onMessage (Sample.at_ms 900) 1 (Some "A")
                (StartCall None (Some Video)) st in
  let call := Call.mk None "A" Video Initiated None None None (Some 900) in
  http.1 = Json 201 ("fresh", call)
  ∧ calls (db http.2) !! "fresh" = Some call
  ∧ callParticipants (db http.2)
    = callParticipants (db st)
      ++ [CallParticipant.mk "fresh" "A" (Some 900) None
            (Some false) (Some false) (Some false)]
  ∧ live.2 = st
  ∧ calls (db live.2) !! "fresh" = None.
Proof. vm_compute. repeat split. Qed.

(** C7 on the sample: ["A"] mutes in ["k1"], with a payload that also
    carries a video flag, which the handler does not read; then ["A"]
    unmutes. *)
Lemma toggle_updates_exactly_one_flag_run :
  let st := Sample.server Sample.activeCall in
  let mute := mkTogglePayload (Some "k1") (FBool true) (FBool true) FUndefined in
  let unmute := mkTogglePayload (Some "k1") (FBool false) FUndefined FUndefined in
  let st1 := (onMessage (Sample.at_ms 2000) 1 (Some "A")
                (Toggle ToggleMute mute) st).2 in
  let st2 := (onMessage (Sample.at_ms 3000) 1 (Some "A")
                (Toggle ToggleMute unmute) st1).2 in
  (∃ p1, callParticipants (db st1) !! 0%nat = Some p1
     ∧ CallParticipant.isMuted p1 = Some true
     ∧ CallParticipant.isVideoOff p1 = Some false
     ∧ CallParticipant.isScreenSharing p1 = Some false)
  ∧ ∃ p1 p2, callParticipants (db st1) !! 0%nat = Some p1
     ∧ callParticipants (db st2) !! 0%nat = Some p2
     ∧ CallParticipant.isMuted p2 = Some false
     ∧ CallParticipant.isVideoOff p2 = CallParticipant.isVideoOff p1
     ∧ CallParticipant.isScreenSharing p2 = CallParticipant.isScreenSharing p1.
Proof.
  cbv zeta.
  destruct (toggle_updates_exactly_one_flag (Sample.at_ms 2000) 1 "A" ToggleMute
              (mkTogglePayload (Some "k1") (FBool true) (FBool true) FUndefined)
              "k1" (Sample.server Sample.activeCall))
    as (_ & _ & _ & _ & _ & Hrows);
    [discriminate|reflexivity|discriminate|discriminate|].
  destruct (Hrows 0%nat (Sample.joined "k1" "A") eq_refl)
    as (p1 & Hp1 & Hcall & Huser & _ & _ & Hothers & Hown & _).
  split.
  - exists p1. split; [exact Hp1|]. split.
    + apply (Hown (conj eq_refl eq_refl)).
    + split.
      * apply (Hothers ToggleVideo). discriminate.
      * apply (Hothers ToggleScreenShare). discriminate.
  - destruct (toggle_updates_exactly_one_flag (Sample.at_ms 3000) 1 "A"
                ToggleMute
                (mkTogglePayload (Some "k1") (FBool false) FUndefined FUndefined)
                "k1"
                (onMessage (Sample.at_ms 2000) 1 (Some "A")
                   (Toggle ToggleMute
                      (mkTogglePayload (Some "k1") (FBool true) (FBool true)
                         FUndefined))
                   (Sample.server Sample.activeCall)).2)
      as (_ & _ & _ & _ & _ & Hrows');
      [discriminate|reflexivity|discriminate|discriminate|].
    destruct (Hrows' 0%nat p1 Hp1)
      as (p2 & Hp2 & _ & _ & _ & _ & Hothers' & Hown' & _).
    exists p1, p2. split; [exact Hp1|]. split; [exact Hp2|]. split.
    + apply Hown'. by rewrite Hcall, Huser.
    + split.
      * apply (Hothers' ToggleVideo). discriminate.
      * apply (Hothers' ToggleScreenShare). discriminate.
Defined.

(** The original C7 fails on its own frame: [toggle-mute] with
    [{ isMuted: true }] names no call, so the handler is skipped. The
    flag of ["A"] in the running call stays [false], and nothing at all
    changes. *)
Lemma toggle_without_call_id_updates_no_flag :
  let st := Sample.server Sample.activeCall in
  let payload := mkTogglePayload None (FBool true) FUndefined FUndefined in
  let st' := (onMessage (Sample.at_ms 2000) 1 (Some "A")
                (Toggle ToggleMute payload) st).2 in
  callParticipants (db st) = [Sample.joined "k1" "A"]
  ∧ CallParticipant.isMuted <$> callParticipants (db st') !! 0%nat
    = Some (Some false)
  ∧ st' = st.
Proof. vm_compute. repeat split. Qed.

(** C8 on the sample with two conversations and three connected users:
    ["A"] types in ["c1"]; only the socket of ["B"] gets the event, and
    the socket of ["C"], who shares ["c2"] with ["A"], gets nothing. *)
Lemma typing_reaches_exactly_the_other_members_run :
  let st := MessageSample.server in
  let st' := (onMessage (Sample.at_ms 2000) 1 (Some "A")
                (Typing (Some "c1") (FBool true)) st).2 in
  outbox st' = [(2%nat, TypingStatus "c1" "A" (FBool true))].
Proof.
  destruct (typing_reaches_exactly_the_other_members (Sample.at_ms 2000) 1 "A"
              "c1" (FBool true) MessageSample.server)
    as (sent & Hout & Hev & Hsockets & _); [discriminate|discriminate|].
  cbv zeta. rewrite Hout.
  assert (sent.*1 = [2%nat]) as Hone
    by (rewrite Hsockets; vm_compute; reflexivity).
  destruct sent as [|[sock ev] [|? ?]]; try discriminate Hone.
  injection Hone as ->.
  pose proof (Hev (2%nat, ev) (list_elem_of_here _ _)) as Hframe.
  simpl in Hframe. by rewrite Hframe.
Defined.

(** The original C8 fails where one connection has announced two users:
    socket 1 sends [user-online] for ["B"] and then for ["A"], and is
    registered for both. Its [typing] frame as ["A"] is answered with
    the event on socket 1 itself, the registered socket of ["B"]. *)
Lemma typing_reaches_the_senders_own_socket :
  let st := Sample.server Sample.activeCall in
  let '(userId, bound) :=
    receive 1 None [(Sample.at_ms 10, UserOnline (Some "B"));
                    (Sample.at_ms 20, UserOnline (Some "A"))] st in
  let st' := (onMessage (Sample.at_ms 30) 1 userId
                (Typing (Some "c1") (FBool true)) bound).2 in
  userId = Some "A"
  ∧ clients bound !! "A" = Some 1%nat
  ∧ outbox st' = outbox bound ++ [(1%nat, TypingStatus "c1" "A" (FBool true))].
Proof. vm_compute. repeat split. Qed.

(** C9 on the sample: ["A"] and ["C"] share no conversation; ["A"] asks for
    a direct conversation with ["C"], then ["C"] asks for one with ["A"]. *)
Lemma direct_conversation_created_once_run :
  let st := Sample.server Sample.activeCall in
  let data := mkInsertConversation (Some Direct) None None in
  let first := postConversations (Sample.at_ms 3000) "A" data ["C"] st in
  let second := postConversations (mkEnv 4000 "other") "C" data ["A"] first.2 in
  responseId first.1 = Some "fresh"
  ∧ responseId second.1 = Some "fresh"
  ∧ second.2 = first.2.
Proof.
  destruct (direct_conversation_created_once (Sample.at_ms 3000)
              (mkEnv 4000 "other") "A" "C"
              (mkInsertConversation (Some Direct) None None)
              (mkInsertConversation (Some Direct) None None)
              (Sample.server Sample.activeCall))
    as (c & conv & Hfirst & _ & _ & Hsecond).
  - discriminate.
  - reflexivity.
  - reflexivity.
  - vm_compute. by eexists.
  - vm_compute. by eexists.
  - vm_compute. reflexivity.
  - repeat constructor; discriminate.
  - vm_compute. lia.
  - cbv zeta. destruct (Hsecond "C" "A") as [Hid Hst]; [by right|].
    assert (c = "fresh") as ->.
    { vm_compute in Hfirst. by injection Hfirst as <-. }
    split; [vm_compute; reflexivity|]. split; [exact Hid|exact Hst].
Defined.

(** The original C9 fails in two ways. A request of type [direct] that
    lists both users is not looked up: made twice by ["A"] for ["A"] and
    ["C"], it creates two direct conversations of the two. And where two
    such conversations exist with their rows crosswise, the lookup
    answers ["A"] with one and ["B"] with the other. *)
Lemma direct_conversation_created_twice :
  let data := mkInsertConversation (Some Direct) None None in
  let st := Sample.server Sample.activeCall in
  let first := postConversations (mkEnv 3000 "f1") "A" data ["C"; "A"] st in
  let second := postConversations (mkEnv 4000 "f2") "A" data ["C"; "A"]
                  first.2 in
  let asked := postConversations (mkEnv 5000 "f3") "A" data ["B"]
                 Crossed.server in
  let answered := postConversations (mkEnv 6000 "f4") "B" data ["A"]
                    asked.2 in
  (responseId first.1 = Some "f1"
   ∧ responseId second.1 = Some "f2"
   ∧ directPairs "A" "C" (db second.2) = ["f1"; "f2"])
  ∧ (responseId asked.1 = Some "d1"
     ∧ responseId answered.1 = Some "d2"
     ∧ id <$> firstDirectPair Crossed.database
                (commonIds "A" "B" Crossed.database) = Some "d1"
     ∧ id <$> firstDirectPair Crossed.database
                (commonIds "B" "A" Crossed.database) = Some "d2").
Proof. vm_compute. repeat split. Qed.

(** C10 on the sample: socket 9 connects, sends frames without ever
    naming a user, and closes. *)
Lemma close_before_binding_changes_nothing_run :
  let st := Sample.server Sample.activeCall in
  let sent := [(Sample.at_ms 10, Typing (Some "c1") (FBool true));
               (Sample.at_ms 20, UserOnline (Some ""));
               (Sample.at_ms 30, EndCall (Some "k1"));
               (Sample.at_ms 40, UserOnline None)] in
  let '(userId, st') := receive 9 None sent (onConnection 9 st).2 in
  st' = (onConnection 9 st).2
  ∧ catch (onClose (Sample.at_ms 50) userId) st' = st'
  ∧ clients (transportClose (Sample.at_ms 50) 9 userId st') = clients st
  ∧ db (transportClose (Sample.at_ms 50) 9 userId st') = db st
  ∧ outbox (transportClose (Sample.at_ms 50) 9 userId st') = outbox st.
Proof.
  apply (close_before_binding_changes_nothing (Sample.at_ms 50) 9
           [(Sample.at_ms 10, Typing (Some "c1") (FBool true));
            (Sample.at_ms 20, UserOnline (Some ""));
            (Sample.at_ms 30, EndCall (Some "k1"));
            (Sample.at_ms 40, UserOnline None)]
           (Sample.server Sample.activeCall)).
  repeat constructor.
Defined.

(* ===================================================================== *)
(** ** Further properties of the handlers *)
(* ===================================================================== *)

Lemma with_db_same (st : Server) : with_db (λ _, db st) st = st.
Proof. by destruct st. Qed.

Section Lifecycle.

(** The decline handler on an existing call. *)
Lemma declineCall_run u cid c st :
  u ≠ "" → cid ≠ "" →
  calls (db st) !! cid = Some c →
  catch (declineCall (Some u) (Some cid)) st
  = mkServer (clients st) (sockets st)
      (mkDB (users (db st)) (conversations (db st))
         (conversationParticipants (db st))
         (<[cid := Call.mk (Call.conversationId c) (Call.initiatorId c)
                     (Call.type c) Declined (Call.startedAt c) (Call.endedAt c)
                     (Call.duration c) (Call.createdAt c)]> (calls (db st)))
         (callParticipants (db st)))
      (outbox st
       ++ match truthy (Call.conversationId c) with
          | Some conversationId =>
              frames st (memberIds conversationId (db st)) (CallDeclined cid u)
          | None => []
          end).
Proof.
  intros Hu Hcid Hc. unfold catch, declineCall.
  rewrite (truthy_nonempty _ Hu), (truthy_nonempty _ Hcid).
  unfold bind. rewrite storage_run. unfold getCall, gets. simpl.
  rewrite Hc. simpl. rewrite storage_run. unfold updateCall. simpl.
  rewrite Hc.
  destruct (truthy (Call.conversationId c)) as [conv|].
  - rewrite broadcastToConversation_run, filter_exclude_nobody by done.
    destruct st as [? ? []]; reflexivity.
  - simpl. rewrite app_nil_r. destruct st as [? ? []]; reflexivity.
Qed.

End Lifecycle.

(** X1. Declining an existing call sets its status to [declined] and
    changes no other column; no call and no participant row is removed,
    and [call-declined], with the id of the declining user, is sent to
    every connected member of the conversation of the call, the
    declining user included. *)
Theorem decline_call_effect env ws u cid c st :
  u ≠ "" → cid ≠ "" →
  calls (db st) !! cid = Some c →
  let st' := (onMessage env ws (Some u) (DeclineCall (Some cid)) st).2 in
  calls (db st')
  = <[cid := Call.mk (Call.conversationId c) (Call.initiatorId c)
               (Call.type c) Declined (Call.startedAt c) (Call.endedAt c)
               (Call.duration c) (Call.createdAt c)]> (calls (db st))
  ∧ callParticipants (db st') = callParticipants (db st)
  ∧ dom (calls (db st')) = dom (calls (db st))
  ∧ (∀ conversationId,
       Call.conversationId c = Some conversationId → conversationId ≠ "" →
       outbox st' = outbox st
         ++ frames st (memberIds conversationId (db st)) (CallDeclined cid u)).
Proof.
  intros Hu Hcid Hc st'. subst st'. simpl.
  rewrite (declineCall_run u cid c st Hu Hcid Hc). simpl.
  split; [reflexivity|]. split; [reflexivity|]. split.
  - apply dom_insert_lookup_L. by eexists.
  - intros conv Hconv Hne. by rewrite Hconv, (truthy_nonempty _ Hne).
Qed.

(** X2. A lifecycle frame ([accept-call], [decline-call], [end-call])
    whose call id is absent, empty or names no stored call changes
    nothing: the process is the one before the frame and nothing is
    sent. *)
Theorem lifecycle_on_unknown_call_is_ignored env ws userId callId st :
  (∀ cid, truthy callId = Some cid → calls (db st) !! cid = None) →
  onMessage env ws userId (AcceptCall callId) st = (userId, st)
  ∧ onMessage env ws userId (DeclineCall callId) st = (userId, st)
  ∧ onMessage env ws userId (EndCall callId) st = (userId, st).
Proof.
  intros Hnone. simpl. unfold catch, acceptCall, declineCall, endCall.
  destruct (truthy userId) as [u|]; [|done].
  destruct (truthy callId) as [cid|]; [|done].
  unfold bind. rewrite !storage_run. unfold getCall, gets. simpl.
  rewrite (Hnone cid eq_refl). simpl. by rewrite with_db_same.
Qed.

(** X3. An [accept-call] in the name of a user id that is not in the
    users table changes nothing: the insertion of the participant row
    fails on its foreign key before the call is touched, so the call is
    not made active and nothing is sent. *)
Theorem accept_by_unknown_user_is_ignored env ws u callId st :
  users (db st) !! u = None →
  onMessage env ws (Some u) (AcceptCall callId) st = (Some u, st).
Proof.
  intros Hnone. simpl. unfold catch, acceptCall.
  destruct (truthy (Some u)) as [u'|] eqn:Hu; [|done].
  apply truthy_Some in Hu as [[= <-] _].
  destruct (truthy callId) as [cid|]; [|done].
  unfold bind. rewrite storage_run. unfold getCall, gets. simpl.
  destruct (calls (db st) !! cid) as [c|] eqn:Hc; simpl.
  - rewrite storage_run. unfold addCallParticipant. simpl.
    rewrite Hc, Hnone. simpl. by rewrite !with_db_same.
  - by rewrite with_db_same.
Qed.

Section Relay.

Lemma relay_run u target body mk st :
  u ≠ "" → target ≠ "" → body ≠ "" →
  catch (relay (Some u) (Some target) (Some body) mk) st
  = with_outbox (λ o, o ++ frames st [target] (mk u body)) st.
Proof.
  intros Hu Ht Hb. unfold catch, relay.
  rewrite (truthy_nonempty _ Hu), (truthy_nonempty _ Ht), (truthy_nonempty _ Hb).
  unfold modify. cbv beta iota. unfold snd. apply broadcastToUsers_frames.
Qed.

Lemma frames_one st target ev :
  frames st [target] ev
  = match clients st !! target with
    | Some sock =>
        if decide (sockets st !! sock = Some OPEN) then [(sock, ev)] else []
    | None => []
    end.
Proof.
  unfold frames, recipients. simpl.
  destruct (clients st !! target) as [sock|]; [|done].
  by destruct (decide (sockets st !! sock = Some OPEN)).
Qed.

End Relay.

(** X4. The three signalling frames ([ice-candidate], [webrtc-offer],
    [webrtc-answer]) from an identified user write one frame to the
    registered socket of the target user, if there is one and it is
    open, and nothing otherwise; the frame names the sender by the
    connection's user id and carries the body as received. The registry,
    the sockets and the database are not touched. *)
Theorem relay_forwards_to_target_only env ws u target body st :
  u ≠ "" → target ≠ "" → body ≠ "" →
  let delivered ev :=
    match clients st !! target with
    | Some sock =>
        if decide (sockets st !! sock = Some OPEN) then [(sock, ev)] else []
    | None => []
    end in
  (onMessage env ws (Some u) (IceCandidateMsg (Some target) (Some body)) st).2
  = with_outbox (λ o, o ++ delivered (IceCandidate u body)) st
  ∧ (onMessage env ws (Some u) (WebrtcOfferMsg (Some target) (Some body)) st).2
    = with_outbox (λ o, o ++ delivered (WebrtcOffer u body)) st
  ∧ (onMessage env ws (Some u) (WebrtcAnswerMsg (Some target) (Some body)) st).2
    = with_outbox (λ o, o ++ delivered (WebrtcAnswer u body)) st.
Proof.
  intros Hu Ht Hb delivered. subst delivered. simpl.
  rewrite !relay_run by done. by rewrite !frames_one.
Qed.

(** X5. A media toggle that names no call, or that does not carry the
    flag of its type, changes nothing and is not broadcast: without a
    call id the handler is skipped, and without the flag the update has
    nothing to set and throws before the broadcast. *)
Theorem toggle_without_call_or_flag_is_ignored env ws userId kind payload st :
  truthy (t_callId payload) = None ∨ payloadFlag kind payload = FUndefined →
  onMessage env ws userId (Toggle kind payload) st = (userId, st).
Proof.
  intros Hbad. simpl. unfold catch, toggle.
  destruct (truthy userId) as [u|]; [|done].
  destruct (truthy (t_callId payload)) as [cid|]; [|done].
  destruct Hbad as [|Hflag]; [done|].
  unfold bind. rewrite storage_run. unfold updateCallParticipant.
  assert (isUndefined (m_isMuted (mediaPatch kind payload))
          && isUndefined (m_isVideoOff (mediaPatch kind payload))
          && isUndefined (m_isScreenSharing (mediaPatch kind payload)) = true)
    as ->.
  { destruct kind; simpl in *; by rewrite Hflag. }
  simpl. by rewrite with_db_same.
Qed.

Section TypingRows.

Lemma typing_db env u conv isTyping st :
  u ≠ "" → conv ≠ "" →
  db (catch (typing env (Some u) (Some conv) isTyping) st)
  = with_conversationParticipants (map (λ p,
      if decide (ConversationParticipant.conversationId p = conv
                 ∧ ConversationParticipant.userId p = u)
      then ConversationParticipant.mk
             (ConversationParticipant.conversationId p)
             (ConversationParticipant.userId p)
             (ConversationParticipant.role p)
             (ConversationParticipant.joinedAt p)
             (flagValue isTyping (ConversationParticipant.isTyping p))
             (Some (now env))
      else p)) (db st).
Proof.
  intros Hu Hconv. unfold catch, typing.
  rewrite (truthy_nonempty _ Hu), (truthy_nonempty _ Hconv).
  unfold bind. rewrite storage_run. unfold updateTypingStatus, modify at 1.
  cbv beta iota. by rewrite broadcastToConversation_run.
Qed.

End TypingRows.

(** X6. A [typing] frame from an identified user rewrites the rows of
    that user in that conversation only: their typing flag takes the
    payload's value (an absent value leaves it) and their typing
    timestamp the current time. Every other row is as before, no row is
    added or removed, and the other tables are not written. The handler
    does not ask whether the user is a member: for a user without a row
    in the conversation no row changes. *)
Theorem typing_updates_own_rows_only env ws u conv isTyping st :
  u ≠ "" → conv ≠ "" →
  let st' := (onMessage env ws (Some u) (Typing (Some conv) isTyping) st).2 in
  let rows := conversationParticipants (db st) in
  let rows' := conversationParticipants (db st') in
  length rows' = length rows
  ∧ users (db st') = users (db st)
  ∧ conversations (db st') = conversations (db st)
  ∧ calls (db st') = calls (db st)
  ∧ callParticipants (db st') = callParticipants (db st)
  ∧ (∀ i p, rows !! i = Some p →
       ∃ p', rows' !! i = Some p'
         ∧ ConversationParticipant.conversationId p'
           = ConversationParticipant.conversationId p
         ∧ ConversationParticipant.userId p' = ConversationParticipant.userId p
         ∧ ConversationParticipant.role p' = ConversationParticipant.role p
         ∧ ConversationParticipant.joinedAt p'
           = ConversationParticipant.joinedAt p
         ∧ (ConversationParticipant.conversationId p = conv
            ∧ ConversationParticipant.userId p = u →
            ConversationParticipant.isTyping p'
            = flagValue isTyping (ConversationParticipant.isTyping p)
            ∧ ConversationParticipant.typingUpdatedAt p' = Some (now env))
         ∧ (¬ (ConversationParticipant.conversationId p = conv
               ∧ ConversationParticipant.userId p = u) → p' = p))
  ∧ (u ∉ map ConversationParticipant.userId (participantsOf conv (db st)) →
     rows' = rows).
Proof.
  intros Hu Hconv st' rows rows'. subst st' rows rows'. simpl.
  rewrite (typing_db env u conv isTyping st Hu Hconv). simpl.
  split; [by rewrite length_map|]. do 4 (split; [reflexivity|]). split.
  - intros i p Hi. rewrite list_lookup_fmap, Hi. simpl.
    eexists. split; [reflexivity|].
    destruct (decide (ConversationParticipant.conversationId p = conv
                      ∧ ConversationParticipant.userId p = u)) as [Hown|Hother].
    + do 4 (split; [reflexivity|]). split; [done|]. intros H. by destruct H.
    + do 4 (split; [reflexivity|]). split; [|done]. intros H. by destruct Hother.
  - intros Hnot. rewrite <- (map_id (conversationParticipants (db st))) at 2.
    apply map_ext_in. intros p Hp.
    rewrite decide_False; [done|]. intros [Hc Hpu]. apply Hnot.
    apply list_elem_of_fmap. exists p. split; [done|].
    unfold participantsOf. apply list_elem_of_filter. split; [done|].
    by apply list_elem_of_In.
Qed.

Section Contacts.

#[local] Instance lastActivityDesc_total : Total lastActivityDesc.
Proof.
  intros a b. unfold lastActivityDesc.
  destruct (Conversation.lastActivityAt a.2), (Conversation.lastActivityAt b.2);
    auto. lia.
Qed.

Lemma collectDetails_run userId convs d :
  (∀ r, r ∈ convs → conversations d !! r.1 = Some r.2) →
  collectDetails userId convs d
  = (Returned (map (λ r, mkDetails r (joinUsers d (participantsOf r.1 d))) convs),
     d).
Proof.
  induction convs as [|[c conv] rest IH]; intros Hall; [done|].
  simpl. unfold bind at 1.
  unfold getConversationWithDetails, getConversation, getParticipants, bind, gets.
  pose proof (Hall (c, conv) (list_elem_of_here _ _)) as Hc. simpl in Hc.
  simpl. rewrite Hc. simpl.
  unfold bind in IH. rewrite IH; [done|].
  intros r Hr. apply Hall. by apply list_elem_of_further.
Qed.

(** The conversations of a user, as [getUserConversations] lists them. *)
Lemma getUserConversations_run userId d :
  ∃ rows,
    getUserConversations userId d
    = (Returned (map (λ r, mkDetails r (joinUsers d (participantsOf r.1 d))) rows),
       d)
    ∧ rows ≡ₚ filter (λ r : Row Conversation.t, id r ∈ conversationsOf userId d)
                     (map_to_list (conversations d))
    ∧ Sorted lastActivityDesc rows.
Proof.
  unfold getUserConversations, bind, gets. simpl.
  fold (conversationsOf userId d).
  destruct (conversationsOf userId d) as [|c ids] eqn:Hids.
  - exists []. split; [done|]. split; [|constructor].
    symmetry. apply Permutation_nil_r, filter_none.
    apply Forall_forall. intros r _ Hin. by apply elem_of_nil in Hin.
  - eexists. split; [|split].
    + apply collectDetails_run. intros r Hr.
      rewrite merge_sort_Permutation in Hr.
      apply list_elem_of_filter in Hr as [_ Hr].
      destruct r as [k conv]. by apply elem_of_map_to_list in Hr.
    + apply merge_sort_Permutation.
    + apply Sorted_merge_sort. apply _.
Qed.

Lemma elem_of_setAdd x y s : x ∈ setAdd y s ↔ x = y ∨ x ∈ s.
Proof.
  unfold setAdd. destruct (decide (y ∈ s)).
  - split; [auto|]. by intros [->|].
  - rewrite elem_of_app, list_elem_of_singleton. tauto.
Qed.

Lemma NoDup_setAdd y s : NoDup s → NoDup (setAdd y s).
Proof.
  intros Hs. unfold setAdd. destruct (decide (y ∈ s)); [done|].
  apply NoDup_app. split; [done|]. split; [|apply NoDup_singleton].
  intros x Hx ->%list_elem_of_singleton. done.
Qed.

(** One conversation adds its other members to the set. *)
Lemma contacts_inner userId (ps : list (ConversationParticipant.t * Row User.t)) acc :
  let acc' := foldl (λ acc p,
                 let other := ConversationParticipant.userId p.1 in
                 if decide (other ≠ userId) then setAdd other acc else acc)
               acc ps in
  (NoDup acc → NoDup acc')
  ∧ ∀ x, x ∈ acc' ↔
         x ∈ acc ∨ (x ≠ userId
                    ∧ x ∈ map (λ p, ConversationParticipant.userId p.1) ps).
Proof.
  revert acc. induction ps as [|p ps IH]; intros acc; simpl.
  - split; [done|]. intros x. rewrite elem_of_nil. tauto.
  - destruct (IH (if decide (ConversationParticipant.userId p.1 ≠ userId)
                  then setAdd (ConversationParticipant.userId p.1) acc
                  else acc)) as [Hnd Hin].
    split.
    + intros Hacc. apply Hnd. case_decide; [by apply NoDup_setAdd|done].
    + intros x. rewrite Hin, elem_of_cons. case_decide as Hne.
      * rewrite elem_of_setAdd. split; [|tauto].
        intros [[->|?]|[? ?]]; tauto.
      * split; [tauto|].
        intros [?|[Hx [->|?]]]; [tauto|by destruct Hx|tauto].
Qed.

Lemma contactIds_spec userId (convs : list ConversationWithDetails) :
  NoDup (contactIds userId convs)
  ∧ ∀ x, x ∈ contactIds userId convs ↔
         x ≠ userId
         ∧ ∃ conv, conv ∈ convs
                   ∧ x ∈ map (λ p, ConversationParticipant.userId p.1)
                             (participants conv).
Proof.
  unfold contactIds.
  assert (∀ acc,
    let acc' := foldl (λ acc conv,
                   foldl (λ acc p,
                      let other := ConversationParticipant.userId p.1 in
                      if decide (other ≠ userId) then setAdd other acc else acc)
                     acc (participants conv)) acc convs in
    (NoDup acc → NoDup acc')
    ∧ ∀ x, x ∈ acc' ↔
           x ∈ acc ∨ (x ≠ userId
                      ∧ ∃ conv, conv ∈ convs
                          ∧ x ∈ map (λ p, ConversationParticipant.userId p.1)
                                    (participants conv))) as Hgen.
  { induction convs as [|conv convs IH]; intros acc; simpl.
    - split; [done|]. intros x. split; [tauto|].
      intros [?|(_ & conv & Hin & _)]; [done|]. by apply elem_of_nil in Hin.
    - destruct (contacts_inner userId (participants conv) acc) as [Hnd1 Hin1].
      simpl in Hnd1, Hin1.
      match goal with |- context [foldl _ ?a convs] =>
        destruct (IH a) as [Hnd2 Hin2] end.
      simpl in Hnd2, Hin2. split; [auto|].
      intros x. rewrite Hin2, Hin1. split.
      + intros [[?|[? ?]]|(? & conv' & ? & ?)]; [tauto| |].
        * right. split; [done|]. exists conv. split; [apply list_elem_of_here|done].
        * right. split; [done|]. exists conv'.
          split; [by apply list_elem_of_further|done].
      + intros [?|(? & conv' & Hc & ?)]; [tauto|].
        apply elem_of_cons in Hc as [->|Hc]; [tauto|].
        right. split; [done|]. by exists conv'. }
  destruct (Hgen []) as [Hnd Hin]. simpl in Hnd, Hin. split.
  - apply Hnd. constructor.
  - intros x. rewrite Hin, elem_of_nil. tauto.
Qed.

End Contacts.

(** X7. The contact set that the presence handlers notify holds each
    other user with whom the user shares a conversation, once: a user id
    is in it exactly when it differs from the user's id and some
    conversation that has a row for the user also has a row for that id
    (with an existing user). *)
Theorem contacts_are_the_other_members userId d :
  NoDup (contactsOf userId d)
  ∧ (userId ∉ contactsOf userId d)
  ∧ ∀ x, x ∈ contactsOf userId d ↔
         x ≠ userId
         ∧ ∃ c, c ∈ conversationsOf userId d
                ∧ is_Some (conversations d !! c)
                ∧ x ∈ memberIds c d.
Proof.
  unfold contactsOf.
  destruct (getUserConversations_run userId d) as (rows & -> & Hperm & _).
  simpl. destruct (contactIds_spec userId
    (map (λ r, mkDetails r (joinUsers d (participantsOf r.1 d))) rows))
    as [Hnd Hin].
  split; [done|]. split; [rewrite Hin; tauto|].
  intros x. rewrite Hin. split.
  - intros (Hne & conv & Hconv & Hx). split; [done|].
    apply list_elem_of_fmap in Hconv as (r & -> & Hr).
    rewrite Hperm in Hr. apply list_elem_of_filter in Hr as [Hid Hr].
    destruct r as [c cv]. apply elem_of_map_to_list in Hr.
    exists c. split; [done|]. split; [by eexists|done].
  - intros (Hne & c & Hc & [cv Hcv] & Hx). split; [done|].
    exists (mkDetails (c, cv) (joinUsers d (participantsOf c d))).
    split; [|done]. apply list_elem_of_fmap. exists (c, cv). split; [done|].
    rewrite Hperm. apply list_elem_of_filter. split; [done|].
    by apply elem_of_map_to_list.
Qed.

(** X8. [getUserConversations] lists the existing conversations in which
    the user has a row, each once, with the members of each, most
    recently active first (a conversation without activity time comes
    before the others); it writes nothing. *)
Theorem user_conversations_listed_once_by_activity userId d :
  ∃ rows,
    getUserConversations userId d
    = (Returned (map (λ r, mkDetails r (joinUsers d (participantsOf r.1 d))) rows),
       d)
    ∧ NoDup rows.*1
    ∧ Sorted lastActivityDesc rows
    ∧ ∀ c conv, (c, conv) ∈ rows ↔
        conversations d !! c = Some conv ∧ c ∈ conversationsOf userId d.
Proof.
  destruct (getUserConversations_run userId d) as (rows & Hrun & Hperm & Hsorted).
  exists rows. split; [done|]. split; [|split; [done|]].
  - rewrite Hperm.
    apply (sublist_NoDup _ ((map_to_list (conversations d)).*1)).
    + apply NoDup_fst_map_to_list.
    + apply fmap_sublist, sublist_filter.
  - intros c conv. rewrite Hperm, list_elem_of_filter, elem_of_map_to_list.
    unfold id. simpl. tauto.
Qed.

Section Presence.

(** The two presence handlers differ in the registry write and in the
    status; [register] is that write. *)
Lemma presence_run env u status register st :
  (await _ ← modify (with_clients register);
   await _ ← storage (updateUserStatus env u status);
   await conversations ← storage (getUserConversations u);
   modify (broadcastToUsers (contactIds u conversations)
             (UserStatusChanged u status))) st
  = let d := with_users (alter (withStatus env status) u) (db st) in
    let st1 := mkServer (register (clients st)) (sockets st) d (outbox st) in
    (Returned tt,
     with_outbox (λ o, o ++ frames st1 (contactsOf u d) (UserStatusChanged u status))
       st1).
Proof.
  unfold bind, modify. cbv beta iota. rewrite !storage_run.
  unfold updateUserStatus, modify. cbv beta iota. unfold fst, snd.
  cbn [db with_db with_clients].
  change (with_users (alter (λ u0, User.mk (User.username u0) (Some status)
            (Some (now env)) (Some (now env))) u) (db st))
    with (with_users (alter (withStatus env status) u) (db st)).
  unfold contactsOf.
  destruct (getUserConversations_run u
              (with_users (alter (withStatus env status) u) (db st)))
    as (rows & -> & _).
  cbv beta iota zeta. unfold fst, snd.
  rewrite broadcastToUsers_frames. reflexivity.
Qed.

Lemma userOnline_run env ws u st :
  u ≠ "" →
  catch (userOnline env ws (Some u)) st
  = let d := with_users (alter (withStatus env Online) u) (db st) in
    let st1 := mkServer (<[u := ws]> (clients st)) (sockets st) d (outbox st) in
    with_outbox (λ o, o ++ frames st1 (contactsOf u d) (UserStatusChanged u Online))
      st1.
Proof.
  intros Hu. unfold catch, userOnline. rewrite (truthy_nonempty _ Hu).
  by rewrite presence_run.
Qed.

Lemma transportClose_run env ws u st :
  u ≠ "" →
  transportClose env ws (Some u) st
  = let d := with_users (alter (withStatus env Offline) u) (db st) in
    let st1 := mkServer (delete u (clients st)) (<[ws := CLOSED]> (sockets st))
                 d (outbox st) in
    with_outbox (λ o, o ++ frames st1 (contactsOf u d) (UserStatusChanged u Offline))
      st1.
Proof.
  intros Hu. unfold transportClose, catch, onClose.
  rewrite (truthy_nonempty _ Hu). by rewrite presence_run.
Qed.

End Presence.

(** X9. A [user-online] frame with a non-empty id binds the connection to
    that id, registers its socket under the id, and, if a user with the
    id exists, sets the user's status to [online] and the two timestamps
    to the current time (for an unknown id the users table is as before
    and the socket is registered all the same). [user-status-changed]
    is then written once for each contact whose registered socket is
    open, and nothing else is written. *)
Theorem user_online_effect env ws previous u st :
  u ≠ "" →
  let bound := (onMessage env ws previous (UserOnline (Some u)) st).1 in
  let st' := (onMessage env ws previous (UserOnline (Some u)) st).2 in
  bound = Some u
  ∧ clients st' = <[u := ws]> (clients st)
  ∧ sockets st' = sockets st
  ∧ users (db st') = alter (withStatus env Online) u (users (db st))
  ∧ (users (db st) !! u = None → db st' = db st)
  ∧ conversations (db st') = conversations (db st)
  ∧ conversationParticipants (db st') = conversationParticipants (db st)
  ∧ calls (db st') = calls (db st)
  ∧ callParticipants (db st') = callParticipants (db st)
  ∧ outbox st'
    = outbox st
      ++ frames st' (contactsOf u (db st')) (UserStatusChanged u Online).
Proof.
  intros Hu bound st'. subst bound st'. simpl.
  unfold catch, userOnline. rewrite (truthy_nonempty _ Hu).
  rewrite presence_run. simpl.
  do 4 (split; [reflexivity|]). split; [|by repeat split].
  intros Hnone. destruct (db st) as [us cs ps ks kps]. simpl in *.
  unfold with_users. simpl. f_equal.
  apply map_eq. intros k. rewrite lookup_alter. case_decide; [|done].
  subst k. by rewrite Hnone.
Qed.

(** X10. When the transport of a connection bound to a user id closes,
    the entry of the id leaves the registry, the user's status becomes
    [offline] with the current time as last-seen time, and
    [user-status-changed] is written once for each contact whose
    registered socket is open. Nothing is written to the closing socket,
    under whatever id it may still be registered. *)
Theorem close_bound_connection_effect env ws u st :
  u ≠ "" →
  let st' := transportClose env ws (Some u) st in
  clients st' = delete u (clients st)
  ∧ sockets st' = <[ws := CLOSED]> (sockets st)
  ∧ users (db st') = alter (withStatus env Offline) u (users (db st))
  ∧ conversations (db st') = conversations (db st)
  ∧ conversationParticipants (db st') = conversationParticipants (db st)
  ∧ calls (db st') = calls (db st)
  ∧ callParticipants (db st') = callParticipants (db st)
  ∧ ∃ sent,
      outbox st' = outbox st ++ sent
      ∧ sent = frames st' (contactsOf u (db st')) (UserStatusChanged u Offline)
      ∧ ∀ frame, frame ∈ sent → frame.1 ≠ ws.
Proof.
  intros Hu st'. subst st'. unfold transportClose, catch, onClose.
  rewrite (truthy_nonempty _ Hu). rewrite presence_run. simpl.
  do 7 (split; [reflexivity|]).
  eexists. split; [reflexivity|]. split; [reflexivity|].
  intros [sock ev] Hin. simpl. unfold frames in Hin.
  apply list_elem_of_fmap in Hin as (c & [= -> ->] & Hc).
  apply elem_of_recipients in Hc as (_ & _ & _ & Hopen). simpl in Hopen.
  intros ->. by rewrite lookup_insert_eq in Hopen.
Qed.

(** X11. A connection that names a second user id after a first one stays
    registered under the first: its close listener removes the entry of
    the second id only and sets only the second user offline. The entry
    of the first id then points to a closed socket, to which a broadcast
    writes nothing, and the first user keeps the status [online]. *)
Theorem second_binding_leaves_first_entry env1 env2 env3 ws u1 u2 st :
  u1 ≠ "" → u2 ≠ "" → u1 ≠ u2 →
  let first := onMessage env1 ws None (UserOnline (Some u1)) st in
  let second := onMessage env2 ws first.1 (UserOnline (Some u2)) first.2 in
  let closed := transportClose env3 ws second.1 second.2 in
  clients closed !! u1 = Some ws
  ∧ clients closed !! u2 = None
  ∧ sockets closed !! ws = Some CLOSED
  ∧ recipients closed [u1] = []
  ∧ users (db closed) !! u1 = withStatus env1 Online <$> users (db st) !! u1.
Proof.
  intros H1 H2 Hne first second closed. subst first second closed. simpl.
  rewrite (userOnline_run env1 ws u1 st H1).
  rewrite (userOnline_run env2 ws u2 _ H2).
  rewrite (transportClose_run env3 ws u2 _ H2). cbv zeta. simpl.
  assert (delete u2 (<[u2:=ws]> (<[u1:=ws]> (clients st))) !! u1 = Some ws)
    as Hstale.
  { rewrite lookup_delete_ne by done. rewrite lookup_insert_ne by done.
    apply lookup_insert_eq. }
  split; [done|]. split; [apply lookup_delete_eq|].
  split; [apply lookup_insert_eq|]. split.
  - rewrite Hstale, lookup_insert_eq. by rewrite decide_False.
  - rewrite !lookup_alter_ne by done. by rewrite lookup_alter_eq.
Qed.

(* ===================================================================== *)
(** ** What every handler keeps *)
(* ===================================================================== *)

(** A relation between the process before and after a step that holds
    for the steps a handler is made of holds for the handler: the
    handlers are sequences of storage calls, broadcasts and, in the
    presence handlers, one write to the registry. [good] says which
    storage calls keep the relation. *)
Section ServerSteps.

Context (R : relation Server) `{!PreOrder R}.
Context (good : ∀ A, Eff DB A → Prop).
Context (Rstorage : ∀ A (m : Eff DB A), good A m → ∀ st, R st (storage m st).2).
Context (Rsend : ∀ userIds ev st, R st (broadcastToUsers userIds ev st)).

Context (good_getUser : ∀ id, good _ (getUser id)).
Context (good_getCall : ∀ id, good _ (getCall id)).
Context (good_getParticipants : ∀ c, good _ (getParticipants c)).
Context (good_getUserConversations : ∀ u, good _ (getUserConversations u)).
Context (good_updateUserStatus : ∀ env u s, good _ (updateUserStatus env u s)).
Context (good_updateTypingStatus :
           ∀ env c u f, good _ (updateTypingStatus env c u f)).
Context (good_createCall : ∀ env data, good _ (createCall env data)).
Context (good_addCallParticipant :
           ∀ env c u, good _ (addCallParticipant env c u)).
Context (good_updateCall : ∀ id data, good _ (updateCall id data)).
Context (good_updateCallParticipant :
           ∀ c u data, good _ (updateCallParticipant c u data)).

Lemma bind_step {A B} (m : Eff Server A) (k : A → Eff Server B) :
  (∀ st, R st (m st).2) → (∀ a st, R st (k a st).2) →
  ∀ st, R st (bind m k st).2.
Proof.
  intros Hm Hk st. unfold bind. specialize (Hm st).
  destruct (m st) as [[a|e] st1]; simpl in *; [|done].
  by transitivity st1.
Qed.

Lemma ret_step {A} (a : A) st : R st (@ret Server A a st).2.
Proof. reflexivity. Qed.

Lemma broadcast_step userIds ev st :
  R st (modify (broadcastToUsers userIds ev) st).2.
Proof. apply Rsend. Qed.

Lemma broadcastToConversation_step conversationId ev exclude st :
  R st (broadcastToConversation conversationId ev exclude st).2.
Proof.
  unfold broadcastToConversation. revert st.
  apply bind_step; [by apply Rstorage|]. intros ps st. apply broadcast_step.
Qed.

#[local] Ltac step :=
  lazymatch goal with
  | |- R _ (ret _ _).2 => apply ret_step
  | |- R _ (storage _ _).2 => apply Rstorage; auto
  | |- R _ (modify (broadcastToUsers _ _) _).2 => apply broadcast_step
  | |- R _ (broadcastToConversation _ _ _ _).2 =>
      apply broadcastToConversation_step
  | |- R ?st (bind _ _ ?st).2 => revert st; apply bind_step; intros
  | |- R _ ((match ?x with _ => _ end) _).2 => destruct x
  end.

Lemma typing_step env userId conversationId isTyping st :
  R st (catch (typing env userId conversationId isTyping) st).
Proof. unfold catch, typing. repeat step. Qed.

Lemma startCall_step env userId conversationId type st :
  R st (catch (startCall env userId conversationId type) st).
Proof. unfold catch, startCall. repeat step. Qed.

Lemma acceptCall_step env userId callId st :
  R st (catch (acceptCall env userId callId) st).
Proof. unfold catch, acceptCall. repeat step. Qed.

Lemma declineCall_step userId callId st :
  R st (catch (declineCall userId callId) st).
Proof. unfold catch, declineCall. repeat step. Qed.

Lemma endCall_step env userId callId st :
  R st (catch (endCall env userId callId) st).
Proof. unfold catch, endCall. repeat step. Qed.

Lemma toggle_step userId kind payload st :
  R st (catch (toggle userId kind payload) st).
Proof. unfold catch, toggle. repeat step. Qed.

Lemma relay_step userId target body mk st :
  R st (catch (relay userId target body mk) st).
Proof. unfold catch, relay. repeat step. Qed.

(** A frame other than [user-online]. *)
Lemma other_frames_step env ws userId m st :
  (∀ payloadUserId, m ≠ UserOnline payloadUserId) →
  R st (onMessage env ws userId m st).2.
Proof.
  intros Hm. destruct m; simpl;
    auto using typing_step, startCall_step, acceptCall_step, declineCall_step,
      endCall_step, toggle_step, relay_step.
  - by destruct (Hm userId0).
  - reflexivity.
Qed.

Context (Rclients : ∀ f st, R st (with_clients f st)).

Lemma presence_step env u status register st :
  R st ((await _ ← modify (with_clients register);
         await _ ← storage (updateUserStatus env u status);
         await conversations ← storage (getUserConversations u);
         modify (broadcastToUsers (contactIds u conversations)
                   (UserStatusChanged u status))) st).2.
Proof.
  revert st. apply bind_step; [intros st; apply Rclients|]. intros _ st.
  repeat step.
Qed.

Lemma onMessage_step env ws userId m st :
  R st (onMessage env ws userId m st).2.
Proof.
  destruct m as [payloadUserId| | | | | | | | | |];
    try (apply other_frames_step; discriminate).
  simpl. unfold catch, userOnline.
  destruct (truthy payloadUserId); [apply presence_step|reflexivity].
Qed.

Lemma onClose_step env userId st : R st (catch (onClose env userId) st).
Proof.
  unfold catch, onClose.
  destruct (truthy userId); [apply presence_step|reflexivity].
Qed.

Lemma receive_step ws userId frames st :
  R st (receive ws userId frames st).2.
Proof.
  revert userId st. induction frames as [|[env m] rest IH]; intros userId st.
  - reflexivity.
  - simpl. pose proof (onMessage_step env ws userId m st) as Hm.
    destruct (onMessage env ws userId m st) as [userId' st']. simpl in Hm.
    transitivity st'; [done|apply IH].
Qed.

(** The two HTTP handlers. *)
Context (good_findDirectConversation :
           ∀ u1 u2, good _ (findDirectConversation u1 u2)).
Context (good_getConversationWithDetails :
           ∀ id u, good _ (getConversationWithDetails id u)).
Context (good_createConversation :
           ∀ env data ids u, good _ (createConversation env data ids u)).

Lemma respond_step {A} (m : Eff Server (Response A)) :
  (∀ st, R st (m st).2) → ∀ st, R st (respond m st).2.
Proof.
  intros Hm st. unfold respond. specialize (Hm st).
  by destruct (m st) as [[r|e] st'].
Qed.

Lemma postCalls_step env userId conversationId type st :
  R st (postCalls env userId conversationId type st).2.
Proof.
  unfold postCalls. revert st. apply respond_step. intros st. repeat step.
Qed.

Lemma postConversations_step env userId data participantIds st :
  R st (postConversations env userId data participantIds st).2.
Proof.
  unfold postConversations. revert st. apply respond_step. intros st.
  step; [destruct (ic_type data) as [[]|], participantIds as [|? []]|];
    repeat step.
Qed.

End ServerSteps.

#[global] Instance writesToOpenSockets_preorder : PreOrder writesToOpenSockets.
Proof.
  split.
  - intros st. split; [done|]. exists []. by rewrite app_nil_r.
  - intros st1 st2 st3 (Hs12 & sent1 & Ho12 & Hopen1) (Hs23 & sent2 & Ho23 & Hopen2).
    split; [congruence|]. exists (sent1 ++ sent2).
    split; [by rewrite Ho23, Ho12, app_assoc|].
    apply Forall_app. split; [done|]. by rewrite Hs12 in Hopen2.
Qed.

Lemma writesToOpenSockets_db f st : writesToOpenSockets st (with_db f st).
Proof. split; [done|]. exists []. simpl. by rewrite app_nil_r. Qed.

Lemma writesToOpenSockets_clients f st :
  writesToOpenSockets st (with_clients f st).
Proof. split; [done|]. exists []. simpl. by rewrite app_nil_r. Qed.

Lemma writesToOpenSockets_broadcast userIds ev st :
  writesToOpenSockets st (broadcastToUsers userIds ev st).
Proof.
  rewrite broadcastToUsers_frames. split; [done|].
  exists (frames st userIds ev). split; [done|].
  apply Forall_forall. intros [sock e] Hin. simpl.
  apply list_elem_of_fmap in Hin as (c & [= -> ->] & Hc).
  by apply elem_of_recipients in Hc as (_ & _ & _ & Hopen).
Qed.

(** X12. Whatever frames a connection receives, and in whatever state,
    the handlers leave the [readyState] of every socket as it is, only
    add frames to the outbox, and write each added frame to a socket that
    is [OPEN]: a socket that is not open is never written to, whether or
    not the registry still names it. The same holds for the close
    listener, which runs when the closing socket is already [CLOSED]. *)
Theorem frames_are_written_to_open_sockets_only env ws userId frames st :
  writesToOpenSockets st (receive ws userId frames st).2
  ∧ writesToOpenSockets (with_sockets <[ws := CLOSED]> st)
      (transportClose env ws userId st).
Proof.
  split.
  - apply (receive_step writesToOpenSockets (λ _ _, True)); try done.
    + intros A m _ st'. rewrite storage_run. apply writesToOpenSockets_db.
    + apply writesToOpenSockets_broadcast.
    + apply writesToOpenSockets_clients.
  - unfold transportClose.
    apply (onClose_step writesToOpenSockets (λ _ _, True)); try done.
    + intros A m _ st'. rewrite storage_run. apply writesToOpenSockets_db.
    + apply writesToOpenSockets_broadcast.
    + apply writesToOpenSockets_clients.
Qed.

(** X13. The registry is written by [user-online] frames only, and such a
    frame writes one entry: that of the id in its payload, which it
    points to the sending socket, whoever held the entry before. *)
Theorem registry_is_written_by_user_online_only env ws userId m st :
  clients (onMessage env ws userId m st).2
  = match m with
    | UserOnline payloadUserId =>
        match truthy payloadUserId with
        | Some u => <[u := ws]> (clients st)
        | None => clients st
        end
    | _ => clients st
    end.
Proof.
  assert (∀ m', (∀ p, m' ≠ UserOnline p) →
            clients (onMessage env ws userId m' st).2 = clients st) as Hother.
  { intros m' Hm'.
    assert (PreOrder (λ st st' : Server, clients st' = clients st)) as Hpre.
    { split; [by intros ?|]. intros st1 st2 st3 H12 H23. by rewrite H23. }
    apply (@other_frames_step _ Hpre (λ _ _, True)); try done.
    - intros A m0 _ st'. by rewrite storage_run.
    - apply broadcastToUsers_clients. }
  destruct m as [payloadUserId| | | | | | | | | |]; try (by apply Hother).
  simpl. destruct (truthy payloadUserId) as [u|] eqn:Hu.
  - apply truthy_Some in Hu as [-> Hu]. by apply userOnline_clients.
  - unfold catch, userOnline. by rewrite Hu.
Qed.

(** The same, for a relation between the database before and after:
    only the storage calls that write have to keep it. *)
Section DatabaseSteps.

Context (Rd : relation DB) `{!PreOrder Rd}.
Context (Rd_updateUserStatus : ∀ env u s d, Rd d (updateUserStatus env u s d).2).
Context (Rd_updateTypingStatus :
           ∀ env c u f d, Rd d (updateTypingStatus env c u f d).2).
Context (Rd_createCall : ∀ env data d, Rd d (createCall env data d).2).
Context (Rd_addCallParticipant :
           ∀ env c u d, Rd d (addCallParticipant env c u d).2).
Context (Rd_updateCall : ∀ id data d, Rd d (updateCall id data d).2).
Context (Rd_updateCallParticipant :
           ∀ c u data d, Rd d (updateCallParticipant c u data d).2).
Context (Rd_createConversation :
           ∀ env data ids u d, Rd d (createConversation env data ids u d).2).

#[local] Instance lifted_preorder :
  PreOrder (λ st st' : Server, Rd (db st) (db st')).
Proof.
  split; [by intros ?|]. intros st1 st2 st3 H12 H23. by transitivity (db st2).
Qed.

#[local] Abbreviation keeps := (λ A (m : Eff DB A), ∀ d, Rd d (m d).2).

Lemma lifted_storage A (m : Eff DB A) :
  keeps A m → ∀ st, Rd (db st) (db (storage m st).2).
Proof. intros Hm st. rewrite storage_run. apply Hm. Qed.

Lemma lifted_broadcast userIds ev st :
  Rd (db st) (db (broadcastToUsers userIds ev st)).
Proof. by rewrite broadcastToUsers_db. Qed.

Lemma getUserConversations_reads u d : (getUserConversations u d).2 = d.
Proof. by destruct (getUserConversations_run u d) as (rows & -> & _). Qed.

Lemma getConversationWithDetails_reads id u d :
  (getConversationWithDetails id u d).2 = d.
Proof.
  unfold getConversationWithDetails, getConversation, getParticipants, bind, gets.
  simpl. by destruct (conversations d !! id).
Qed.

Lemma database_receive ws userId frames st :
  Rd (db st) (db (receive ws userId frames st).2).
Proof.
  apply (receive_step (λ st st', Rd (db st) (db st')) keeps);
    auto using lifted_storage, lifted_broadcast;
    try (by intros; simpl).
  intros u d. by rewrite getUserConversations_reads.
Qed.

Lemma database_close env ws userId st :
  Rd (db st) (db (transportClose env ws userId st)).
Proof.
  unfold transportClose.
  change (db st) with (db (with_sockets <[ws := CLOSED]> st)).
  generalize (with_sockets <[ws := CLOSED]> st). intros st0.
  apply (onClose_step (λ st st', Rd (db st) (db st')) keeps
           lifted_storage lifted_broadcast);
    auto; try (by intros; simpl).
  intros u d. by rewrite getUserConversations_reads.
Qed.

Lemma database_postCalls env userId conversationId type st :
  Rd (db st) (db (postCalls env userId conversationId type st).2).
Proof.
  apply (postCalls_step (λ st st', Rd (db st) (db st')) keeps
           lifted_storage lifted_broadcast);
    auto; by intros; simpl.
Qed.

Lemma database_postConversations env userId data participantIds st :
  Rd (db st) (db (postConversations env userId data participantIds st).2).
Proof.
  apply (postConversations_step (λ st st', Rd (db st) (db st')) keeps
           lifted_storage lifted_broadcast);
    auto; try (by intros; simpl).
  intros id u d. by rewrite getConversationWithDetails_reads.
Qed.

End DatabaseSteps.

Section CreateConversationSteps.

Context (Rd : relation DB) `{!PreOrder Rd}.
Context (Rd_addParticipant : ∀ env c u r d, Rd d (addParticipant env c u r d).2).
Context (Rd_insert :
           ∀ env creator row d,
             conversations d !! uuid env = None →
             is_Some (users d !! creator) →
             Conversation.createdById row = Some creator →
             Rd d (with_conversations <[uuid env := row]> d)).

Lemma bind_db {A B} (m : Eff DB A) (k : A → Eff DB B) :
  (∀ d, Rd d (m d).2) → (∀ a d, Rd d (k a d).2) → ∀ d, Rd d (bind m k d).2.
Proof.
  intros Hm Hk d. unfold bind. specialize (Hm d).
  destruct (m d) as [[a|e] d1]; simpl in *; [|done].
  by transitivity d1.
Qed.

Lemma forEach_db {A} (xs : list A) (body : A → Eff DB unit) :
  (∀ x d, Rd d (body x d).2) → ∀ d, Rd d (forEach xs body d).2.
Proof.
  intros Hbody. induction xs as [|x xs IH]; intros d; simpl; [reflexivity|].
  revert d. apply bind_db; [apply Hbody|]. intros _. apply IH.
Qed.

Lemma createConversation_db env data participantIds creatorId d :
  Rd d (createConversation env data participantIds creatorId d).2.
Proof.
  unfold createConversation. revert d. apply bind_db.
  - intros d. destruct (conversations d !! uuid env) eqn:Hfresh; [reflexivity|].
    destruct (users d !! creatorId) eqn:Hcreator; [|reflexivity].
    simpl. by eapply Rd_insert.
  - intros conversation. apply bind_db; [intros d; apply Rd_addParticipant|].
    intros _. apply bind_db; [|by intros ? ?].
    apply forEach_db. intros x d. case_decide; [|reflexivity].
    revert d. apply bind_db; [intros d; apply Rd_addParticipant|by intros ? ?].
Qed.

End CreateConversationSteps.

Section CallsOnlyGrow.

#[global] Instance callsOnlyGrow_preorder : PreOrder callsOnlyGrow.
Proof.
  split.
  - intros d. split; [intros k c Hc|intros i p Hp]; eexists; eauto.
  - intros d1 d2 d3 [Hc12 Hp12] [Hc23 Hp23]. split.
    + intros k c Hc. destruct (Hc12 k c Hc) as (c2 & H2 & ? & ?).
      destruct (Hc23 k c2 H2) as (c3 & H3 & ? & ?).
      exists c3. repeat split; congruence.
    + intros i p Hp. destruct (Hp12 i p Hp) as (p2 & H2 & ? & ?).
      destruct (Hp23 i p2 H2) as (p3 & H3 & ? & ?).
      exists p3. repeat split; congruence.
Qed.

Lemma callsOnlyGrow_same d d' :
  calls d' = calls d → callParticipants d' = callParticipants d →
  callsOnlyGrow d d'.
Proof.
  intros Hc Hp. unfold callsOnlyGrow. rewrite Hc, Hp.
  split; [intros k c Hk|intros i p Hi]; eexists; eauto.
Qed.

Lemma callsOnlyGrow_createCall env data d :
  callsOnlyGrow d (createCall env data d).2.
Proof.
  unfold createCall.
  destruct (calls d !! uuid env) eqn:Hfresh; [reflexivity|].
  destruct (users d !! in_initiatorId data); [|reflexivity].
  destruct (conversationExists d (in_conversationId data)); [|reflexivity].
  simpl. split; [|intros i p Hp; by exists p].
  intros k c Hc. exists c. split; [|done]. unfold with_calls. simpl.
  rewrite lookup_insert_ne; [done|]. intros <-. congruence.
Qed.

Lemma callsOnlyGrow_addCallParticipant env c u d :
  callsOnlyGrow d (addCallParticipant env c u d).2.
Proof.
  unfold addCallParticipant.
  destruct (calls d !! c); [|reflexivity].
  destruct (users d !! u); [|reflexivity].
  simpl. split; [intros k c0 Hc; by exists c0|].
  intros i p Hp. exists p. split; [|done]. unfold with_callParticipants.
  simpl. by apply lookup_app_l_Some.
Qed.

Lemma callsOnlyGrow_updateCall id data d :
  callsOnlyGrow d (updateCall id data d).2.
Proof.
  unfold updateCall.
  assert (callsOnlyGrow d
            (if match p_duration data with Some n => int4 n | None => true end
             then match calls d !! id with
                  | Some c => (Returned (Some (id, applyCallPatch data c)),
                               with_calls <[id := applyCallPatch data c]> d)
                  | None => (Returned None, d)
                  end
             else (Thrown IntegerOutOfRange, d)).2) as Hmain.
  { destruct (match p_duration data with Some n => int4 n | None => true end);
      [|reflexivity].
    destruct (calls d !! id) as [c|] eqn:Hc; [|reflexivity].
    simpl. split; [|intros i p Hp; by exists p].
    intros k c0 Hc0. unfold with_calls. simpl.
    destruct (decide (k = id)) as [->|Hne].
    - rewrite lookup_insert_eq. eexists. split; [done|].
      rewrite Hc in Hc0. injection Hc0 as <-. done.
    - rewrite lookup_insert_ne by done. by exists c0. }
  destruct data as [[] [] [] []]; try exact Hmain. reflexivity.
Qed.

Lemma callsOnlyGrow_updateCallParticipant c u data d :
  callsOnlyGrow d (updateCallParticipant c u data d).2.
Proof.
  unfold updateCallParticipant.
  destruct (isUndefined (m_isMuted data) && isUndefined (m_isVideoOff data)
            && isUndefined (m_isScreenSharing data)); [reflexivity|].
  simpl. split; [intros k c0 Hc; by exists c0|].
  intros i p Hp. unfold with_callParticipants. simpl.
  rewrite list_lookup_fmap, Hp. simpl.
  eexists. split; [done|]. by case_decide.
Qed.

End CallsOnlyGrow.

(** X14. No handler removes a call or a call participant: after any
    frames of a connection, after its close, and after either of the two
    HTTP handlers, every call that was stored is still stored under its
    id, with its conversation and initiator, and every participant row
    is still at its place, for the same call and user. *)
Theorem calls_and_participants_are_never_removed
    env ws userId frames u conversationId type data participantIds st :
  callsOnlyGrow (db st) (db (receive ws userId frames st).2)
  ∧ callsOnlyGrow (db st) (db (transportClose env ws userId st))
  ∧ callsOnlyGrow (db st) (db (postCalls env u conversationId type st).2)
  ∧ callsOnlyGrow (db st)
      (db (postConversations env u data participantIds st).2).
Proof.
  assert (∀ env data ids u d,
            callsOnlyGrow d (createConversation env data ids u d).2) as Hcreate.
  { intros. apply (createConversation_db callsOnlyGrow).
    - intros env' c u' r d'. unfold addParticipant.
      destruct (conversations d' !! c), (users d' !! u'); simpl;
        solve [reflexivity | by apply callsOnlyGrow_same].
    - intros. by apply callsOnlyGrow_same. }
  assert (∀ env u s d, callsOnlyGrow d (updateUserStatus env u s d).2) as Hstatus.
  { intros. by apply callsOnlyGrow_same. }
  assert (∀ env c u f d, callsOnlyGrow d (updateTypingStatus env c u f d).2)
    as Htyping.
  { intros. by apply callsOnlyGrow_same. }
  split; [|split; [|split]].
  - apply (database_receive callsOnlyGrow);
      auto using callsOnlyGrow_createCall, callsOnlyGrow_addCallParticipant,
        callsOnlyGrow_updateCall, callsOnlyGrow_updateCallParticipant.
  - apply (database_close callsOnlyGrow);
      auto using callsOnlyGrow_createCall, callsOnlyGrow_addCallParticipant,
        callsOnlyGrow_updateCall, callsOnlyGrow_updateCallParticipant.
  - apply (database_postCalls callsOnlyGrow);
      auto using callsOnlyGrow_createCall, callsOnlyGrow_addCallParticipant,
        callsOnlyGrow_updateCall, callsOnlyGrow_updateCallParticipant.
  - apply (database_postConversations callsOnlyGrow);
      auto using callsOnlyGrow_createCall, callsOnlyGrow_addCallParticipant,
        callsOnlyGrow_updateCall, callsOnlyGrow_updateCallParticipant.
Qed.

Section ForeignKeys.

#[local] Abbreviation okMember d p :=
  (is_Some (conversations d !! ConversationParticipant.conversationId p)
   ∧ is_Some (users d !! ConversationParticipant.userId p)).
#[local] Abbreviation okJoined d p :=
  (is_Some (calls d !! CallParticipant.callId p)
   ∧ is_Some (users d !! CallParticipant.userId p)).
#[local] Abbreviation okCall d c :=
  (is_Some (users d !! Call.initiatorId c)
   ∧ ∀ conversationId, Call.conversationId c = Some conversationId →
                       is_Some (conversations d !! conversationId)).
#[local] Abbreviation okConversation d c :=
  (∀ creator, Conversation.createdById c = Some creator →
              is_Some (users d !! creator)).

(** The keys hold after a write that removes no user, conversation or
    call, if each row after the write either has the keys of a row of
    before or has keys that resolve. *)
Lemma foreignKeys_after d d' :
  foreignKeysHold d →
  (∀ k, is_Some (users d !! k) → is_Some (users d' !! k)) →
  (∀ k, is_Some (conversations d !! k) → is_Some (conversations d' !! k)) →
  (∀ k, is_Some (calls d !! k) → is_Some (calls d' !! k)) →
  (∀ p, p ∈ conversationParticipants d' →
     okMember d' p
     ∨ ∃ q, q ∈ conversationParticipants d
            ∧ ConversationParticipant.conversationId q
              = ConversationParticipant.conversationId p
            ∧ ConversationParticipant.userId q = ConversationParticipant.userId p) →
  (∀ p, p ∈ callParticipants d' →
     okJoined d' p
     ∨ ∃ q, q ∈ callParticipants d
            ∧ CallParticipant.callId q = CallParticipant.callId p
            ∧ CallParticipant.userId q = CallParticipant.userId p) →
  (∀ k c, calls d' !! k = Some c →
     okCall d' c
     ∨ ∃ k0 c0, calls d !! k0 = Some c0
                ∧ Call.initiatorId c0 = Call.initiatorId c
                ∧ Call.conversationId c0 = Call.conversationId c) →
  (∀ k c, conversations d' !! k = Some c →
     okConversation d' c
     ∨ ∃ k0 c0, conversations d !! k0 = Some c0
                ∧ Conversation.createdById c0 = Conversation.createdById c) →
  foreignKeysHold d'.
Proof.
  intros (Hm & Hj & Hc & Hv) Hus Hcs Hks Hm' Hj' Hc' Hv'.
  rewrite Forall_forall in Hm. rewrite Forall_forall in Hj.
  split; [|split; [|split]].
  - apply Forall_forall. intros p Hp.
    destruct (Hm' p Hp) as [?|(q & Hq & Heq1 & Heq2)]; [done|].
    destruct (Hm q Hq) as [H1 H2]. rewrite <- Heq1, <- Heq2. auto.
  - apply Forall_forall. intros p Hp.
    destruct (Hj' p Hp) as [?|(q & Hq & Heq1 & Heq2)]; [done|].
    destruct (Hj q Hq) as [H1 H2]. rewrite <- Heq1, <- Heq2. auto.
  - intros k c Hk.
    destruct (Hc' k c Hk) as [?|(k0 & c0 & H0 & Heq1 & Heq2)]; [done|].
    destruct (Hc k0 c0 H0) as [H1 H2]. rewrite <- Heq1, <- Heq2. split; auto.
  - intros k c Hk.
    destruct (Hv' k c Hk) as [?|(k0 & c0 & H0 & Heq)]; [done|].
    pose proof (Hv k0 c0 H0) as H1. simpl in H1. rewrite <- Heq. auto.
Qed.

#[local] Abbreviation keepsKeys d d' := (foreignKeysHold d → foreignKeysHold d').

#[global] Instance keepsKeys_preorder :
  PreOrder (λ d d', foreignKeysHold d → foreignKeysHold d').
Proof. split; [by intros ?|]. intros d1 d2 d3 H12 H23 H. auto. Qed.

#[local] Ltac same_rows :=
  intros;
  first [ right; eexists; split; [eassumption|done]
        | right; do 2 eexists; split; [eassumption|done] ].

Lemma keys_updateUserStatus env u s d :
  keepsKeys d (updateUserStatus env u s d).2.
Proof.
  intros H. apply (foreignKeys_after d); try done; try same_rows.
  intros k. unfold updateUserStatus, modify, with_users. simpl.
  rewrite lookup_alter. case_decide; [subst k|done]. by rewrite fmap_is_Some.
Qed.

Lemma keys_updateTypingStatus env c u f d :
  keepsKeys d (updateTypingStatus env c u f d).2.
Proof.
  intros H. apply (foreignKeys_after d); try done; try same_rows.
  intros p Hp. right. unfold updateTypingStatus, modify in Hp. simpl in Hp.
  apply list_elem_of_fmap in Hp as (q & -> & Hq).
  exists q. split; [done|]. by case_decide.
Qed.

Lemma keys_addParticipant env c u r d :
  keepsKeys d (addParticipant env c u r d).2.
Proof.
  intros H. unfold addParticipant.
  destruct (conversations d !! c) eqn:Hc; [|done].
  destruct (users d !! u) eqn:Hu; [|done]. simpl.
  apply (foreignKeys_after d); try done; try same_rows.
  simpl. intros p [Hp|Hp]%elem_of_app.
  - right. by exists p.
  - apply list_elem_of_singleton in Hp as ->.
    left. simpl. rewrite Hc, Hu. split; by eexists.
Qed.

Lemma keys_insertConversation env creator row d :
  conversations d !! uuid env = None →
  is_Some (users d !! creator) →
  Conversation.createdById row = Some creator →
  keepsKeys d (with_conversations <[uuid env := row]> d).
Proof.
  intros Hfresh Hcreator Hrow H.
  apply (foreignKeys_after d); try done; try same_rows; simpl.
  - intros k Hk. rewrite lookup_insert. case_decide; [by eexists|done].
  - intros k c. rewrite lookup_insert. case_decide.
    + intros [= <-]. left. intros creator'. rewrite Hrow. by intros [= <-].
    + intros Hk. right. by exists k, c.
Qed.

Lemma keys_createCall env data d : keepsKeys d (createCall env data d).2.
Proof.
  intros H. unfold createCall.
  destruct (calls d !! uuid env) eqn:Hfresh; [done|].
  destruct (users d !! in_initiatorId data) eqn:Hu; [|done].
  destruct (conversationExists d (in_conversationId data)) eqn:Hconv; [|done].
  simpl. apply (foreignKeys_after d); try done; try same_rows; simpl.
  - intros k Hk. rewrite lookup_insert. case_decide; [by eexists|done].
  - intros k c. rewrite lookup_insert. case_decide.
    + intros [= <-]. left. simpl. rewrite Hu. split; [by eexists|].
      intros conv Heq. rewrite Heq in Hconv. simpl in Hconv.
      by apply bool_decide_eq_true in Hconv.
    + intros Hk. right. by exists k, c.
Qed.

Lemma keys_addCallParticipant env c u d :
  keepsKeys d (addCallParticipant env c u d).2.
Proof.
  intros H. unfold addCallParticipant.
  destruct (calls d !! c) eqn:Hc; [|done].
  destruct (users d !! u) eqn:Hu; [|done]. simpl.
  apply (foreignKeys_after d); try done; try same_rows.
  simpl. intros p [Hp|Hp]%elem_of_app.
  - right. by exists p.
  - apply list_elem_of_singleton in Hp as ->.
    left. simpl. rewrite Hc, Hu. split; by eexists.
Qed.

Lemma keys_updateCall id data d : keepsKeys d (updateCall id data d).2.
Proof.
  intros H. unfold updateCall.
  assert (foreignKeysHold
            (if match p_duration data with Some n => int4 n | None => true end
             then match calls d !! id with
                  | Some c => (Returned (Some (id, applyCallPatch data c)),
                               with_calls <[id := applyCallPatch data c]> d)
                  | None => (Returned None, d)
                  end
             else (Thrown IntegerOutOfRange, d)).2) as Hmain.
  { destruct (match p_duration data with Some n => int4 n | None => true end);
      [|done].
    destruct (calls d !! id) as [c|] eqn:Hc; [|done]. simpl.
    apply (foreignKeys_after d); try done; try same_rows; simpl.
    - intros k Hk. rewrite lookup_insert. case_decide; [by eexists|done].
    - intros k c'. rewrite lookup_insert. case_decide.
      + intros [= <-]. right. by exists id, c.
      + intros Hk. right. by exists k, c'. }
  destruct data as [[] [] [] []]; try exact Hmain. done.
Qed.

Lemma keys_updateCallParticipant c u data d :
  keepsKeys d (updateCallParticipant c u data d).2.
Proof.
  intros H. unfold updateCallParticipant.
  destruct (isUndefined (m_isMuted data) && isUndefined (m_isVideoOff data)
            && isUndefined (m_isScreenSharing data)); [done|].
  simpl. apply (foreignKeys_after d); try done; try same_rows.
  simpl. intros p Hp. right.
  apply list_elem_of_fmap in Hp as (q & -> & Hq).
  exists q. split; [done|]. by case_decide.
Qed.

Lemma keys_createConversation env data ids u d :
  keepsKeys d (createConversation env data ids u d).2.
Proof.
  apply (createConversation_db (λ d d', foreignKeysHold d → foreignKeysHold d')).
  - apply keys_addParticipant.
  - apply keys_insertConversation.
Qed.

End ForeignKeys.

(** X15. The handlers keep the foreign keys of the schema: if every
    participant row names an existing conversation and user, every call
    an existing initiator and (when it has one) conversation, every call
    participant an existing call and user, and every conversation an
    existing creator, then the same holds after any frames of a
    connection, after its close, and after either of the two HTTP
    handlers, whether they succeed or fail part of the way. *)
Theorem foreign_keys_are_kept
    env ws userId frames u conversationId type data participantIds st :
  foreignKeysHold (db st) →
  foreignKeysHold (db (receive ws userId frames st).2)
  ∧ foreignKeysHold (db (transportClose env ws userId st))
  ∧ foreignKeysHold (db (postCalls env u conversationId type st).2)
  ∧ foreignKeysHold (db (postConversations env u data participantIds st).2).
Proof.
  intros H. split; [|split; [|split]]; revert H.
  - apply (database_receive (λ d d', foreignKeysHold d → foreignKeysHold d'));
      auto using keys_updateUserStatus, keys_updateTypingStatus, keys_createCall,
        keys_addCallParticipant, keys_updateCall, keys_updateCallParticipant.
  - apply (database_close (λ d d', foreignKeysHold d → foreignKeysHold d'));
      auto using keys_updateUserStatus, keys_updateTypingStatus, keys_createCall,
        keys_addCallParticipant, keys_updateCall, keys_updateCallParticipant.
  - apply (database_postCalls (λ d d', foreignKeysHold d → foreignKeysHold d'));
      auto using keys_updateUserStatus, keys_updateTypingStatus, keys_createCall,
        keys_addCallParticipant, keys_updateCall, keys_updateCallParticipant.
  - apply (database_postConversations
             (λ d d', foreignKeysHold d → foreignKeysHold d'));
      auto using keys_updateUserStatus, keys_updateTypingStatus, keys_createCall,
        keys_addCallParticipant, keys_updateCall, keys_updateCallParticipant,
        keys_createConversation.
Qed.

(* ===================================================================== *)
(** ** How the handlers compose *)
(* ===================================================================== *)

Section Composition.

Lemma startCall_run env u conv type usr cv st :
  u ≠ "" → conv ≠ "" →
  users (db st) !! u = Some usr →
  conversations (db st) !! conv = Some cv →
  calls (db st) !! uuid env = None →
  catch (startCall env (Some u) (Some conv) type) st
  = mkServer (clients st) (sockets st)
      (mkDB (users (db st)) (conversations (db st))
         (conversationParticipants (db st))
         (<[uuid env := Call.mk (Some conv) u (default Voice type) Initiated
                           None None None (Some (now env))]> (calls (db st)))
         (callParticipants (db st)
          ++ [CallParticipant.mk (uuid env) u (Some (now env)) None
                (Some false) (Some false) (Some false)]))
      (outbox st
       ++ frames st (filter (λ id, Some id ≠ Some u) (memberIds conv (db st)))
            (IncomingCall
               (uuid env, Call.mk (Some conv) u (default Voice type) Initiated
                            None None None (Some (now env)))
               (Some (u, usr)))).
Proof.
  intros Hu Hconv Husr Hcv Hfresh.
  rewrite <- (startCall_same_state env u conv type st Hu Hconv).
  by rewrite (postCalls_run env u conv type usr cv st Husr Hcv Hfresh).
Qed.

End Composition.

(** X16. A call from start to end. User [a] starts a call in a
    conversation over the live connection, user [b] accepts it at time
    [t1] and [a] ends it at time [t2]: the call is stored once, with
    status [ended], [startedAt] [t1], [endedAt] [t2] and the whole
    seconds between the two as duration; its participant rows are those
    of [a] and [b], in that order; and the connected members were sent
    [incoming-call] (all but [a]), then [call-accepted], then
    [call-ended] with that duration and [a] as the one who ended. *)
Theorem call_from_start_to_end
    env0 env1 env2 wsA wsB a b conv type usrA usrB cv st :
  a ≠ "" → b ≠ "" → conv ≠ "" → uuid env0 ≠ "" →
  users (db st) !! a = Some usrA →
  users (db st) !! b = Some usrB →
  conversations (db st) !! conv = Some cv →
  calls (db st) !! uuid env0 = None →
  int4 ((now env2 - now env1) `div` 1000) = true →
  let s1 := (onMessage env0 wsA (Some a) (StartCall (Some conv) type) st).2 in
  let s2 := (onMessage env1 wsB (Some b) (AcceptCall (Some (uuid env0))) s1).2 in
  let s3 := (onMessage env2 wsA (Some a) (EndCall (Some (uuid env0))) s2).2 in
  let duration := (now env2 - now env1) `div` 1000 in
  let members := memberIds conv (db st) in
  calls (db s3)
  = <[uuid env0 := Call.mk (Some conv) a (default Voice type) Ended
                     (Some (now env1)) (Some (now env2)) (Some duration)
                     (Some (now env0))]> (calls (db st))
  ∧ callParticipants (db s3)
    = callParticipants (db st)
      ++ [CallParticipant.mk (uuid env0) a (Some (now env0)) None
            (Some false) (Some false) (Some false);
          CallParticipant.mk (uuid env0) b (Some (now env1)) None
            (Some false) (Some false) (Some false)]
  ∧ outbox s3
    = outbox st
      ++ frames st (filter (λ id, Some id ≠ Some a) members)
           (IncomingCall
              (uuid env0, Call.mk (Some conv) a (default Voice type) Initiated
                            None None None (Some (now env0)))
              (Some (a, usrA)))
      ++ frames st members (CallAccepted (uuid env0) b)
      ++ frames st members (CallEnded (uuid env0) a duration).
Proof.
  intros Ha Hb Hconv Hid HusrA HusrB Hcv Hfresh Hrange s1 s2 s3 duration members.
  subst s1 s2 s3 duration members. simpl.
  rewrite (startCall_run env0 a conv type usrA cv st Ha Hconv HusrA Hcv Hfresh).
  erewrite (acceptCall_run env1 b (uuid env0) _ usrB);
    [|done|done|apply lookup_insert_eq|exact HusrB].
  erewrite (endCall_run env2 a (uuid env0));
    [|done|done|apply lookup_insert_eq|exact Hrange].
  destruct conv as [|ch rest]; [done|]. simpl.
  rewrite !insert_insert_eq, <- !app_assoc. done.
Qed.

(* ===================================================================== *)
(** ** Conversations *)
(* ===================================================================== *)

Section CreateConversation.

Context (env : Env) (creatorId : string).

#[local] Abbreviation addOthers := (λ participantId : string,
  if decide (participantId ≠ creatorId)
  then await _ ← addParticipant env (uuid env) participantId Member; ret tt
  else ret tt).

(** The loop over the listed ids, all of them existing users. *)
Lemma addOthers_all participantIds d :
  is_Some (conversations d !! uuid env) →
  Forall (λ p, is_Some (users d !! p)) participantIds →
  forEach participantIds addOthers d
  = (Returned tt,
     with_conversationParticipants
       (λ rows, rows ++ map (newMember env)
                          (filter (λ p, p ≠ creatorId) participantIds)) d).
Proof.
  intros Hconv Hall. revert d Hconv Hall.
  induction participantIds as [|p ps IH]; intros d [cv Hcv] Hall.
  - simpl. unfold ret. f_equal. destruct d; unfold with_conversationParticipants.
    simpl. by rewrite app_nil_r.
  - apply Forall_cons in Hall as [[usr Hp] Hall]. simpl. unfold bind at 1.
    rewrite filter_cons. destruct (decide (p ≠ creatorId)) as [Hne|Heq].
    + unfold bind at 1, addParticipant. rewrite Hcv, Hp. simpl.
      rewrite IH; [|by eexists|done]. f_equal.
      unfold with_conversationParticipants. simpl. by rewrite <- app_assoc.
    + simpl. by rewrite IH; [|eexists|].
Qed.

(** The loop stops at the first listed id, other than the creator's, that
    is not a user; the rows added before it stay. *)
Lemma addOthers_unknown before unknown after d :
  is_Some (conversations d !! uuid env) →
  Forall (λ p, is_Some (users d !! p)) before →
  unknown ≠ creatorId → users d !! unknown = None →
  forEach (before ++ unknown :: after) addOthers d
  = (Thrown ForeignKeyViolation,
     with_conversationParticipants
       (λ rows, rows ++ map (newMember env)
                          (filter (λ p, p ≠ creatorId) before)) d).
Proof.
  intros Hconv Hall Hne Hnone. revert d Hconv Hall Hnone.
  induction before as [|p ps IH]; intros d [cv Hcv] Hall Hnone.
  - simpl. unfold bind at 1. rewrite decide_True by done.
    unfold bind at 1, addParticipant. rewrite Hcv, Hnone. simpl.
    f_equal. destruct d; unfold with_conversationParticipants.
    simpl. by rewrite app_nil_r.
  - apply Forall_cons in Hall as [[usr Hp] Hall]. simpl. unfold bind at 1.
    rewrite filter_cons. destruct (decide (p ≠ creatorId)) as [Hp'|Heq].
    + unfold bind at 1, addParticipant. rewrite Hcv, Hp. simpl.
      rewrite IH; [|by eexists|done|done]. f_equal.
      unfold with_conversationParticipants. simpl. by rewrite <- app_assoc.
    + simpl. by rewrite IH; [|eexists| |].
Qed.

Context (data : InsertConversation) (d : DB).
Context (Hfresh : conversations d !! uuid env = None).
Context (Hcreator : is_Some (users d !! creatorId)).

Lemma createConversation_all participantIds :
  Forall (λ p, is_Some (users d !! p)) participantIds →
  createConversation env data participantIds creatorId d
  = (Returned (uuid env, createdConversation env data creatorId),
     mkDB (users d)
          (<[uuid env := createdConversation env data creatorId]> (conversations d))
          (conversationParticipants d
           ++ createdRows env data participantIds creatorId)
          (calls d) (callParticipants d)).
Proof.
  intros Hall. destruct Hcreator as [usr Husr].
  unfold createConversation, bind at 1. rewrite Hfresh, Husr.
  unfold bind at 1, addParticipant. simpl.
  rewrite lookup_insert_eq, Husr. simpl. unfold bind at 1.
  rewrite addOthers_all; [|simpl; rewrite lookup_insert_eq; by eexists|done].
  simpl. unfold ret. f_equal. unfold with_conversationParticipants. simpl.
  f_equal. rewrite <- app_assoc. done.
Qed.

Lemma createConversation_unknown before unknown after :
  Forall (λ p, is_Some (users d !! p)) before →
  unknown ≠ creatorId → users d !! unknown = None →
  createConversation env data (before ++ unknown :: after) creatorId d
  = (Thrown ForeignKeyViolation,
     mkDB (users d)
          (<[uuid env := createdConversation env data creatorId]> (conversations d))
          (conversationParticipants d
           ++ createdRows env data before creatorId)
          (calls d) (callParticipants d)).
Proof.
  intros Hall Hne Hnone. destruct Hcreator as [usr Husr].
  unfold createConversation, bind at 1. rewrite Hfresh, Husr.
  unfold bind at 1, addParticipant. simpl.
  rewrite lookup_insert_eq, Husr. simpl. unfold bind at 1.
  rewrite addOthers_unknown;
    [|simpl; rewrite lookup_insert_eq; by eexists|done|done|done].
  f_equal. unfold with_conversationParticipants. simpl.
  f_equal. rewrite <- app_assoc. done.
Qed.

End CreateConversation.

Section PostConversationsCreate.

#[local] Opaque broadcastToUsers.

Lemma postConversations_skips_lookup env userId data participantIds st :
  findsNoDirect userId data participantIds (db st) →
  postConversations env userId data participantIds st
  = respond (
      await conversation ← storage (createConversation env data participantIds userId);
      await details ← storage (getConversationWithDetails (id conversation) userId);
      await _ ← modify (broadcastToUsers participantIds (NewConversation details));
      ret (Json 201 details)) st.
Proof.
  intros Hnone. unfold postConversations, respond, findsNoDirect in *.
  unfold bind at 1.
  destruct (ic_type data) as [[]|]; [destruct participantIds as [|p []]| |];
    try (simpl; by rewrite with_db_same || done).
  rewrite storage_run. unfold findDirectConversation, gets. simpl.
  by rewrite Hnone, with_db_same.
Qed.

End PostConversationsCreate.

(** X17. A creation request that finds no direct conversation, made by an
    existing user and listing existing users, answers 201 and stores one
    conversation under the generated id (of type [direct] when no type
    is given), with a row for the creator (owner of a group, member
    otherwise) followed by a member row for each listed id other than
    the creator's, in the order listed. [new-conversation] is written
    for the listed ids as they are listed; the creator gets it only if
    listed. *)
Theorem conversation_creation_effect env userId data participantIds st :
  findsNoDirect userId data participantIds (db st) →
  conversations (db st) !! uuid env = None →
  is_Some (users (db st) !! userId) →
  Forall (λ p, is_Some (users (db st) !! p)) participantIds →
  let d' := withNewConversation env data participantIds userId (db st) in
  let details := mkDetails (uuid env, createdConversation env data userId)
                   (joinUsers d' (participantsOf (uuid env) d')) in
  postConversations env userId data participantIds st
  = (Json 201 (Some details),
     mkServer (clients st) (sockets st) d'
       (outbox st ++ frames st participantIds (NewConversation (Some details)))).
Proof.
  intros Hnone Hfresh Hcreator Hall d' details. subst d' details.
  rewrite (postConversations_skips_lookup _ _ _ _ _ Hnone).
  unfold respond, bind at 1. rewrite storage_run.
  rewrite (createConversation_all env userId data (db st) Hfresh Hcreator _ Hall).
  cbn [fst snd]. unfold bind at 1. rewrite storage_run.
  unfold getConversationWithDetails, getConversation, getParticipants, bind, gets.
  simpl. rewrite lookup_insert_eq. simpl.
  unfold modify. simpl. rewrite broadcastToUsers_frames. reflexivity.
Qed.

(** X18. A creation is not undone when it fails. If a listed id (other
    than the creator's) is not a user, the request is answered 500 and
    nothing is sent, yet the conversation and the rows of the creator
    and of the ids listed before the unknown one stay in the database. *)
Theorem failed_creation_leaves_conversation
    env userId data before unknown after st :
  findsNoDirect userId data (before ++ unknown :: after) (db st) →
  conversations (db st) !! uuid env = None →
  is_Some (users (db st) !! userId) →
  Forall (λ p, is_Some (users (db st) !! p)) before →
  unknown ≠ userId → users (db st) !! unknown = None →
  postConversations env userId data (before ++ unknown :: after) st
  = (Failed 500,
     mkServer (clients st) (sockets st)
       (withNewConversation env data before userId (db st)) (outbox st)).
Proof.
  intros Hnone Hfresh Hcreator Hall Hne Hunknown.
  rewrite (postConversations_skips_lookup _ _ _ _ _ Hnone).
  unfold respond, bind at 1. rewrite storage_run.
  by rewrite (createConversation_unknown env userId data (db st) Hfresh Hcreator
                _ _ after Hall Hne Hunknown).
Qed.

Section FindDirect.

Lemma isDirectPair_true d c :
  isDirectPair d c = true ↔
  ∃ conv, conversations d !! c = Some conv
          ∧ Conversation.type conv = Direct
          ∧ length (participantsOf c d) = 2%nat.
Proof.
  unfold isDirectPair. destruct (conversations d !! c) as [conv|]; split.
  - intros [Ht Hl]%andb_true_iff. exists conv.
    by apply bool_decide_eq_true in Ht, Hl.
  - intros (conv' & [= <-] & Ht & Hl).
    by rewrite (bool_decide_eq_true_2 _ Ht), (bool_decide_eq_true_2 _ Hl).
  - done.
  - by intros (conv & ? & _).
Qed.

(** Two rows, one of each of two different users. *)
Lemma two_rows_two_users (ids : list string) u1 u2 :
  length ids = 2%nat → u1 ∈ ids → u2 ∈ ids → u1 ≠ u2 → ids ≡ₚ [u1; u2].
Proof.
  destruct ids as [|a [|b [|]]]; try done. intros _ H1 H2 Hne.
  apply elem_of_cons in H1 as [->|H1%list_elem_of_singleton];
    apply elem_of_cons in H2 as [->|H2%list_elem_of_singleton];
    subst; try done. apply Permutation_swap.
Qed.

Lemma conversationsOf_participantsOf c u d :
  c ∈ conversationsOf u d ↔
  u ∈ map ConversationParticipant.userId (participantsOf c d).
Proof.
  rewrite elem_of_conversationsOf, list_elem_of_fmap. unfold participantsOf.
  split.
  - intros (p & Hp & Hu & Hc). exists p. split; [done|].
    by apply list_elem_of_filter.
  - intros (p & -> & [Hc Hp]%list_elem_of_filter). by exists p.
Qed.

End FindDirect.

(** X19. [findDirectConversation] never throws and writes nothing. When
    it answers with a conversation, that conversation is stored, is of
    type [direct], has exactly two participant rows and both users have
    a row in it, so that for two different users its rows are one of
    each; it is the first such conversation in the order of the first
    user's rows. It answers with none exactly when there is no such
    conversation, and so it finds one for a pair exactly when it finds
    one for the pair in the other order. *)
Theorem find_direct_conversation_answer userId1 userId2 d :
  ∃ r r',
    findDirectConversation userId1 userId2 d = (Returned r, d)
    ∧ findDirectConversation userId2 userId1 d = (Returned r', d)
    ∧ (is_Some r ↔ is_Some r')
    ∧ (r = None ↔ directPairs userId1 userId2 d = [])
    ∧ ∀ c conv, r = Some (c, conv) →
        conversations d !! c = Some conv
        ∧ Conversation.type conv = Direct
        ∧ length (participantsOf c d) = 2%nat
        ∧ c ∈ conversationsOf userId1 d
        ∧ c ∈ conversationsOf userId2 d
        ∧ head (directPairs userId1 userId2 d) = Some c
        ∧ (userId1 ≠ userId2 →
           map ConversationParticipant.userId (participantsOf c d)
           ≡ₚ [userId1; userId2]).
Proof.
  unfold findDirectConversation, gets.
  exists (firstDirectPair d (commonIds userId1 userId2 d)),
         (firstDirectPair d (commonIds userId2 userId1 d)).
  do 2 (split; [done|]).
  assert (∀ u1 u2, firstDirectPair d (commonIds u1 u2 d) = None ↔
                   directPairs u1 u2 d = []) as Hnone.
  { intros u1 u2. split; [apply findDirect_None|].
    intros Hempty.
    destruct (firstDirectPair d (commonIds u1 u2 d)) as [r|] eqn:Hr; [|done].
    apply findDirect_Some in Hr as [Hin _]. rewrite Hempty in Hin.
    by apply elem_of_nil in Hin. }
  split; [|split; [apply Hnone|]].
  - rewrite <- !not_eq_None_Some, !Hnone.
    assert (∀ u1 u2, directPairs u1 u2 d = [] → directPairs u2 u1 d = []) as Hsym.
    { intros u1 u2 Hempty. apply elem_of_nil_inv. intros c Hc.
      apply directPairs_symmetric in Hc. rewrite Hempty in Hc.
      by apply elem_of_nil in Hc. }
    split; intros Hne Hempty; apply Hne; by apply Hsym.
  - intros c conv Hr.
    pose proof Hr as [Hin Hconv]%findDirect_Some.
    unfold id in Hin, Hconv. simpl in Hin, Hconv.
    pose proof Hin as (H1 & H2 & Hpair)%elem_of_directPairs.
    apply isDirectPair_true in Hpair as (conv' & Hconv' & Htype & Hlen).
    rewrite Hconv in Hconv'. injection Hconv' as <-.
    do 5 (split; [done|]). split.
    + rewrite firstDirectPair_head in Hr. fold (directPairs userId1 userId2 d) in Hr.
      destruct (directPairs userId1 userId2 d) as [|c0 l]; [done|].
      destruct (conversations d !! c0); [|done]. simpl in Hr. by injection Hr as ->.
    + intros Hne. apply two_rows_two_users; [by rewrite length_map| | |done];
        by apply conversationsOf_participantsOf.
Qed.

(** X20. A request for a direct conversation with oneself is answered
    with the first direct two-row conversation in which the user has a
    row, whoever its other member is: if the user has a direct
    conversation with anyone, the request answers 200 with an existing
    conversation of the user and creates nothing. *)
Theorem direct_conversation_with_oneself env userId other data c st :
  ic_type data = Some Direct →
  c ∈ directPairs userId other (db st) →
  ∃ c' conv,
    postConversations env userId data [userId] st
    = (Json 200 (Some (mkDetails (c', conv)
                         (joinUsers (db st) (participantsOf c' (db st))))),
       st)
    ∧ conversations (db st) !! c' = Some conv
    ∧ c' ∈ conversationsOf userId (db st)
    ∧ Conversation.type conv = Direct
    ∧ length (participantsOf c' (db st)) = 2%nat.
Proof.
  intros Hdirect Hc.
  assert (c ∈ directPairs userId userId (db st)) as Hself.
  { apply elem_of_directPairs in Hc as (H1 & _ & Hp).
    by apply elem_of_directPairs. }
  destruct (firstDirectPair (db st) (commonIds userId userId (db st)))
    as [[c' conv]|] eqn:Hfind.
  - pose proof Hfind as [Hin Hconv]%findDirect_Some.
    unfold id in Hin, Hconv. simpl in Hin, Hconv.
    apply elem_of_directPairs in Hin as (H1 & _ & Hp).
    apply isDirectPair_true in Hp as (conv' & Hconv' & Htype & Hlen).
    rewrite Hconv in Hconv'. injection Hconv' as <-.
    exists c', conv. split; [|done].
    by apply postConversations_existing.
  - apply findDirect_None in Hfind. rewrite Hfind in Hself.
    by apply elem_of_nil in Hself.
Qed.

(** X21. [removeParticipant] deletes every row of the user in the
    conversation, whatever its role, and no other row: the user is no
    longer among the members of the conversation, the other members and
    the other conversations keep their rows in order, and removing
    again changes nothing. It returns normally also when no row
    matches. *)
Theorem remove_participant_effect conversationId userId d :
  let d' := (removeParticipant conversationId userId d).2 in
  (removeParticipant conversationId userId d).1 = Returned tt
  ∧ users d' = users d ∧ conversations d' = conversations d
  ∧ calls d' = calls d ∧ callParticipants d' = callParticipants d
  ∧ (∀ p, p ∈ conversationParticipants d' ↔
          p ∈ conversationParticipants d
          ∧ ¬ (ConversationParticipant.conversationId p = conversationId
               ∧ ConversationParticipant.userId p = userId))
  ∧ memberIds conversationId d'
    = filter (λ u, u ≠ userId) (memberIds conversationId d)
  ∧ (∀ c, c ≠ conversationId → participantsOf c d' = participantsOf c d)
  ∧ (removeParticipant conversationId userId d').2 = d'.
Proof.
  intros d'. subst d'. unfold removeParticipant, modify. simpl.
  do 5 (split; [reflexivity|]). split; [|split; [|split]].
  - intros p. rewrite list_elem_of_filter. tauto.
  - unfold memberIds, participantsOf, joinUsers. simpl.
    induction (conversationParticipants d) as [|p rows IH]; [done|].
    rewrite (filter_cons _ p rows).
    destruct (decide (¬ (ConversationParticipant.conversationId p = conversationId
                         ∧ ConversationParticipant.userId p = userId)))
      as [Hkeep|Hdrop].
    + rewrite !filter_cons.
      destruct (decide (ConversationParticipant.conversationId p = conversationId))
        as [Hc|Hc]; [|exact IH].
      simpl. destruct (users d !! ConversationParticipant.userId p); [|exact IH].
      simpl. rewrite filter_cons_True by (intros Hu; by apply Hkeep).
      f_equal. exact IH.
    + apply dec_stable in Hdrop as [Hc Hu]. rewrite (filter_cons _ p rows).
      rewrite decide_True by done. simpl. rewrite Hu.
      destruct (users d !! userId); [|exact IH].
      simpl. rewrite filter_cons_False by (intros H; by apply H). exact IH.
  - intros c Hc. unfold participantsOf. simpl.
    rewrite list_filter_filter. apply list_filter_iff. intros p. split.
    + by intros [? _].
    + intros Hp. split; [done|]. intros [? _]. congruence.
  - unfold with_conversationParticipants. simpl. f_equal.
    rewrite list_filter_filter. apply list_filter_iff. tauto.
Qed.

(* ===================================================================== *)
(** ** Messages *)
(* ===================================================================== *)

Module MessageFacts.
Import Messages.

Lemma message_with_outbox_nil st : with_outbox (λ o, o ++ []) st = st.
Proof. destruct st; unfold with_outbox; simpl. by rewrite app_nil_r. Qed.

Lemma message_with_outbox_app st l1 l2 :
  with_outbox (λ o, o ++ l2) (with_outbox (λ o, o ++ l1) st)
  = with_outbox (λ o, o ++ (l1 ++ l2)) st.
Proof. destruct st; unfold with_outbox; simpl. by rewrite app_assoc. Qed.

Lemma with_store_same (st : App) : with_store (λ _, store st) st = st.
Proof. by destruct st. Qed.

Lemma with_base_same (s : Store) : with_base (λ _, base s) s = s.
Proof. by destruct s. Qed.

Lemma message_broadcastToUsers_frames userIds ev st :
  broadcastToUsers userIds ev st
  = with_outbox (λ o, o ++ frames st userIds ev) st.
Proof.
  unfold broadcastToUsers, frames.
  revert st. induction userIds as [|u us IH]; intros st; simpl.
  - by rewrite message_with_outbox_nil.
  - rewrite IH. unfold recipients at 2. simpl.
    destruct (clients st !! u) as [c|] eqn:Hc; [|done].
    destruct (decide (sockets st !! c = Some OPEN)); [|done].
    unfold send. simpl. by rewrite message_with_outbox_app.
Qed.

Lemma message_storage_run {A} (m : Eff Store A) st :
  storage m st = ((m (store st)).1, with_store (λ _, (m (store st)).2) st).
Proof. unfold storage. by destruct (m (store st)). Qed.

Lemma message_broadcastToConversation_run conversationId ev st :
  broadcastToConversation conversationId ev None st
  = (Returned tt,
     with_outbox (λ o, o ++ frames st
                             (memberIds conversationId (base (store st))) ev)
       st).
Proof.
  unfold broadcastToConversation, bind, modify. rewrite message_storage_run.
  unfold onBase, getParticipants, gets. cbn [fst snd].
  rewrite with_base_same, with_store_same.
  rewrite filter_exclude_nobody by done.
  by rewrite message_broadcastToUsers_frames.
Qed.

(** X22. A message can be edited or deleted through the routes by its
    sender only. For any other user the request is answered 403, and for
    an unknown message id 404; in both cases nothing is written and
    nothing is sent. *)
Theorem only_the_sender_edits_or_deletes env userId id content st :
  (∀ m, messages (store st) !! id = Some m → Message.senderId m ≠ userId) →
  let status := match messages (store st) !! id with
                | Some _ => 403%nat
                | None => 404%nat
                end in
  patchMessage env userId id content st = (Failed status, st)
  ∧ deleteMessageRoute env userId id st = (Failed status, st).
Proof.
  intros Hnot status. subst status.
  unfold patchMessage, deleteMessageRoute, respond, bind.
  rewrite !message_storage_run. unfold getMessage, gets. cbn [fst snd].
  rewrite with_store_same.
  destruct (messages (store st) !! id) as [m|] eqn:Hm; simpl; [|done].
  by rewrite !decide_True by (by apply Hnot).
Qed.

Lemma alter_present {A} (f : A → A) (k : string) (x : A) (m : gmap string A) :
  m !! k = Some x → alter f k m = <[k := f x]> m.
Proof.
  intros Hk. apply map_eq. intros j.
  destruct (decide (j = k)) as [->|Hne].
  - by rewrite lookup_alter_eq, lookup_insert_eq, Hk.
  - by rewrite lookup_alter_ne, lookup_insert_ne.
Qed.

Lemma deleteMessage_run env id m s :
  messages s !! id = Some m →
  deleteMessage env id s
  = (Returned tt, with_messages <[id := tombstone env m]> s).
Proof.
  intros Hm. unfold deleteMessage, modify, with_messages.
  by rewrite (alter_present _ _ _ _ Hm).
Qed.

Lemma updateMessage_run env id content m s :
  messages s !! id = Some m →
  updateMessage env id content s
  = (Returned (Some (id, edited env content m)),
     with_messages <[id := edited env content m]> s).
Proof. intros Hm. unfold updateMessage. by rewrite Hm. Qed.

Lemma frames_same_registry (st st' : App) userIds ev :
  clients st' = clients st → sockets st' = sockets st →
  frames st' userIds ev = frames st userIds ev.
Proof. intros Hc Hs. unfold frames, recipients. by rewrite Hc, Hs. Qed.

Lemma patchMessage_by_sender env id content m st :
  messages (store st) !! id = Some m →
  patchMessage env (Message.senderId m) id content st
  = (Json 200 (Some (id, edited env content m)),
     mkApp (clients st) (sockets st)
       (with_messages <[id := edited env content m]> (store st))
       (outbox st
        ++ frames st (memberIds (Message.conversationId m) (base (store st)))
             (MessageUpdated (Message.conversationId m)
                (Some (id, edited env content m))))).
Proof.
  intros Hm.
  unfold patchMessage, respond, bind.
  rewrite message_storage_run. unfold getMessage, gets. cbn [fst snd].
  rewrite with_store_same, Hm. cbn [fmap option_fmap option_map snd].
  rewrite decide_False by (intros H; by apply H).
  rewrite message_storage_run, (updateMessage_run _ _ _ _ _ Hm). cbn [fst snd].
  rewrite message_broadcastToConversation_run.
  by rewrite (frames_same_registry st).
Qed.

Lemma deleteMessageRoute_by_sender env id m st :
  messages (store st) !! id = Some m →
  deleteMessageRoute env (Message.senderId m) id st
  = (Json 204 tt,
     mkApp (clients st) (sockets st)
       (with_messages <[id := tombstone env m]> (store st))
       (outbox st
        ++ frames st (memberIds (Message.conversationId m) (base (store st)))
             (MessageDeleted (Message.conversationId m) id))).
Proof.
  intros Hm.
  unfold deleteMessageRoute, respond, bind.
  rewrite message_storage_run. unfold getMessage, gets. cbn [fst snd].
  rewrite with_store_same, Hm. cbn [fmap option_fmap option_map snd].
  rewrite decide_False by (intros H; by apply H).
  rewrite message_storage_run, (deleteMessage_run _ _ _ _ Hm). cbn [fst snd].
  rewrite message_broadcastToConversation_run.
  by rewrite (frames_same_registry st).
Qed.

(** X23. An edit by the sender replaces the content by the content of the
    request (kept if the request has none, cleared by null), sets editedAt
    to the time of the request and leaves all other columns and rows; the
    updated row is the response, and one message-updated frame with it goes
    to the open registered socket of every member of the conversation,
    the editor included. *)
Theorem edit_by_sender_effect env id content m st :
  messages (store st) !! id = Some m →
  let conv := Message.conversationId m in
  patchMessage env (Message.senderId m) id content st
  = (Json 200 (Some (id, edited env content m)),
     mkApp (clients st) (sockets st)
       (with_messages <[id := edited env content m]> (store st))
       (outbox st
        ++ frames st (memberIds conv (base (store st)))
             (MessageUpdated conv (Some (id, edited env content m))))).
Proof. intros Hm conv. by apply patchMessage_by_sender. Qed.

(** X24. A deletion by the sender keeps the row: its content becomes null
    and deletedAt the time of the request, all other columns and rows stay.
    The response is 204, and one message-deleted frame with the id goes to
    the open registered socket of every member of the conversation, the
    sender included. *)
Theorem delete_by_sender_effect env id m st :
  messages (store st) !! id = Some m →
  let conv := Message.conversationId m in
  deleteMessageRoute env (Message.senderId m) id st
  = (Json 204 tt,
     mkApp (clients st) (sockets st)
       (with_messages <[id := tombstone env m]> (store st))
       (outbox st
        ++ frames st (memberIds conv (base (store st)))
             (MessageDeleted conv id))).
Proof. intros Hm conv. by apply deleteMessageRoute_by_sender. Qed.

(** X25. A deleted message can still be edited by its sender: the edit is
    answered 200, the row gets the new content and editedAt, and it keeps
    the deletedAt of the deletion. *)
Theorem edit_after_delete_restores_content env1 env2 id text m st :
  messages (store st) !! id = Some m →
  let st1 := (deleteMessageRoute env1 (Message.senderId m) id st).2 in
  ∃ m2,
    (patchMessage env2 (Message.senderId m) id (TString text) st1).1
    = Json 200 (Some (id, m2))
    ∧ messages (store (patchMessage env2 (Message.senderId m) id
                         (TString text) st1).2) !! id = Some m2
    ∧ Message.content m2 = Some text
    ∧ Message.deletedAt m2 = Some (now env1)
    ∧ Message.editedAt m2 = Some (now env2).
Proof.
  intros Hm st1. subst st1.
  rewrite (deleteMessageRoute_by_sender _ _ _ _ Hm). cbn [snd].
  set (st1 := mkApp _ _ _ _).
  assert (messages (store st1) !! id = Some (tombstone env1 m)) as H1.
  { subst st1. unfold with_messages. simpl. by rewrite lookup_insert_eq. }
  pose proof (patchMessage_by_sender env2 id (TString text) _ _ H1) as Hrun.
  change (Message.senderId (tombstone env1 m)) with (Message.senderId m) in Hrun.
  rewrite Hrun. cbn [fst snd].
  exists (edited env2 (TString text) (tombstone env1 m)).
  split; [done|]. split; [|done].
  unfold with_messages. simpl. by rewrite lookup_insert_eq.
Qed.

Lemma createMessage_run env data c u s :
  messages s !! uuid env = None →
  conversations (base s) !! im_conversationId data = Some c →
  users (base s) !! im_senderId data = Some u →
  let row := Message.mk (im_conversationId data) (im_senderId data)
               (im_content data) (Some (default Text (im_messageType data)))
               (im_attachments data) (im_replyToId data)
               (Some Sent) None None (Some (now env)) in
  createMessage env data s
  = (Returned (uuid env, row),
     mkStore (with_conversations <[im_conversationId data := touched env c]>
                (base s))
             (<[uuid env := row]> (messages s))
             (<[im_conversationId data := uuid env]> (lastMessageId s))).
Proof.
  intros Hfresh Hc Hu row. unfold createMessage, bind, modify.
  rewrite Hfresh, Hc, Hu. cbn [fst snd].
  unfold with_messages at 1. cbn [base]. by rewrite Hc.
Qed.

Lemma createMessage_fails env data s :
  conversations (base s) !! im_conversationId data = None
  ∨ users (base s) !! im_senderId data = None
  ∨ is_Some (messages s !! uuid env) →
  ∃ e, createMessage env data s = (Thrown e, s).
Proof.
  intros H. unfold createMessage, bind.
  destruct (messages s !! uuid env) eqn:Hm; [by eexists|].
  destruct (conversations (base s) !! im_conversationId data) eqn:Hc;
    destruct (users (base s) !! im_senderId data) eqn:Hu;
    try by eexists.
  destruct H as [H|[H|[? H]]]; done.
Qed.

Lemma onBase_getUser id s :
  onBase (getUser id) s = (Returned ((λ u, (id, u)) <$> users (base s) !! id), s).
Proof. unfold onBase, getUser, gets. by rewrite with_base_same. Qed.

Lemma getMessageWithSender_eq id s :
  getMessageWithSender id s
  = (Returned
       (match messages s !! id with
        | Some m =>
            match users (base s) !! Message.senderId m with
            | Some u =>
                Some (mkWithSender (id, m) (Message.senderId m, u)
                  (match truthy (Message.replyToId m) with
                   | Some r =>
                       match messages s !! r with
                       | Some rm =>
                           match users (base s) !! Message.senderId rm with
                           | Some ru => Some ((r, rm), (Message.senderId rm, ru))
                           | None => None
                           end
                       | None => None
                       end
                   | None => None
                   end))
            | None => None
            end
        | None => None
        end), s).
Proof.
  unfold getMessageWithSender, bind, getMessage, gets, onBase, getUser, ret.
  destruct (messages s !! id) as [m|]; [|done]. simpl.
  destruct (users (base s) !! Message.senderId m) as [u|]; simpl;
    [|by destruct s].
  destruct (truthy (Message.replyToId m)) as [r|]; simpl; [|by destruct s].
  destruct (messages s !! r) as [rm|]; simpl; [|by destruct s].
  destruct (users (base s) !! Message.senderId rm) as [ru|]; simpl;
    by destruct s.
Qed.

Lemma getMessageWithSender_run id s :
  match messages s !! id with
  | Some m =>
      match users (base s) !! Message.senderId m with
      | Some u =>
          ∃ replyTo,
            getMessageWithSender id s
            = (Returned (Some (mkWithSender (id, m) (Message.senderId m, u)
                                 replyTo)), s)
      | None => getMessageWithSender id s = (Returned None, s)
      end
  | None => getMessageWithSender id s = (Returned None, s)
  end.
Proof.
  rewrite getMessageWithSender_eq.
  destruct (messages s !! id) as [m|]; [|done].
  destruct (users (base s) !! Message.senderId m) as [u|]; [|done].
  by eexists.
Qed.

Lemma postMessage_run env userId conv content replyToId files c u st :
  messages (store st) !! uuid env = None →
  conversations (base (store st)) !! conv = Some c →
  users (base (store st)) !! userId = Some u →
  ∃ replyTo,
    postMessage env userId conv content replyToId files st
    = (Json 201
         (Some (mkWithSender
                  (uuid env, posted env userId conv content replyToId files)
                  (userId, u) replyTo)),
       mkApp (clients st) (sockets st)
         (mkStore
            (with_conversations <[conv := touched env c]> (base (store st)))
            (<[uuid env := posted env userId conv content replyToId files]>
               (messages (store st)))
            (<[conv := uuid env]> (lastMessageId (store st))))
         (outbox st
          ++ frames st (memberIds conv (base (store st)))
               (NewMessage conv
                  (Some (mkWithSender
                           (uuid env,
                            posted env userId conv content replyToId files)
                           (userId, u) replyTo))))).
Proof.
  intros Hfresh Hc Hu. unfold postMessage. fold (attached files).
  unfold bind at 1. rewrite message_storage_run.
  rewrite (createMessage_run env _ c u) by done.
  cbn [fst snd im_conversationId im_senderId im_content im_replyToId
       im_attachments im_messageType default].
  fold (posted env userId conv content replyToId files).
  set (row := posted env userId conv content replyToId files).
  rewrite message_storage_run. cbn [store with_store id fst].
  set (s' := mkStore _ _ _).
  pose proof (getMessageWithSender_run (uuid env) s') as Hget.
  assert (messages s' !! uuid env = Some row) as Hrow
    by (subst s'; simpl; by rewrite lookup_insert_eq).
  rewrite Hrow in Hget.
  change (users (base s')) with (users (base (store st))) in Hget.
  change (Message.senderId row) with userId in Hget.
  rewrite Hu in Hget. destruct Hget as [replyTo Hget].
  exists replyTo. rewrite Hget. cbn [fst snd].
  rewrite message_broadcastToConversation_run. cbn [snd].
  by rewrite (frames_same_registry st).
Qed.

(** X26. A message posted by an existing user to an existing conversation
    is stored under the generated id with status sent, the time of the
    request as createdAt, and type image exactly when files were uploaded;
    the conversation gets this time as lastActivityAt and the id as
    lastMessageId. The response is 201 with the message and its sender,
    and the same goes in one new-message frame to the open registered
    socket of every member. The sender need not be a member. *)
Theorem post_message_effect env userId conv content replyToId files c u st :
  messages (store st) !! uuid env = None →
  conversations (base (store st)) !! conv = Some c →
  users (base (store st)) !! userId = Some u →
  let row := posted env userId conv content replyToId files in
  ∃ w,
    message w = (uuid env, row) ∧ sender w = (userId, u)
    ∧ postMessage env userId conv content replyToId files st
      = (Json 201 (Some w),
         mkApp (clients st) (sockets st)
           (mkStore
              (with_conversations <[conv := touched env c]> (base (store st)))
              (<[uuid env := row]> (messages (store st)))
              (<[conv := uuid env]> (lastMessageId (store st))))
           (outbox st
            ++ frames st (memberIds conv (base (store st)))
                 (NewMessage conv (Some w)))).
Proof.
  intros Hfresh Hc Hu row.
  destruct (postMessage_run env userId conv content replyToId files c u st
              Hfresh Hc Hu) as [replyTo Hrun].
  by eexists (mkWithSender _ _ replyTo).
Qed.

(** X27. A message for a conversation that does not exist, by a user that
    does not exist, or under an id that is taken, is answered 500; nothing
    is stored and nothing is sent. *)
Theorem post_message_failure env userId conv content replyToId files st :
  conversations (base (store st)) !! conv = None
  ∨ users (base (store st)) !! userId = None
  ∨ is_Some (messages (store st) !! uuid env) →
  postMessage env userId conv content replyToId files st = (Failed 500, st).
Proof.
  intros H. unfold postMessage. unfold bind at 1. rewrite message_storage_run.
  edestruct (createMessage_fails env) as [e ->]; [exact H|].
  cbn [fst snd]. by rewrite with_store_same.
Qed.

#[local] Instance lastActivityDesc_trans : Transitive lastActivityDesc.
Proof.
  intros a b c. unfold lastActivityDesc.
  destruct (Conversation.lastActivityAt a.2),
           (Conversation.lastActivityAt b.2),
           (Conversation.lastActivityAt c.2); try done. lia.
Qed.

(** X28. After a message is posted, the conversation is the first that
    [getUserConversations] lists for each of its members, provided the
    time of the request is later than the last activity of the member's
    other conversations. *)
Theorem new_message_moves_conversation_first
    env userId conv content replyToId files c u member st :
  messages (store st) !! uuid env = None →
  conversations (base (store st)) !! conv = Some c →
  users (base (store st)) !! userId = Some u →
  conv ∈ conversationsOf member (base (store st)) →
  (∀ other o, other ≠ conv →
     other ∈ conversationsOf member (base (store st)) →
     conversations (base (store st)) !! other = Some o →
     ∃ t, Conversation.lastActivityAt o = Some t ∧ (t < now env)%Z) →
  let d' := base (store (postMessage env userId conv content replyToId files
                           st).2) in
  ∃ first rest,
    getUserConversations member d' = (Returned (first :: rest), d')
    ∧ conversation first = (conv, touched env c).
Proof.
  intros Hfresh Hc Hu Hmem Hold d'.
  destruct (postMessage_run env userId conv content replyToId files c u st
              Hfresh Hc Hu) as [replyTo Hrun].
  subst d'. rewrite Hrun. cbn [snd store base]. clear Hrun replyTo.
  set (d := base (store st)) in *.
  set (d' := with_conversations _ d).
  destruct (getUserConversations_run member d') as (rows & Hrun & Hperm & Hsorted).
  change (conversationsOf member d') with (conversationsOf member d) in Hperm.
  assert ((conv, touched env c) ∈ rows) as Hin.
  { rewrite Hperm. apply list_elem_of_filter. split; [done|].
    apply elem_of_map_to_list. subst d'. unfold with_conversations. simpl.
    by rewrite lookup_insert_eq. }
  assert (∀ r, r ∈ rows →
            r.1 ∈ conversationsOf member d ∧ conversations d' !! r.1 = Some r.2)
    as Hrows.
  { intros [k v] Hr. rewrite Hperm in Hr.
    apply list_elem_of_filter in Hr as [Hk Hr].
    by apply elem_of_map_to_list in Hr. }
  destruct rows as [|h tl]; [by apply elem_of_nil in Hin|].
  rewrite Hrun. eexists _, _. split; [done|]. cbn [conversation].
  apply Sorted_StronglySorted in Hsorted; [|apply _].
  apply StronglySorted_cons in Hsorted as [Hhead _].
  apply elem_of_cons in Hin as [<-|Hin]; [done|].
  rewrite Forall_forall in Hhead. specialize (Hhead _ Hin).
  destruct (Hrows h (list_elem_of_here _ _)) as [Hk Hh].
  destruct h as [k v]. simpl in Hk, Hh.
  subst d'. unfold with_conversations in Hh. simpl in Hh.
  destruct (decide (k = conv)) as [->|Hne].
  - rewrite lookup_insert_eq in Hh. by injection Hh as <-.
  - rewrite lookup_insert_ne in Hh by done.
    destruct (Hold k v Hne Hk Hh) as (t & Ht & Hlt).
    unfold lastActivityDesc in Hhead. simpl in Hhead.
    rewrite Ht in Hhead. lia.
Qed.

#[local] Instance createdDesc_total : Total createdDesc.
Proof.
  intros a b. unfold createdDesc.
  destruct (Message.createdAt a.2), (Message.createdAt b.2); auto. lia.
Qed.

#[local] Instance createdDesc_trans : Transitive createdDesc.
Proof.
  intros a b c. unfold createdDesc.
  destruct (Message.createdAt a.2), (Message.createdAt b.2),
           (Message.createdAt c.2); try done. lia.
Qed.







(** X30. [getMessageWithSender] gives nothing exactly when the message or
    its sender is not stored, and changes nothing. The reply it attaches
    is resolved one level: it is there exactly when replyToId is a
    non-empty id of a stored message whose sender is stored, and it is
    that message with that sender. *)
Theorem message_with_sender_answer i s :
  ∃ r,
    getMessageWithSender i s = (Returned r, s)
    ∧ (r = None ↔
       ∀ m, messages s !! i = Some m →
            users (base s) !! Message.senderId m = None)
    ∧ ∀ w, r = Some w →
        ∃ m u,
          messages s !! i = Some m
          ∧ users (base s) !! Message.senderId m = Some u
          ∧ message w = (i, m) ∧ sender w = (Message.senderId m, u)
          ∧ ∀ reply replySender,
              replyTo w = Some (reply, replySender)
              ↔ Message.replyToId m = Some (id reply) ∧ id reply ≠ ""
                ∧ messages s !! id reply = Some reply.2
                ∧ id replySender = Message.senderId reply.2
                ∧ users (base s) !! id replySender = Some replySender.2.
Proof.
  eexists. split; [apply getMessageWithSender_eq|].
  destruct (messages s !! i) as [m|] eqn:Hm.
  2: { split; [done|]. intros w Hw. discriminate Hw. }
  destruct (users (base s) !! Message.senderId m) as [u|] eqn:Hu.
  2: { split; [|intros w Hw; discriminate Hw].
       split; [|done]. intros _ m' Hm'. by injection Hm' as <-. }
  split.
  { split; [done|]. intros H. specialize (H m eq_refl). congruence. }
  intros w Hw. injection Hw as <-. exists m, u.
  split; [done|]. split; [done|]. split; [done|]. split; [done|].
  intros [rk rm] [uk ru]. cbn [replyTo]. unfold id. cbn [fst snd].
  split.
  - destruct (truthy (Message.replyToId m)) as [r|] eqn:Hr; [|done].
    apply truthy_Some in Hr as [Hr Hne].
    destruct (messages s !! r) as [rm'|] eqn:Hrm; [|done].
    destruct (users (base s) !! Message.senderId rm') as [ru'|] eqn:Hru;
      [|done].
    intros H. injection H as <- <- <- <-. done.
  - intros (Hr & Hne & Hrm & -> & Hru).
    assert (truthy (Message.replyToId m) = Some rk) as ->
      by (by apply truthy_Some).
    by rewrite Hrm, Hru.
Qed.

(** *** Concrete runs on the sample *)

Lemma sample_message :
  messages (store MessageSample.app) !! "m1" = Some MessageSample.hello.
Proof. reflexivity. Qed.

Lemma only_the_sender_edits_or_deletes_run :
  patchMessage (Sample.at_ms 900) "B" "m1" (TString "mine") MessageSample.app
  = (Failed 403, MessageSample.app)
  ∧ deleteMessageRoute (Sample.at_ms 900) "B" "m1" MessageSample.app
    = (Failed 403, MessageSample.app).
Proof.
  apply (only_the_sender_edits_or_deletes (Sample.at_ms 900) "B" "m1"
           (TString "mine") MessageSample.app).
  intros m Hm. rewrite sample_message in Hm. injection Hm as <-. discriminate.
Defined.

Lemma edit_by_sender_effect_run :
  let st := MessageSample.app in
  let result := patchMessage (Sample.at_ms 900) "A" "m1" (TString "hi") st in
  let row := Message.mk "c1" "A" (Some "hi") (Some Text) None None (Some Sent)
               (Some 900) None (Some 600) in
  result.1 = Json 200 (Some ("m1", row))
  ∧ messages (store result.2) !! "m1" = Some row
  ∧ outbox result.2 = [(1%nat, MessageUpdated "c1" (Some ("m1", row)));
                       (2%nat, MessageUpdated "c1" (Some ("m1", row)))].
Proof.
  pose proof (edit_by_sender_effect (Sample.at_ms 900) "m1" (TString "hi")
                MessageSample.hello MessageSample.app sample_message) as Hrun.
  cbv zeta in *.
  change (Message.senderId MessageSample.hello) with "A" in Hrun.
  rewrite Hrun. vm_compute. done.
Defined.

Lemma delete_by_sender_effect_run :
  let st := MessageSample.app in
  let result := deleteMessageRoute (Sample.at_ms 900) "A" "m1" st in
  let row := Message.mk "c1" "A" None (Some Text) None None (Some Sent)
               None (Some 900) (Some 600) in
  result.1 = Json 204 tt
  ∧ messages (store result.2) !! "m1" = Some row
  ∧ outbox result.2 = [(1%nat, MessageDeleted "c1" "m1");
                       (2%nat, MessageDeleted "c1" "m1")].
Proof.
  pose proof (delete_by_sender_effect (Sample.at_ms 900) "m1"
                MessageSample.hello MessageSample.app sample_message) as Hrun.
  cbv zeta in *.
  change (Message.senderId MessageSample.hello) with "A" in Hrun.
  rewrite Hrun. vm_compute. done.
Defined.

Lemma edit_after_delete_restores_content_run :
  let st1 := (deleteMessageRoute (Sample.at_ms 900) "A" "m1"
                MessageSample.app).2 in
  let st2 := (patchMessage (Sample.at_ms 950) "A" "m1" (TString "again")
                st1).2 in
  ∃ m2, messages (store st2) !! "m1" = Some m2
        ∧ Message.content m2 = Some "again"
        ∧ Message.deletedAt m2 = Some 900.
Proof.
  destruct (edit_after_delete_restores_content (Sample.at_ms 900)
              (Sample.at_ms 950) "m1" "again" MessageSample.hello
              MessageSample.app sample_message)
    as (m2 & _ & Hrow & Hcontent & Hdeleted & _).
  exists m2. split; [exact Hrow|]. split; [exact Hcontent|exact Hdeleted].
Defined.

Lemma post_message_effect_run :
  let st := MessageSample.app in
  let result := postMessage (Sample.at_ms 900) "B" "c1" (Some "yo") None None
                  st in
  let row := Message.mk "c1" "B" (Some "yo") (Some Text) None None (Some Sent)
               None None (Some 900) in
  ∃ w, result.1 = Json 201 (Some w)
       ∧ message w = ("fresh", row)
       ∧ messages (store result.2) !! "fresh" = Some row
       ∧ lastMessageId (store result.2) !! "c1" = Some "fresh"
       ∧ outbox result.2 = [(1%nat, NewMessage "c1" (Some w));
                            (2%nat, NewMessage "c1" (Some w))].
Proof.
  destruct (post_message_effect (Sample.at_ms 900) "B" "c1" (Some "yo") None
              None (Conversation.mk Direct None None (Some "A") (Some 600))
              (Sample.user "bob") MessageSample.app)
    as (w & Hmessage & _ & Hrun); [reflexivity..|].
  exists w. cbv zeta. rewrite Hrun. cbn [fst snd store outbox messages
                                          lastMessageId].
  split; [done|]. split; [exact Hmessage|].
  split; [by rewrite lookup_insert_eq|].
  split; [by rewrite lookup_insert_eq|]. reflexivity.
Defined.


(** The ids of the pages of the sample: a negative limit gives the whole
    conversation, a limit of 2 its two newest messages. *)
Lemma negative_limit_returns_every_message :
  let s := MessageSample.history in
  let ids (limit : Z) :=
    match (getConversationMessages "c1" limit 0 s).1 with
    | Returned page => map (λ w, id (message w)) page
    | Thrown _ => []
    end in
  ids (-1) = ["m1"; "m2"; "m3"] ∧ ids 2 = ["m2"; "m3"].
Proof. vm_compute. split; reflexivity. Qed.

Lemma post_message_failure_run :
  postMessage (Sample.at_ms 900) "A" "c9" (Some "yo") None None
    MessageSample.app
  = (Failed 500, MessageSample.app).
Proof.
  apply (post_message_failure (Sample.at_ms 900) "A" "c9" (Some "yo") None
           None MessageSample.app).
  left. reflexivity.
Defined.

Lemma new_message_moves_conversation_first_run :
  let st := MessageSample.app in
  let d' := base (store (postMessage (Sample.at_ms 900) "B" "c1" (Some "yo")
                           None None st).2) in
  (∃ first rest,
     (getUserConversations "A" (base (store st))).1 = Returned (first :: rest)
     ∧ id (conversation first) = "c2")
  ∧ ∃ first rest,
      (getUserConversations "A" d').1 = Returned (first :: rest)
      ∧ id (conversation first) = "c1".
Proof.
  split; [eexists _, _; split; vm_compute; reflexivity|].
  destruct (new_message_moves_conversation_first (Sample.at_ms 900) "B" "c1"
              (Some "yo") None None
              (Conversation.mk Direct None None (Some "A") (Some 600))
              (Sample.user "bob") "A" MessageSample.app)
    as (first & rest & Hrun & Hfirst); [reflexivity..| | |].
  - vm_compute. apply list_elem_of_here.
  - intros other o Hne Hin Ho.
    assert (conversationsOf "A" (base (store MessageSample.app))
            = ["c1"; "c2"]) as Hids by (vm_compute; reflexivity).
    rewrite Hids in Hin.
    apply elem_of_cons in Hin as [->|Hin]; [done|].
    apply list_elem_of_singleton in Hin as ->.
    exists 800%Z. split; [|reflexivity].
    assert (conversations (base (store MessageSample.app)) !! "c2"
            = Some (Conversation.mk Direct None None (Some "A") (Some 800)))
      as Hc2 by reflexivity.
    rewrite Hc2 in Ho. by injection Ho as <-.
  - exists first, rest. rewrite Hrun, Hfirst. done.
Defined.

End MessageFacts.

(* ===================================================================== *)
(** ** Further concrete runs *)
(* ===================================================================== *)

(** ["B"] declines the ringing call of ["A"]. *)
Lemma decline_call_effect_run :
  let st := Sample.server Sample.ringingCall in
  let st' := (onMessage (Sample.at_ms 700) 2 (Some "B")
                (DeclineCall (Some "k1")) st).2 in
  calls (db st') !! "k1"
  = Some (Call.mk (Some "c1") "A" Voice Declined None None None (Some 500))
  ∧ outbox st' = [(1%nat, CallDeclined "k1" "B"); (2%nat, CallDeclined "k1" "B")].
Proof.
  destruct (decline_call_effect (Sample.at_ms 700) 2 "B" "k1"
              Sample.ringingCall (Sample.server Sample.ringingCall))
    as (Hcalls & _ & _ & Hout); [discriminate|discriminate|reflexivity|].
  cbv zeta. split.
  - rewrite Hcalls. vm_compute. reflexivity.
  - rewrite (Hout "c1"); [|reflexivity|discriminate]. vm_compute. reflexivity.
Defined.

Lemma lifecycle_on_unknown_call_is_ignored_run :
  let st := Sample.server Sample.ringingCall in
  onMessage (Sample.at_ms 700) 1 (Some "A") (EndCall (Some "k9")) st
  = (Some "A", st).
Proof.
  destruct (lifecycle_on_unknown_call_is_ignored (Sample.at_ms 700) 1
              (Some "A") (Some "k9") (Sample.server Sample.ringingCall))
    as (_ & _ & Hend); [|exact Hend].
  intros cid Hcid. injection Hcid as <-. reflexivity.
Defined.

Lemma accept_by_unknown_user_is_ignored_run :
  let st := Sample.server Sample.ringingCall in
  onMessage (Sample.at_ms 700) 3 (Some "Z") (AcceptCall (Some "k1")) st
  = (Some "Z", st).
Proof.
  apply (accept_by_unknown_user_is_ignored (Sample.at_ms 700) 3 "Z"
           (Some "k1") (Sample.server Sample.ringingCall)).
  reflexivity.
Defined.

Lemma relay_forwards_to_target_only_run :
  let st := Sample.server Sample.activeCall in
  outbox (onMessage (Sample.at_ms 700) 1 (Some "A")
            (WebrtcOfferMsg (Some "B") (Some "sdp")) st).2
  = [(2%nat, WebrtcOffer "A" "sdp")].
Proof.
  destruct (relay_forwards_to_target_only (Sample.at_ms 700) 1 "A" "B" "sdp"
              (Sample.server Sample.activeCall))
    as (_ & Hoffer & _); [discriminate..|].
  cbv zeta. rewrite Hoffer. vm_compute. reflexivity.
Defined.

Lemma toggle_without_call_or_flag_is_ignored_run :
  let st := Sample.server Sample.activeCall in
  onMessage (Sample.at_ms 700) 1 (Some "A")
    (Toggle ToggleMute (mkTogglePayload (Some "k1") FUndefined (FBool true)
                          FUndefined)) st
  = (Some "A", st).
Proof.
  apply (toggle_without_call_or_flag_is_ignored (Sample.at_ms 700) 1 (Some "A")
           ToggleMute
           (mkTogglePayload (Some "k1") FUndefined (FBool true) FUndefined)
           (Sample.server Sample.activeCall)).
  right. reflexivity.
Defined.

Lemma typing_updates_own_rows_only_run :
  let st := Sample.server Sample.activeCall in
  let st' := (onMessage (Sample.at_ms 700) 1 (Some "A")
                (Typing (Some "c1") (FBool true)) st).2 in
  length (conversationParticipants (db st')) = 2%nat
  ∧ users (db st') = users (db st)
  ∧ calls (db st') = calls (db st).
Proof.
  destruct (typing_updates_own_rows_only (Sample.at_ms 700) 1 "A" "c1"
              (FBool true) (Sample.server Sample.activeCall))
    as (Hlength & Husers & _ & Hcalls & _); [discriminate..|].
  cbv zeta. split; [|split]; [|exact Husers|exact Hcalls].
  rewrite Hlength. reflexivity.
Defined.

(** ["C"] comes online on socket 3. *)
Lemma user_online_effect_run :
  let st := Sample.server Sample.activeCall in
  let result := onMessage (Sample.at_ms 700) 3 None (UserOnline (Some "C")) st in
  result.1 = Some "C" ∧ clients result.2 !! "C" = Some 3%nat.
Proof.
  destruct (user_online_effect (Sample.at_ms 700) 3 None "C"
              (Sample.server Sample.activeCall))
    as (Hbound & Hclients & _); [discriminate|].
  cbv zeta. split; [exact Hbound|].
  rewrite Hclients. by rewrite lookup_insert_eq.
Defined.

Lemma close_bound_connection_effect_run :
  let st := Sample.server Sample.activeCall in
  let st' := transportClose (Sample.at_ms 700) 1 (Some "A") st in
  clients st' !! "A" = None ∧ sockets st' !! 1%nat = Some CLOSED.
Proof.
  destruct (close_bound_connection_effect (Sample.at_ms 700) 1 "A"
              (Sample.server Sample.activeCall))
    as (Hclients & Hsockets & _); [discriminate|].
  cbv zeta. split.
  - rewrite Hclients. by rewrite lookup_delete_eq.
  - rewrite Hsockets. by rewrite lookup_insert_eq.
Defined.

(** Socket 3 binds ["C"], then ["B"], then closes. *)
Lemma second_binding_leaves_first_entry_run :
  let st := Sample.server Sample.activeCall in
  let first := onMessage (Sample.at_ms 700) 3 None (UserOnline (Some "C")) st in
  let second := onMessage (Sample.at_ms 800) 3 first.1 (UserOnline (Some "B"))
                  first.2 in
  let closed := transportClose (Sample.at_ms 900) 3 second.1 second.2 in
  clients closed !! "C" = Some 3%nat ∧ clients closed !! "B" = None.
Proof.
  destruct (second_binding_leaves_first_entry (Sample.at_ms 700)
              (Sample.at_ms 800) (Sample.at_ms 900) 3 "C" "B"
              (Sample.server Sample.activeCall))
    as (Hfirst & Hsecond & _); [discriminate..|].
  cbv zeta. split; [exact Hfirst|exact Hsecond].
Defined.

Lemma sample_keys call :
  Call.initiatorId call = "A" → Call.conversationId call = Some "c1" →
  foreignKeysHold (Sample.database call).
Proof.
  intros Hinitiator Hconversation.
  assert (∀ k, k = "A" ∨ k = "B" → is_Some (Sample.people !! k)) as Hpeople.
  { intros k [->| ->]; by eexists. }
  assert (is_Some (conversations (Sample.database call) !! "c1")) as Hconv
    by (by eexists).
  split; [|split; [|split]].
  - repeat constructor; simpl; auto.
  - repeat constructor; simpl; [|auto].
    rewrite lookup_singleton_eq. by eexists.
  - apply map_Forall_singleton. split.
    + rewrite Hinitiator. simpl. auto.
    + intros conversationId Hc. rewrite Hconversation in Hc.
      by injection Hc as <-.
  - apply map_Forall_singleton. intros creator Hc.
    injection Hc as <-. simpl. auto.
Qed.

Lemma foreign_keys_are_kept_run :
  let st := Sample.server Sample.ringingCall in
  foreignKeysHold
    (db (postCalls (Sample.at_ms 700) "B" (Some "c1") (Some Video) st).2)
  ∧ foreignKeysHold (db (transportClose (Sample.at_ms 700) 1 (Some "A") st)).
Proof.
  destruct (foreign_keys_are_kept (Sample.at_ms 700) 1 (Some "A") [] "B"
              (Some "c1") (Some Video)
              (mkInsertConversation None None None) []
              (Sample.server Sample.ringingCall))
    as (_ & Hclose & Hcalls & _).
  - by apply sample_keys.
  - cbv zeta. split; [exact Hcalls|exact Hclose].
Defined.

(** ["A"] starts a video call in ["c1"] at second 1, ["B"] accepts at
    second 2, ["A"] ends it at second 62. *)
Lemma call_from_start_to_end_run :
  let st := Sample.server Sample.endedCall in
  let s1 := (onMessage (mkEnv 1000 "k2") 1 (Some "A")
               (StartCall (Some "c1") (Some Video)) st).2 in
  let s2 := (onMessage (mkEnv 2000 "p1") 2 (Some "B")
               (AcceptCall (Some "k2")) s1).2 in
  let s3 := (onMessage (mkEnv 62000 "p2") 1 (Some "A")
               (EndCall (Some "k2")) s2).2 in
  calls (db s3) !! "k2"
  = Some (Call.mk (Some "c1") "A" Video Ended (Some 2000) (Some 62000)
            (Some 60) (Some 1000))
  ∧ length (outbox s3) = 5%nat.
Proof.
  destruct (call_from_start_to_end (mkEnv 1000 "k2") (mkEnv 2000 "p1")
              (mkEnv 62000 "p2") 1 2 "A" "B" "c1" (Some Video)
              (Sample.user "alice") (Sample.user "bob")
              (Conversation.mk Direct None None (Some "A") (Some 10))
              (Sample.server Sample.endedCall))
    as (Hcalls & _ & Hout);
    [discriminate|discriminate|discriminate|discriminate|reflexivity..|].
  cbv zeta in *. change (uuid (mkEnv 1000 "k2")) with "k2" in *. split.
  - rewrite Hcalls. vm_compute. reflexivity.
  - rewrite Hout. vm_compute. reflexivity.
Defined.

(** ["A"] creates a group with ["B"] and ["C"]. *)
Lemma conversation_creation_effect_run :
  let st := Sample.server Sample.activeCall in
  let result := postConversations (Sample.at_ms 3000) "A"
                  (mkInsertConversation (Some Group) (Some "team") None)
                  ["B"; "C"] st in
  responseId result.1 = Some "fresh"
  ∧ length (conversationParticipants (db result.2)) = 5%nat.
Proof.
  pose proof (conversation_creation_effect (Sample.at_ms 3000) "A"
                (mkInsertConversation (Some Group) (Some "team") None)
                ["B"; "C"] (Sample.server Sample.activeCall)) as Hrun.
  cbv zeta in *. rewrite Hrun.
  - split; reflexivity.
  - exact I.
  - reflexivity.
  - by eexists.
  - repeat constructor; by eexists.
Defined.

(** The same with an unknown id between the two. *)
Lemma failed_creation_leaves_conversation_run :
  let st := Sample.server Sample.activeCall in
  let result := postConversations (Sample.at_ms 3000) "A"
                  (mkInsertConversation (Some Group) (Some "team") None)
                  ["B"; "Z"; "C"] st in
  result.1 = Failed 500
  ∧ is_Some (conversations (db result.2) !! "fresh")
  ∧ length (conversationParticipants (db result.2)) = 4%nat.
Proof.
  pose proof (failed_creation_leaves_conversation (Sample.at_ms 3000) "A"
                (mkInsertConversation (Some Group) (Some "team") None)
                ["B"] "Z" ["C"] (Sample.server Sample.activeCall)) as Hrun.
  cbv zeta in *. simpl app in Hrun. rewrite Hrun.
  - split; [reflexivity|]. split; [by eexists|reflexivity].
  - exact I.
  - reflexivity.
  - by eexists.
  - repeat constructor; by eexists.
  - discriminate.
  - reflexivity.
Defined.

(** ["A"] asks for a direct conversation with ["A"]. *)
Lemma direct_conversation_with_oneself_run :
  let st := Sample.server Sample.activeCall in
  let result := postConversations (Sample.at_ms 3000) "A"
                  (mkInsertConversation (Some Direct) None None) ["A"] st in
  result.2 = st ∧ ∃ details, result.1 = Json 200 (Some details).
Proof.
  destruct (direct_conversation_with_oneself (Sample.at_ms 3000) "A" "B"
              (mkInsertConversation (Some Direct) None None) "c1"
              (Sample.server Sample.activeCall))
    as (c' & conv & Hrun & _).
  - reflexivity.
  - assert (directPairs "A" "B" (db (Sample.server Sample.activeCall))
            = ["c1"]) as -> by (vm_compute; reflexivity).
    apply list_elem_of_here.
  - cbv zeta. rewrite Hrun. split; [reflexivity|by eexists].
Defined.
